(** * The screenshot-to-solution pipeline of open-interview-helper

    A shallow embedding of [electron/api/anthropicClient.ts] (the LLM
    gateway and the interpretation of its replies), of the
    [ProcessingHelper] class (the orchestrator of the solve and debug
    pipelines), of the handlers of [electron/ipcHandlers.ts] that drive
    them or touch the credit counter, and of the channels and
    subscriptions of [electron/preload.ts], followed by the properties of
    the specification that concern them and by further properties of the
    code.

    JavaScript values are modelled by inductive types, exceptions by an
    explicit completion type, the mutable application state by a record
    that is threaded through a state-and-exception monad, and everything
    that lives outside the sources (the renderer, the file system, the
    HTTP endpoint, the moment at which the user cancels) by a record of
    oracles.

    Conventions of the model:
    - a string is a sequence of bytes; a number is an integer or [NaN];
    - an asynchronous method is a function of the state; the only thing
      that can happen while it is suspended is a call of
      [cancelOngoingRequests], at the points listed in [AwaitPoint];
    - [Promise.all] over the queue takes the screenshots in order;
    - the main window is the same throughout a run, and what is sent to it
      is recorded in the state; the results are stated for a window that
      is not destroyed;
    - a [while] loop is given a number of iterations it may use, and the
      results show that one is enough. *)

From Stdlib Require Import List String Ascii Bool Arith ZArith Lia.
From Stdlib Require Import DecimalString.
Import ListNotations.

Set Warnings "-register-all".

Local Open Scope string_scope.
Local Open Scope list_scope.

(* ================================================================== *)
(** ** JavaScript values *)
(* ================================================================== *)

(** What [JSON.parse] can return.  A number keeps the lexeme it was read
    from; an object keeps its keys in insertion order and holds each key
    once. *)
Inductive Json : Type :=
| JNull
| JBool (b : bool)
| JNumber (lexeme : string)
| JString (s : string)
| JArray (items : list Json)
| JObject (fields : list (string * Json)).

(** An [Error] object as the pipeline looks at it: its [message], whether
    [axios.isCancel] answers true on it, and the [response] an axios error
    carries when the server answered. *)
Record JsError : Type := mkError {
  message : string;
  isCancel : bool;
  response : option (Z * Json)
}.

(** [new Error(msg)] *)
Definition Error (msg : string) : JsError :=
  {| message := msg; isCancel := false; response := None |}.

(** The completion of a computation that touches no state: a value, or a
    thrown error. *)
Inductive Completion (A : Type) : Type :=
| Normal (a : A)
| Abrupt (e : JsError).
Arguments Normal {A} a.
Arguments Abrupt {A} e.

(** [try { body } catch (e) { handler(e) }] on pure completions. *)
Definition try_pure {A : Type} (body : Completion A)
           (handler : JsError -> Completion A) : Completion A :=
  match body with
  | Normal a => Normal a
  | Abrupt e => handler e
  end.

(** [a || b] on strings: the empty string is falsy. *)
Definition or_else (a b : string) : string :=
  match a with
  | EmptyString => b
  | _ => a
  end.

(* ------------------------------------------------------------------ *)
(** *** Characters *)

Definition dquote : ascii := "034"%char.
Definition nl : string := String "010"%char EmptyString.
Definition dq : string := String dquote EmptyString.

Definition code (c : ascii) : nat := nat_of_ascii c.

Definition is_digit (c : ascii) : bool :=
  (48 <=? code c)%nat && (code c <=? 57)%nat.

Definition is_digit19 (c : ascii) : bool :=
  (49 <=? code c)%nat && (code c <=? 57)%nat.

(** JSON white space: space, tab, line feed, carriage return. *)
Definition is_json_ws (c : ascii) : bool :=
  match code c with
  | 32 | 9 | 10 | 13 => true
  | _ => false
  end.

Definition hex_value (c : ascii) : option nat :=
  let n := code c in
  if is_digit c then Some (n - 48)
  else if (97 <=? n)%nat && (n <=? 102)%nat then Some (n - 87)
  else if (65 <=? n)%nat && (n <=? 70)%nat then Some (n - 55)
  else None.

(** A UTF-16 code unit written as [\uXXXX], stored as UTF-8 bytes. *)
Definition utf8_of_unit (u : nat) : list ascii :=
  if (u <? 128)%nat then [ascii_of_nat u]
  else if (u <? 2048)%nat then
    [ascii_of_nat (192 + u / 64); ascii_of_nat (128 + u mod 64)]
  else
    [ascii_of_nat (224 + u / 4096);
     ascii_of_nat (128 + (u / 64) mod 64);
     ascii_of_nat (128 + u mod 64)].

(* ------------------------------------------------------------------ *)
(** *** [JSON.parse] *)

Fixpoint skip_ws (cs : list ascii) : list ascii :=
  match cs with
  | c :: r => if is_json_ws c then skip_ws r else cs
  | [] => []
  end.

Fixpoint take_digits (cs : list ascii) : list ascii * list ascii :=
  match cs with
  | c :: r =>
      if is_digit c then
        let (ds, rest) := take_digits r in (c :: ds, rest)
      else ([], cs)
  | [] => ([], [])
  end.

(** The character a simple escape [\e] stands for. *)
Definition escape_of (e : ascii) : option ascii :=
  let n := code e in
  if (n =? 34)%nat then Some "034"%char
  else if (n =? 92)%nat then Some "092"%char
  else if (n =? 47)%nat then Some "/"%char
  else if (n =? 98)%nat then Some "008"%char
  else if (n =? 102)%nat then Some "012"%char
  else if (n =? 110)%nat then Some "010"%char
  else if (n =? 114)%nat then Some "013"%char
  else if (n =? 116)%nat then Some "009"%char
  else None.

(** The text after the opening quote of a string literal, up to the closing
    quote; [acc] holds the decoded characters, last first. *)
Fixpoint lex_string (cs acc : list ascii) : option (list ascii * list ascii) :=
  match cs with
  | [] => None
  | c :: r =>
      if (code c =? 34)%nat then Some (rev acc, r)
      else if (code c =? 92)%nat then
        match r with
        | e :: r' =>
            if (code e =? 117)%nat then
              match r' with
              | h1 :: h2 :: h3 :: h4 :: r'' =>
                  match hex_value h1, hex_value h2, hex_value h3, hex_value h4 with
                  | Some a, Some b, Some c', Some d =>
                      lex_string r''
                        (rev (utf8_of_unit (a * 4096 + b * 256 + c' * 16 + d)) ++ acc)
                  | _, _, _, _ => None
                  end
              | _ => None
              end
            else
              match escape_of e with
              | Some x => lex_string r' (x :: acc)
              | None => None
              end
        | [] => None
        end
      else if (code c <? 32)%nat then None
      else lex_string r (c :: acc)
  end.

(** A number literal: an optional minus sign, then a single zero or a
    non-zero digit followed by digits, then optionally a point and at least
    one digit, then optionally an exponent mark, a sign and at least one
    digit. *)
Definition lex_number (cs : list ascii) : option (list ascii * list ascii) :=
  let '(sign, r0) :=
    match cs with
    | c :: r => if (code c =? 45)%nat then ([c], r) else ([], cs)
    | [] => ([], [])
    end in
  let int_part :=
    match r0 with
    | c :: r1 =>
        if (code c =? 48)%nat then Some ([c], r1)
        else if is_digit19 c then
          let (ds, r2) := take_digits r1 in Some (c :: ds, r2)
        else None
    | [] => None
    end in
  match int_part with
  | None => None
  | Some (ip, r1) =>
      let frac_part :=
        match r1 with
        | c :: r2 =>
            if (code c =? 46)%nat then
              match take_digits r2 with
              | ([], _) => None
              | (ds, r3) => Some (c :: ds, r3)
              end
            else Some ([], r1)
        | [] => Some ([], [])
        end in
      match frac_part with
      | None => None
      | Some (fp, r2) =>
          let exp_part :=
            match r2 with
            | c :: r3 =>
                if (code c =? 101)%nat || (code c =? 69)%nat then
                  let '(es, r4) :=
                    match r3 with
                    | s :: r4 =>
                        if (code s =? 43)%nat || (code s =? 45)%nat
                        then ([s], r4) else ([], r3)
                    | [] => ([], [])
                    end in
                  match take_digits r4 with
                  | ([], _) => None
                  | (ds, r5) => Some (c :: es ++ ds, r5)
                  end
                else Some ([], r2)
            | [] => Some ([], [])
            end in
          match exp_part with
          | None => None
          | Some (ep, r3) => Some (sign ++ ip ++ fp ++ ep, r3)
          end
      end
  end.

(** [obj[k] = v]: an existing key keeps its place, a new key goes last. *)
Fixpoint obj_set (k : string) (v : Json) (fields : list (string * Json))
  : list (string * Json) :=
  match fields with
  | [] => [(k, v)]
  | (k', v') :: rest =>
      if String.eqb k k' then (k, v) :: rest
      else (k', v') :: obj_set k v rest
  end.

(** [obj[k]] on the fields of an object; [None] is [undefined]. *)
Fixpoint obj_get (k : string) (fields : list (string * Json)) : option Json :=
  match fields with
  | [] => None
  | (k', v) :: rest => if String.eqb k k' then Some v else obj_get k rest
  end.

Definition starts_with (lit : list ascii) (cs : list ascii) : option (list ascii) :=
  (fix go (l cs : list ascii) : option (list ascii) :=
     match l with
     | [] => Some cs
     | a :: l' =>
         match cs with
         | c :: r => if Ascii.eqb a c then go l' r else None
         | [] => None
         end
     end) lit cs.

(** The recursive descent of the JSON grammar.  Every call spends one unit
    of [fuel]; [JSON_parse] below provides twice the length of the text
    and two more, which is more than any text of that length can use
    (lemma [JSON_parse_fuel]). *)
Fixpoint parse_value (fuel : nat) (cs : list ascii)
  : option (Json * list ascii) :=
  match fuel with
  | O => None
  | S fuel' =>
      match skip_ws cs with
      | [] => None
      | c :: r =>
          if (code c =? 123)%nat (* { *) then
            match skip_ws r with
            | c1 :: r1 =>
                if (code c1 =? 125)%nat then Some (JObject [], r1)
                else parse_members fuel' (c1 :: r1) []
            | [] => None
            end
          else if (code c =? 91)%nat (* [ *) then
            match skip_ws r with
            | c1 :: r1 =>
                if (code c1 =? 93)%nat then Some (JArray [], r1)
                else parse_elements fuel' (c1 :: r1) []
            | [] => None
            end
          else if (code c =? 34)%nat then
            match lex_string r [] with
            | Some (s, r1) => Some (JString (string_of_list_ascii s), r1)
            | None => None
            end
          else if (code c =? 116)%nat (* t *) then
            match starts_with (list_ascii_of_string "rue") r with
            | Some r1 => Some (JBool true, r1)
            | None => None
            end
          else if (code c =? 102)%nat (* f *) then
            match starts_with (list_ascii_of_string "alse") r with
            | Some r1 => Some (JBool false, r1)
            | None => None
            end
          else if (code c =? 110)%nat (* n *) then
            match starts_with (list_ascii_of_string "ull") r with
            | Some r1 => Some (JNull, r1)
            | None => None
            end
          else
            match lex_number (c :: r) with
            | Some (lx, r1) => Some (JNumber (string_of_list_ascii lx), r1)
            | None => None
            end
      end
  end

with parse_elements (fuel : nat) (cs : list ascii) (acc : list Json)
  : option (Json * list ascii) :=
  match fuel with
  | O => None
  | S fuel' =>
      match parse_value fuel' cs with
      | Some (v, r) =>
          match skip_ws r with
          | c :: r1 =>
              if (code c =? 44)%nat then parse_elements fuel' r1 (v :: acc)
              else if (code c =? 93)%nat then Some (JArray (rev (v :: acc)), r1)
              else None
          | [] => None
          end
      | None => None
      end
  end

with parse_members (fuel : nat) (cs : list ascii) (acc : list (string * Json))
  : option (Json * list ascii) :=
  match fuel with
  | O => None
  | S fuel' =>
      match skip_ws cs with
      | q :: r =>
          if (code q =? 34)%nat then
            match lex_string r [] with
            | Some (k, r1) =>
                match skip_ws r1 with
                | colon :: r2 =>
                    if (code colon =? 58)%nat then
                      match parse_value fuel' r2 with
                      | Some (v, r3) =>
                          let acc' := obj_set (string_of_list_ascii k) v acc in
                          match skip_ws r3 with
                          | c :: r4 =>
                              if (code c =? 44)%nat then parse_members fuel' r4 acc'
                              else if (code c =? 125)%nat then Some (JObject acc', r4)
                              else None
                          | [] => None
                          end
                      | None => None
                      end
                    else None
                | [] => None
                end
            | None => None
            end
          else None
      | [] => None
      end
  end.

Definition SyntaxError : JsError := Error "Unexpected token in JSON".

(** [JSON.parse(text)]: one value, white space around it, nothing else. *)
Definition JSON_parse (text : string) : Completion Json :=
  match parse_value (2 * String.length text + 2) (list_ascii_of_string text) with
  | Some (v, r) =>
      match skip_ws r with
      | [] => Normal v
      | _ :: _ => Abrupt SyntaxError
      end
  | None => Abrupt SyntaxError
  end.

(** What [fuel] was enough for, any fuel above twice the number of
    characters consumed, less one, is enough for. *)
Definition enough_value (fuel : nat) : Prop :=
  forall cs v r,
    parse_value fuel cs = Some (v, r) ->
    (List.length r < List.length cs)%nat /\
    forall fuel', (2 * (List.length cs - List.length r) <= S fuel')%nat ->
                  parse_value fuel' cs = Some (v, r).

Definition enough_elements (fuel : nat) : Prop :=
  forall cs acc v r,
    parse_elements fuel cs acc = Some (v, r) ->
    (List.length r + 2 <= List.length cs)%nat /\
    forall fuel', (2 * (List.length cs - List.length r) <= S fuel')%nat ->
                  parse_elements fuel' cs acc = Some (v, r).

Definition enough_members (fuel : nat) : Prop :=
  forall cs acc v r,
    parse_members fuel cs acc = Some (v, r) ->
    (List.length r + 2 <= List.length cs)%nat /\
    forall fuel', (2 * (List.length cs - List.length r) <= S fuel')%nat ->
                  parse_members fuel' cs acc = Some (v, r).

(* ------------------------------------------------------------------ *)
(** *** [JSON.stringify] *)

Local Open Scope string_scope.

Definition hex_digit (n : nat) : ascii :=
  if (n <? 10)%nat then ascii_of_nat (48 + n) else ascii_of_nat (87 + n).

(** One character inside a string literal, as [JSON.stringify] writes it. *)
Definition escape_char (c : ascii) : string :=
  match code c with
  | 34 => "\" ++ dq
  | 92 => "\\"
  | 8 => "\b"
  | 12 => "\f"
  | 10 => "\n"
  | 13 => "\r"
  | 9 => "\t"
  | n =>
      if (n <? 32)%nat then
        "\u00" ++ String (hex_digit (n / 16)) (String (hex_digit (n mod 16)) "")
      else String c ""
  end.

Fixpoint escape_string (s : string) : string :=
  match s with
  | EmptyString => ""
  | String c r => escape_char c ++ escape_string r
  end.

Definition quote (s : string) : string := dq ++ escape_string s ++ dq.

(** [JSON.stringify(v)] without indentation.  A number is written with the
    lexeme it was read from. *)
Fixpoint JSON_stringify (v : Json) : string :=
  match v with
  | JNull => "null"
  | JBool true => "true"
  | JBool false => "false"
  | JNumber lexeme => lexeme
  | JString s => quote s
  | JArray items =>
      "[" ++ String.concat "," (map JSON_stringify items) ++ "]"
  | JObject fields =>
      "{" ++ String.concat ","
               (map (fun kv : string * Json =>
                       match kv with
                       | (k, x) => quote k ++ ":" ++ JSON_stringify x
                       end) fields) ++ "}"
  end.

(** [String(n)] for an integer [n]. *)
Definition string_of_Z (n : Z) : string := NilZero.string_of_int (Z.to_int n).

(* ------------------------------------------------------------------ *)
(** *** Truthiness, [typeof], [trim] *)

(** A number lexeme denotes zero when its mantissa holds no digit but 0. *)
Fixpoint number_is_zero (lexeme : string) : bool :=
  match lexeme with
  | EmptyString => true
  | String c r =>
      if (code c =? 101)%nat || (code c =? 69)%nat then true
      else if is_digit19 c then false
      else number_is_zero r
  end.

(** [!!v] *)
Definition truthy (v : Json) : bool :=
  match v with
  | JNull => false
  | JBool b => b
  | JNumber lexeme => negb (number_is_zero lexeme)
  | JString s => negb (String.eqb s "")
  | JArray _ => true
  | JObject _ => true
  end.

(** [v.k]; reading a property of [null] throws, a value that is no object
    has no property of its own among those the pipeline reads. *)
Definition get_property (v : Json) (k : string) : Completion (option Json) :=
  match v with
  | JNull =>
      Abrupt (Error ("Cannot read properties of null (reading '" ++ k ++ "')"))
  | JObject fields => Normal (obj_get k fields)
  | _ => Normal None
  end.

(** The white space [String.prototype.trim] removes, among single bytes. *)
Definition is_js_ws (c : ascii) : bool :=
  match code c with
  | 9 | 10 | 11 | 12 | 13 | 32 => true
  | _ => false
  end.

Fixpoint trim_start (s : string) : string :=
  match s with
  | EmptyString => ""
  | String c r => if is_js_ws c then trim_start r else s
  end.

(** What is left of [s] once its trailing white space is removed. *)
Fixpoint trim_end (s : string) : string :=
  match s with
  | EmptyString => ""
  | String c r =>
      match trim_end r with
      | EmptyString => if is_js_ws c then "" else String c ""
      | r' => String c r'
      end
  end.

Definition trim (s : string) : string := trim_end (trim_start s).

(* ------------------------------------------------------------------ *)
(** *** The two regular expressions of [processImages] *)

(** [Some r] when [s] is [p ++ r]. *)
Fixpoint strip_prefix (p s : string) : option string :=
  match p with
  | EmptyString => Some s
  | String a p' =>
      match s with
      | EmptyString => None
      | String c s' => if Ascii.eqb a c then strip_prefix p' s' else None
      end
  end.

(** The leftmost occurrence of [p] in [s]: what precedes it and what
    follows it. *)
Fixpoint find_first (p s : string) : option (string * string) :=
  match strip_prefix p s with
  | Some after => Some ("", after)
  | None =>
      match s with
      | EmptyString => None
      | String c s' =>
          match find_first p s' with
          | Some (before, after) => Some (String c before, after)
          | None => None
          end
      end
  end.

Definition fence_open : string := "```json" ++ nl.
Definition fence_close : string := nl ++ "```".

(** A successful [match]: the whole match and the first group, if any. *)
Record RegExpMatch : Type := {
  whole : string;
  group1 : option string
}.

(** [text.match(/```json\n([\s\S]*?)\n```/)]: the leftmost opening fence
    and, the group being lazy, the first closing fence after it. *)
Definition match_fenced (text : string) : option RegExpMatch :=
  match find_first fence_open text with
  | Some (_, after_open) =>
      match find_first fence_close after_open with
      | Some (inner, _) =>
          Some {| whole := fence_open ++ inner ++ fence_close;
                  group1 := Some inner |}
      | None => None
      end
  | None => None
  end.

(** The suffix of [s] that starts at its first opening brace. *)
Fixpoint from_first_brace (s : string) : option string :=
  match s with
  | EmptyString => None
  | String c r => if (code c =? 123)%nat then Some s else from_first_brace r
  end.

(** The prefix of [s] that ends at its last closing brace. *)
Fixpoint through_last_brace (s : string) : option string :=
  match s with
  | EmptyString => None
  | String c r =>
      match through_last_brace r with
      | Some p => Some (String c p)
      | None => if (code c =? 125)%nat then Some (String c "") else None
      end
  end.

(** [text.match(/\{[\s\S]*\}/)]: from the first opening brace, greedily, to
    the last closing brace. *)
Definition match_braces (text : string) : option RegExpMatch :=
  match from_first_brace text with
  | Some s =>
      match through_last_brace s with
      | Some w => Some {| whole := w; group1 := None |}
      | None => None
      end
  | None => None
  end.

(** [a || b] on the results of [match]: [null] is falsy. *)
Definition match_or (a b : option RegExpMatch) : option RegExpMatch :=
  match a with
  | Some m => Some m
  | None => b
  end.

(** [jsonMatch ? jsonMatch[1] || jsonMatch[0] : responseText]; a group that
    is undefined or empty is falsy. *)
Definition json_candidate (responseText : string) : string :=
  match match_or (match_fenced responseText) (match_braces responseText) with
  | Some m =>
      match group1 m with
      | Some g => or_else g (whole m)
      | None => whole m
      end
  | None => responseText
  end.

(** The record [processImages] returns when the reply cannot be parsed. *)
Definition degraded_problem (responseText : string) : Json :=
  JObject [("title", JString "Extracted Problem");
           ("description", JString responseText);
           ("raw_response", JString responseText)].

(** [anthropicClient.ts], lines 207 to 223: the interpretation of the reply
    of the extraction call. *)
Definition processImages_parse (responseText : string) : Completion Json :=
  try_pure
    (JSON_parse (json_candidate responseText))
    (fun parseError => Normal (degraded_problem responseText)).

(* ================================================================== *)
(** ** The state of the application and what surrounds it *)
(* ================================================================== *)

(** A JavaScript number, as far as the credit counter needs it: an
    integer, or [NaN] (which is of type number, is not below one and is
    not above zero). *)
Inductive JsNumber : Type :=
| Num (n : Z)
| NaN.

(** What evaluating a global of the renderer can yield. *)
Inductive JsVal : Type :=
| VUndefined
| VNull
| VBool (b : bool)
| VNumber (x : JsNumber)
| VString (s : string).

Definition js_truthy (v : JsVal) : bool :=
  match v with
  | VUndefined => false
  | VNull => false
  | VBool b => b
  | VNumber (Num n) => negb (n =? 0)%Z
  | VNumber NaN => false
  | VString s => negb (String.eqb s "")
  end.

(** [x < 1], [x > 0] and [x - 1] on numbers. *)
Definition lt_one (x : JsNumber) : bool :=
  match x with
  | Num n => (n <? 1)%Z
  | NaN => false
  end.

Definition gt_zero (x : JsNumber) : bool :=
  match x with
  | Num n => (0 <? n)%Z
  | NaN => false
  end.

Definition minus_one (x : JsNumber) : JsNumber :=
  match x with
  | Num n => Num (n - 1)
  | NaN => NaN
  end.

(** View of the application: ["queue"], ["solutions"] or ["debug"]. *)
Inductive View : Type :=
| ViewQueue
| ViewSolutions
| ViewDebug.

Definition View_eqb (a b : View) : bool :=
  match a, b with
  | ViewQueue, ViewQueue => true
  | ViewSolutions, ViewSolutions => true
  | ViewDebug, ViewDebug => true
  | _, _ => false
  end.

(** The main [BrowserWindow]. *)
Record Window : Type := {
  isDestroyed : bool
}.

(** The table [PROCESSING_EVENTS], with the payload each event is sent
    with, and the [credits-updated] message of the credit handlers. *)
Inductive Event : Type :=
| UNAUTHORIZED
| NO_SCREENSHOTS
| OUT_OF_CREDITS
| INITIAL_START
| PROBLEM_EXTRACTED (data : Json)
| SOLUTION_SUCCESS (data : Json)
| INITIAL_SOLUTION_ERROR (error : string)
| RESET
| DEBUG_START
| DEBUG_SUCCESS (data : Json)
| DEBUG_ERROR (error : string)
| CREDITS_UPDATED (credits : JsNumber).

(** What a prompt is built from; the wording around it plays no part in
    the control flow. *)
Inductive Prompt : Type :=
| ExtractPrompt (imageDataList : list string) (language : string)
| SolvePrompt (problemInfo : Json) (language : string)
| DebugPrompt (problemInfo : Json) (existingSolution : string)
              (errorOrFailingTests : Json) (language : string).

(** The options object of the client's methods; the temperature is in
    hundredths. *)
Record Options : Type := {
  maxTokens : option Z;
  temperature : option Z;
  signal : option nat
}.

(** One [axios.post] to the messages endpoint. *)
Record Request : Type := {
  req_prompt : Prompt;
  req_max_tokens : Z;
  req_temperature : Z;
  req_signal : option nat
}.

Record ContentBlock : Type := {
  block_type : string;
  text : string
}.

(** How the endpoint answers a request that is not aborted. *)
Inductive AxiosReply : Type :=
| Fulfilled (content : list ContentBlock)
| RejectedWithResponse (status : Z) (data : Json) (msg : string)
| RejectedNoResponse (msg : string).

(** The points at which a pipeline is suspended while its abort controller
    is open, and at which the user may therefore cancel. *)
Inductive AwaitPoint : Type :=
| AtScreenshots       (* await Promise.all(...) over the queue *)
| AtLanguage          (* await this.getLanguage() in the two helpers *)
| AtExtract           (* the extraction request is pending *)
| AtSolutionLanguage  (* await this.getLanguage() in generateSolutionsHelper *)
| AtSolve             (* the solution request is pending *)
| AtDebug.            (* the debug request is pending *)

(** Everything the sources take from outside. *)
Record Env : Type := {
  (* process.env *)
  ANTHROPIC_API_KEY : option string;
  anthropic_key : option string;
  (* the renderer: window.__IS_INITIALIZED__ at each poll, whether reading
     window.__CREDITS__ fails, window.__LANGUAGE__ *)
  isInitialized : nat -> Completion JsVal;
  creditsFault : option JsError;
  LANGUAGE : Completion JsVal;
  (* ToNumber on strings *)
  StringToNumber : string -> JsNumber;
  (* the screenshot files *)
  getImagePreview : string -> Completion string;
  readFileSync : string -> Completion string;
  (* the endpoint: the reply to the n-th request *)
  reply : nat -> AxiosReply;
  (* whether cancelOngoingRequests is invoked at a point of suspension *)
  cancels : AwaitPoint -> bool
}.

(** The mutable state: the application state the helper reaches through
    [deps], the queues of the screenshot helper, the helper's own fields,
    the heap of abort controllers (one [aborted] flag each), the credit
    counter held by the renderer, and the two observations: what was sent
    to the renderer and what was posted to the endpoint, oldest first. *)
Record World : Type := {
  mainWindow : option Window;
  view : View;
  problemInfo : Json;
  hasDebugged : bool;
  screenshotQueue : list string;
  extraScreenshotQueue : list string;
  currentProcessingAbortController : option nat;
  currentExtraProcessingAbortController : option nat;
  controllers : list bool;
  CREDITS : JsVal;
  events : list Event;
  requests : list Request
}.

Definition set_view (v : View) (w : World) : World :=
  {| mainWindow := mainWindow w; view := v; problemInfo := problemInfo w;
     hasDebugged := hasDebugged w; screenshotQueue := screenshotQueue w;
     extraScreenshotQueue := extraScreenshotQueue w;
     currentProcessingAbortController := currentProcessingAbortController w;
     currentExtraProcessingAbortController := currentExtraProcessingAbortController w;
     controllers := controllers w; CREDITS := CREDITS w;
     events := events w; requests := requests w |}.

Definition set_problemInfo (p : Json) (w : World) : World :=
  {| mainWindow := mainWindow w; view := view w; problemInfo := p;
     hasDebugged := hasDebugged w; screenshotQueue := screenshotQueue w;
     extraScreenshotQueue := extraScreenshotQueue w;
     currentProcessingAbortController := currentProcessingAbortController w;
     currentExtraProcessingAbortController := currentExtraProcessingAbortController w;
     controllers := controllers w; CREDITS := CREDITS w;
     events := events w; requests := requests w |}.

Definition set_hasDebugged (b : bool) (w : World) : World :=
  {| mainWindow := mainWindow w; view := view w; problemInfo := problemInfo w;
     hasDebugged := b; screenshotQueue := screenshotQueue w;
     extraScreenshotQueue := extraScreenshotQueue w;
     currentProcessingAbortController := currentProcessingAbortController w;
     currentExtraProcessingAbortController := currentExtraProcessingAbortController w;
     controllers := controllers w; CREDITS := CREDITS w;
     events := events w; requests := requests w |}.

Definition set_extraScreenshotQueue (q : list string) (w : World) : World :=
  {| mainWindow := mainWindow w; view := view w; problemInfo := problemInfo w;
     hasDebugged := hasDebugged w; screenshotQueue := screenshotQueue w;
     extraScreenshotQueue := q;
     currentProcessingAbortController := currentProcessingAbortController w;
     currentExtraProcessingAbortController := currentExtraProcessingAbortController w;
     controllers := controllers w; CREDITS := CREDITS w;
     events := events w; requests := requests w |}.

Definition set_currentProcessingAbortController (c : option nat) (w : World) : World :=
  {| mainWindow := mainWindow w; view := view w; problemInfo := problemInfo w;
     hasDebugged := hasDebugged w; screenshotQueue := screenshotQueue w;
     extraScreenshotQueue := extraScreenshotQueue w;
     currentProcessingAbortController := c;
     currentExtraProcessingAbortController := currentExtraProcessingAbortController w;
     controllers := controllers w; CREDITS := CREDITS w;
     events := events w; requests := requests w |}.

Definition set_currentExtraProcessingAbortController (c : option nat) (w : World) : World :=
  {| mainWindow := mainWindow w; view := view w; problemInfo := problemInfo w;
     hasDebugged := hasDebugged w; screenshotQueue := screenshotQueue w;
     extraScreenshotQueue := extraScreenshotQueue w;
     currentProcessingAbortController := currentProcessingAbortController w;
     currentExtraProcessingAbortController := c;
     controllers := controllers w; CREDITS := CREDITS w;
     events := events w; requests := requests w |}.

Definition set_controllers (cs : list bool) (w : World) : World :=
  {| mainWindow := mainWindow w; view := view w; problemInfo := problemInfo w;
     hasDebugged := hasDebugged w; screenshotQueue := screenshotQueue w;
     extraScreenshotQueue := extraScreenshotQueue w;
     currentProcessingAbortController := currentProcessingAbortController w;
     currentExtraProcessingAbortController := currentExtraProcessingAbortController w;
     controllers := cs; CREDITS := CREDITS w;
     events := events w; requests := requests w |}.

Definition set_CREDITS (c : JsVal) (w : World) : World :=
  {| mainWindow := mainWindow w; view := view w; problemInfo := problemInfo w;
     hasDebugged := hasDebugged w; screenshotQueue := screenshotQueue w;
     extraScreenshotQueue := extraScreenshotQueue w;
     currentProcessingAbortController := currentProcessingAbortController w;
     currentExtraProcessingAbortController := currentExtraProcessingAbortController w;
     controllers := controllers w; CREDITS := c;
     events := events w; requests := requests w |}.

Definition set_events (es : list Event) (w : World) : World :=
  {| mainWindow := mainWindow w; view := view w; problemInfo := problemInfo w;
     hasDebugged := hasDebugged w; screenshotQueue := screenshotQueue w;
     extraScreenshotQueue := extraScreenshotQueue w;
     currentProcessingAbortController := currentProcessingAbortController w;
     currentExtraProcessingAbortController := currentExtraProcessingAbortController w;
     controllers := controllers w; CREDITS := CREDITS w;
     events := es; requests := requests w |}.

Definition set_requests (rs : list Request) (w : World) : World :=
  {| mainWindow := mainWindow w; view := view w; problemInfo := problemInfo w;
     hasDebugged := hasDebugged w; screenshotQueue := screenshotQueue w;
     extraScreenshotQueue := extraScreenshotQueue w;
     currentProcessingAbortController := currentProcessingAbortController w;
     currentExtraProcessingAbortController := currentExtraProcessingAbortController w;
     controllers := controllers w; CREDITS := CREDITS w;
     events := events w; requests := rs |}.

(* ------------------------------------------------------------------ *)
(** *** The monad of the orchestrator *)

(** A run ends with a value, with a thrown error, or does not end within
    the iterations it was given. *)
Inductive Outcome (A : Type) : Type :=
| Ret (a : A) (w : World)
| Throw (e : JsError) (w : World)
| OutOfFuel.
Arguments Ret {A} a w.
Arguments Throw {A} e w.
Arguments OutOfFuel {A}.

Definition M (A : Type) : Type := World -> Outcome A.

Definition ret {A : Type} (a : A) : M A := fun w => Ret a w.

Definition throw {A : Type} (e : JsError) : M A := fun w => Throw e w.

Definition bind {A B : Type} (m : M A) (k : A -> M B) : M B :=
  fun w =>
    match m w with
    | Ret a w' => k a w'
    | Throw e w' => Throw e w'
    | OutOfFuel => OutOfFuel
    end.

Declare Scope js_scope.
Delimit Scope js_scope with js.
Notation "x <- m ;; k" := (bind m (fun x => k))
  (at level 61, m at next level, right associativity) : js_scope.
Notation "m ;; k" := (bind m (fun _ => k))
  (at level 61, right associativity) : js_scope.
Local Open Scope js_scope.

(** [try { body } catch (error) { handler(error) }] *)
Definition try_catch {A : Type} (body : M A) (handler : JsError -> M A) : M A :=
  fun w =>
    match body w with
    | Ret a w' => Ret a w'
    | Throw e w' => handler e w'
    | OutOfFuel => OutOfFuel
    end.

(** [try { body } finally { final }] *)
Definition try_finally {A : Type} (body : M A) (final : M unit) : M A :=
  fun w =>
    match body w with
    | Ret a w' => (final ;; ret a) w'
    | Throw e w' => (final ;; throw e) w'
    | OutOfFuel => OutOfFuel
    end.

Definition lift {A : Type} (c : Completion A) : M A :=
  match c with
  | Normal a => ret a
  | Abrupt e => throw e
  end.

Definition gets {A : Type} (f : World -> A) : M A := fun w => Ret (f w) w.

Definition modify (f : World -> World) : M unit := fun w => Ret tt (f w).

(** [mainWindow.webContents.send(event, payload)] *)
Definition send (e : Event) : M unit :=
  modify (fun w => set_events (events w ++ [e])%list w).

(* ------------------------------------------------------------------ *)
(** *** Abort controllers *)

Fixpoint set_flag (i : nat) (l : list bool) : list bool :=
  match l, i with
  | [], _ => []
  | _ :: r, O => true :: r
  | b :: r, S j => b :: set_flag j r
  end.

(** [new AbortController()]: a new cell of the heap, not aborted. *)
Definition new_AbortController : M nat :=
  fun w => Ret (List.length (controllers w))
               (set_controllers (controllers w ++ [false])%list w).

(** [controller.abort()] *)
Definition abort (c : nat) : M unit :=
  modify (fun w => set_controllers (set_flag c (controllers w)) w).

(** [signal.aborted] *)
Definition aborted (c : nat) (w : World) : bool := nth c (controllers w) false.

Definition signal_aborted (s : option nat) (w : World) : bool :=
  match s with
  | Some c => aborted c w
  | None => false
  end.

(* ================================================================== *)
(** ** The program *)
(* ================================================================== *)

Section Program.

Variable env : Env.

(* ------------------------------------------------------------------ *)
(** *** Accessors of [deps] and of the screenshot helper *)

(** Modelled from the spec: [deps.getMainWindow], [deps.getView],
    [deps.setView], [deps.getProblemInfo], [deps.setProblemInfo] and
    [deps.setHasDebugged] are defined in [main.ts]; they read and write the
    single view state, problem record and flag the orchestrator owns. *)
Definition getMainWindow : M (option Window) := gets mainWindow.
Definition getView : M View := gets view.
Definition setView (v : View) : M unit := modify (set_view v).
Definition getProblemInfo : M Json := gets problemInfo.
Definition setProblemInfo (p : Json) : M unit := modify (set_problemInfo p).
Definition setHasDebugged (b : bool) : M unit := modify (set_hasDebugged b).

(** Modelled from the spec: [getScreenshotQueue], [getExtraScreenshotQueue]
    and [clearExtraScreenshotQueue] are defined in [ScreenshotHelper.ts];
    the two queues are ordered lists of paths and clearing the auxiliary
    queue empties it and nothing else. *)
Definition getScreenshotQueue : M (list string) := gets screenshotQueue.
Definition getExtraScreenshotQueue : M (list string) := gets extraScreenshotQueue.
Definition clearExtraScreenshotQueue : M unit := modify (set_extraScreenshotQueue []).

(* ------------------------------------------------------------------ *)
(** *** [ProcessingHelper.cancelOngoingRequests] *)

Definition cancelOngoingRequests : M unit :=
  c1 <- gets currentProcessingAbortController ;;
  wasCancelled1 <-
    match c1 with
    | Some c =>
        abort c ;;
        modify (set_currentProcessingAbortController None) ;;
        ret true
    | None => ret false
    end ;;
  c2 <- gets currentExtraProcessingAbortController ;;
  wasCancelled <-
    match c2 with
    | Some c =>
        abort c ;;
        modify (set_currentExtraProcessingAbortController None) ;;
        ret true
    | None => ret wasCancelled1
    end ;;
  setHasDebugged false ;;
  setProblemInfo JNull ;;
  mainWindow <- getMainWindow ;;
  match mainWindow with
  | Some mw =>
      if wasCancelled && negb (isDestroyed mw)
      then send NO_SCREENSHOTS
      else ret tt
  | None => ret tt
  end.

(** A point of suspension: the user's cancellation, if it comes there, runs
    before the pipeline goes on. *)
Definition suspend (p : AwaitPoint) : M unit :=
  if cancels env p then cancelOngoingRequests else ret tt.

(* ------------------------------------------------------------------ *)
(** *** [AnthropicClient] *)

Definition MAX_TOKENS : Z := 4096.

(** [loadApiKey]: the first of the two variables that is set and not empty. *)
Definition loadApiKey : option string :=
  match ANTHROPIC_API_KEY env with
  | Some (String c k) => Some (String c k)
  | _ =>
      match anthropic_key env with
      | Some (String c k) => Some (String c k)
      | _ => None
      end
  end.

Definition apiKey : option string := loadApiKey.

(** [!!this.apiKey] *)
Definition isConfigured : bool :=
  match apiKey with
  | Some k => negb (String.eqb k "")
  | None => false
  end.

(** The error of a request whose signal is aborted. *)
Definition CanceledError : JsError :=
  {| message := "canceled"; isCancel := true; response := None |}.

(** [axios.post(url, body, { headers, signal })]: rejected at once when the
    signal is already aborted, rejected when it is aborted while the
    request is pending, answered by the endpoint otherwise. *)
Definition axios_post (request : Request) (pending : AwaitPoint)
  : M (list ContentBlock) :=
  n <- gets (fun w => List.length (requests w)) ;;
  modify (fun w => set_requests (requests w ++ [request])%list w) ;;
  early <- gets (signal_aborted (req_signal request)) ;;
  if early then throw CanceledError
  else
    suspend pending ;;
    late <- gets (signal_aborted (req_signal request)) ;;
    if late then throw CanceledError
    else
      match reply env n with
      | Fulfilled content => ret content
      | RejectedWithResponse status data msg =>
          throw {| message := msg; isCancel := false;
                   response := Some (status, data) |}
      | RejectedNoResponse msg =>
          throw {| message := msg; isCancel := false; response := None |}
      end.

Definition or_default (o : option Z) (d : Z) : Z :=
  match o with
  | Some x => x
  | None => d
  end.

(** The error [generateResponse] throws for a failed request. *)
Definition generateResponse_error (error : JsError) : JsError :=
  if isCancel error then Error "Request was cancelled"
  else
    match response error with
    | Some (status, errorData) =>
        if (status =? 401)%Z then Error "Invalid API key"
        else if (status =? 429)%Z then Error "Rate limit exceeded"
        else Error ("API error (" ++ string_of_Z status ++ "): "
                      ++ JSON_stringify errorData)
    | None => error
    end.

Definition generateResponse (prompt : Prompt) (options : Options)
           (pending : AwaitPoint) : M string :=
  match apiKey with
  | None => throw (Error "Anthropic API key not configured")
  | Some _ =>
      try_catch
        (content <-
           axios_post
             {| req_prompt := prompt;
                req_max_tokens := or_default (maxTokens options) MAX_TOKENS;
                req_temperature := or_default (temperature options) 70;
                req_signal := signal options |}
             pending ;;
         match content with
         | [] => ret ""
         | _ :: _ =>
             ret (String.concat nl
                    (map text
                       (filter (fun item => String.eqb (block_type item) "text")
                               content)))
         end)
        (fun error => throw (generateResponse_error error))
  end.

Definition processImages (imageDataList : list string) (language : string)
           (options : Options) : M Json :=
  match apiKey with
  | None => throw (Error "Anthropic API key not configured")
  | Some _ =>
      match imageDataList with
      | [] => throw (Error "No images provided")
      | _ :: _ =>
          try_catch
            (responseText <-
               generateResponse (ExtractPrompt imageDataList language)
                                options AtExtract ;;
             lift (processImages_parse responseText))
            (fun error => throw error)
      end
  end.

Definition generateSolution (problemInfo : Json) (language : string)
           (options : Options) : M Json :=
  match apiKey with
  | None => throw (Error "Anthropic API key not configured")
  | Some _ =>
      if negb (truthy problemInfo)
      then throw (Error "No problem information provided")
      else
        try_catch
          (responseText <-
             generateResponse (SolvePrompt problemInfo language)
                              options AtSolve ;;
           ret (JObject [("solution", JString responseText);
                         ("language", JString language)]))
          (fun error => throw error)
  end.

Definition debugSolution (problemInfo : Json) (existingSolution : string)
           (errorOrFailingTests : Json) (language : string)
           (options : Options) : M Json :=
  match apiKey with
  | None => throw (Error "Anthropic API key not configured")
  | Some _ =>
      try_catch
        (responseText <-
           generateResponse
             (DebugPrompt problemInfo existingSolution errorOrFailingTests language)
             options AtDebug ;;
         ret (JObject [("debug_solution", JString responseText);
                       ("language", JString language)]))
        (fun error => throw error)
  end.

(* ------------------------------------------------------------------ *)
(** *** The renderer's globals *)

Definition maxAttempts : nat := 50.

(** The polling loop of [waitForInitialization], [remaining] polls being
    left and [attempts] made. *)
Fixpoint waitForInitialization_loop (remaining attempts : nat) : M unit :=
  match remaining with
  | O => throw (Error "App failed to initialize after 5 seconds")
  | S remaining' =>
      isInitialized <- lift (isInitialized env attempts) ;;
      if js_truthy isInitialized then ret tt
      else waitForInitialization_loop remaining' (S attempts)
  end.

Definition waitForInitialization : M unit :=
  waitForInitialization_loop maxAttempts 0.

(** [executeJavaScript("window.__CREDITS__")] *)
Definition read_CREDITS : M JsVal :=
  match creditsFault env with
  | Some e => throw e
  | None => gets CREDITS
  end.

Definition getCredits : M JsNumber :=
  mainWindow <- getMainWindow ;;
  match mainWindow with
  | None => ret (Num 0)
  | Some _ =>
      try_catch
        (waitForInitialization ;;
         credits <- read_CREDITS ;;
         match credits with
         | VNumber x => ret x
         | _ => ret (Num 0)
         end)
        (fun error => ret (Num 0))
  end.

Definition getLanguage : M string :=
  mainWindow <- getMainWindow ;;
  match mainWindow with
  | None => ret "python"
  | Some _ =>
      try_catch
        (waitForInitialization ;;
         language <- lift (LANGUAGE env) ;;
         match language with
         | VString s => ret s
         | _ => ret "python"
         end)
        (fun error => ret "python")
  end.

(* ------------------------------------------------------------------ *)
(** *** The [decrement-credits] handler of [ipcHandlers.ts] *)

Definition ToNumber (v : JsVal) : JsNumber :=
  match v with
  | VUndefined => NaN
  | VNull => Num 0
  | VBool true => Num 1
  | VBool false => Num 0
  | VNumber x => x
  | VString s => StringToNumber env s
  end.

Definition decrement_credits : M unit :=
  mainWindow <- getMainWindow ;;
  match mainWindow with
  | None => ret tt
  | Some _ =>
      try_catch
        (currentCredits <- read_CREDITS ;;
         if gt_zero (ToNumber currentCredits) then
           let newCredits := minus_one (ToNumber currentCredits) in
           modify (set_CREDITS (VNumber newCredits)) ;;
           send (CREDITS_UPDATED newCredits)
         else ret tt)
        (fun error => ret tt)
  end.

(** [executeJavaScript("window.api.decrementCredits()")]: the renderer
    invokes the handler. *)
Definition decrementCredits : M unit := decrement_credits.

(* ------------------------------------------------------------------ *)
(** *** [ProcessingHelper]: the helpers *)

(** [{ success: true, data }] or [{ success: false, error }] *)
Inductive HelperResult : Type :=
| Succeeded (data : Json)
| Failed (error : string).

Definition success (r : HelperResult) : bool :=
  match r with
  | Succeeded _ => true
  | Failed _ => false
  end.

(** How one iteration of a retry loop ends: by a [return], or by reaching
    the end of the body with the retry counter it leaves. *)
Inductive LoopStep : Type :=
| Return (r : HelperResult)
| Continue (retryCount : nat).

Record Screenshot : Type := {
  path : string;
  preview : string;
  data : string
}.

Definition MAX_RETRIES : nat := 0.

(** [while (retryCount <= MAX_RETRIES) { body }] followed by the [return]
    that comes after the loop. *)
Fixpoint while_retry (fuel : nat) (body : nat -> M LoopStep)
         (after : HelperResult) (retryCount : nat) : M HelperResult :=
  match fuel with
  | O => fun _ => OutOfFuel
  | S fuel' =>
      if (retryCount <=? MAX_RETRIES)%nat then
        step <- body retryCount ;;
        match step with
        | Return r => ret r
        | Continue retryCount' => while_retry fuel' body after retryCount'
        end
      else ret after
  end.

Definition not_configured : string :=
  "Anthropic API key not configured. Please check your .zshrc file or environment variables.".

Definition just_signal (s : nat) : Options :=
  {| maxTokens := None; temperature := None; signal := Some s |}.

Definition generateSolutionsHelper (signal : nat) : M HelperResult :=
  try_catch
    (problemInfo <- getProblemInfo ;;
     language <- getLanguage ;;
     suspend AtSolutionLanguage ;;
     if negb (truthy problemInfo) then throw (Error "No problem info available")
     else if negb isConfigured then ret (Failed not_configured)
     else
       solutionData <- generateSolution problemInfo language (just_signal signal) ;;
       ret (Succeeded solutionData))
    (fun error =>
       mainWindow <- getMainWindow ;;
       if isCancel error then ret (Failed "Solution generation was canceled.")
       else
         match mainWindow with
         | Some _ => send (INITIAL_SOLUTION_ERROR (message error))
         | None => ret tt
         end ;;
         ret (Failed (or_else (message error) "Failed to generate solution"))).

Definition processScreenshotsHelper_body (screenshots : list Screenshot)
           (signal : nat) (retryCount : nat) : M LoopStep :=
  try_catch
    (let imageDataList := map data screenshots in
     mainWindow <- getMainWindow ;;
     language <- getLanguage ;;
     suspend AtLanguage ;;
     try_catch
       (if negb isConfigured then ret (Return (Failed not_configured))
        else
          problemInfo <- processImages imageDataList language (just_signal signal) ;;
          setProblemInfo problemInfo ;;
          match mainWindow with
          | Some _ =>
              send (PROBLEM_EXTRACTED problemInfo) ;;
              solutionsResult <- generateSolutionsHelper signal ;;
              match solutionsResult with
              | Succeeded data =>
                  clearExtraScreenshotQueue ;;
                  send (SOLUTION_SUCCESS data) ;;
                  ret (Return (Succeeded data))
              | Failed error =>
                  throw (Error (or_else error "Failed to generate solutions"))
              end
          | None => ret (Continue retryCount)
          end)
       (fun error =>
          if isCancel error
          then ret (Return (Failed "Processing was canceled by the user."))
          else throw (Error (or_else (message error)
                                     "Server error. Please try again."))))
    (fun error =>
       if isCancel error || (MAX_RETRIES <=? retryCount)%nat
       then ret (Return (Failed (message error)))
       else ret (Continue (S retryCount))).

Definition processScreenshotsHelper (fuel : nat) (screenshots : list Screenshot)
           (signal : nat) : M HelperResult :=
  while_retry fuel
    (processScreenshotsHelper_body screenshots signal)
    (Failed "Failed to process after multiple attempts. Please try again.")
    0.

(** [v.k] on a value that is not [null]. *)
Definition property (v : Json) (k : string) : option Json :=
  match v with
  | JObject fields => obj_get k fields
  | _ => None
  end.

(** The solution to debug: [problemInfo.solution] when it is a string that
    is not blank, else [problemInfo.solution_data.solution] when it is a
    string that is not empty, else the empty string. *)
Definition existing_solution (problemInfo : Json) : string :=
  let from_solution_data :=
    match property problemInfo "solution_data" with
    | Some solution_data =>
        if truthy solution_data then
          match property solution_data "solution" with
          | Some (JString s) => s
          | _ => ""
          end
        else ""
    | None => ""
    end in
  match property problemInfo "solution" with
  | Some (JString s) =>
      if (0 <? String.length (trim s))%nat then s else from_solution_data
  | _ => from_solution_data
  end.

(** [typeof errorData === "string" ? errorData
      : errorData.description || JSON.stringify(errorData)] *)
Definition error_description (errorData : Json) : Completion Json :=
  match errorData with
  | JString s => Normal (JString s)
  | _ =>
      match get_property errorData "description" with
      | Abrupt e => Abrupt e
      | Normal (Some d) =>
          if truthy d then Normal d
          else Normal (JString (JSON_stringify errorData))
      | Normal None => Normal (JString (JSON_stringify errorData))
      end
  end.

(** [{ ...problemInfo, debug_solution: ..., debug_data: ... }]; only an
    object reaches this point. *)
Definition own_fields (v : Json) : list (string * Json) :=
  match v with
  | JObject fields => fields
  | _ => []
  end.

Definition processExtraScreenshotsHelper_body (screenshots : list Screenshot)
           (signal : nat) (retryCount : nat) : M LoopStep :=
  try_catch
    (let imageDataList := map data screenshots in
     mainWindow <- getMainWindow ;;
     language <- getLanguage ;;
     suspend AtLanguage ;;
     problemInfo <- getProblemInfo ;;
     if negb (truthy problemInfo) then throw (Error "No problem info available")
     else
       let existingSolution := existing_solution problemInfo in
       if String.eqb existingSolution ""
       then throw (Error "No existing solution found to debug")
       else
         try_catch
           (if negb isConfigured then ret (Return (Failed not_configured))
            else
              errorData <-
                processImages imageDataList language
                  {| maxTokens := Some 1000%Z; temperature := Some 20%Z;
                     signal := Some signal |} ;;
              errorDescription <- lift (error_description errorData) ;;
              debugResult <-
                debugSolution problemInfo existingSolution errorDescription
                              language (just_signal signal) ;;
              let updatedProblemInfo :=
                JObject
                  (obj_set "debug_data" debugResult
                     (obj_set "debug_solution"
                        (match property debugResult "debug_solution" with
                         | Some v => v
                         | None => JNull
                         end)
                        (own_fields problemInfo))) in
              setProblemInfo updatedProblemInfo ;;
              match mainWindow with
              | Some _ => send (DEBUG_SUCCESS debugResult)
              | None => ret tt
              end ;;
              ret (Return (Succeeded debugResult)))
           (fun error =>
              if isCancel error
              then ret (Return (Failed "Debug processing was canceled by the user."))
              else throw (Error (or_else (message error)
                                         "Debug error. Please try again."))))
    (fun error =>
       if isCancel error || (MAX_RETRIES <=? retryCount)%nat
       then
         mainWindow <- getMainWindow ;;
         match mainWindow with
         | Some _ => send (DEBUG_ERROR (message error))
         | None => ret tt
         end ;;
         ret (Return (Failed (message error)))
       else ret (Continue (S retryCount))).

Definition processExtraScreenshotsHelper (fuel : nat)
           (screenshots : list Screenshot) (signal : nat) : M HelperResult :=
  while_retry fuel
    (processExtraScreenshotsHelper_body screenshots signal)
    (Failed "Failed to debug after multiple attempts. Please try again.")
    0.

(* ------------------------------------------------------------------ *)
(** *** [ProcessingHelper]: the two entry points *)

(** [Promise.all(queue.map(async (path) => ({ path, preview: await
    getImagePreview(path), data: readFileSync(path).toString("base64") })))],
    the paths taken in order. *)
Fixpoint load_screenshots (paths : list string) : M (list Screenshot) :=
  match paths with
  | [] => ret []
  | p :: rest =>
      pv <- lift (getImagePreview env p) ;;
      d <- lift (readFileSync env p) ;;
      shots <- load_screenshots rest ;;
      ret ({| path := p; preview := pv; data := d |} :: shots)
  end.

Definition processScreenshots (fuel : nat) : M unit :=
  mainWindow <- getMainWindow ;;
  match mainWindow with
  | None => ret tt
  | Some _ =>
      credits <- getCredits ;;
      if lt_one credits then send OUT_OF_CREDITS
      else
        view <- getView ;;
        if View_eqb view ViewQueue then
          send INITIAL_START ;;
          screenshotQueue <- getScreenshotQueue ;;
          match screenshotQueue with
          | [] => send NO_SCREENSHOTS
          | _ :: _ =>
              try_catch
                (controller <- new_AbortController ;;
                 modify (set_currentProcessingAbortController (Some controller)) ;;
                 suspend AtScreenshots ;;
                 screenshots <- load_screenshots screenshotQueue ;;
                 result <- processScreenshotsHelper fuel screenshots controller ;;
                 match result with                 (* if (!result.success) *)
                 | Failed error => send (INITIAL_SOLUTION_ERROR error)
                 | Succeeded _ => ret tt
                 end ;;
                 match result with                 (* if (result.success) *)
                 | Succeeded _ =>
                     setView ViewSolutions ;;
                     mainWindow' <- getMainWindow ;;
                     match mainWindow' with
                     | Some _ => decrementCredits
                     | None => ret tt
                     end
                 | Failed _ => ret tt
                 end)
                (fun error =>
                   send (INITIAL_SOLUTION_ERROR
                           (or_else (message error) "Unknown error")))
          end
        else
          extraScreenshotQueue <- getExtraScreenshotQueue ;;
          match extraScreenshotQueue with
          | [] => send NO_SCREENSHOTS
          | _ :: _ =>
              send DEBUG_START ;;
              controller <- new_AbortController ;;
              modify (set_currentExtraProcessingAbortController (Some controller)) ;;
              try_finally
                (try_catch
                   (suspend AtScreenshots ;;
                    primary <- getScreenshotQueue ;;
                    screenshots <- load_screenshots (primary ++ extraScreenshotQueue)%list ;;
                    result <- processExtraScreenshotsHelper fuel screenshots controller ;;
                    match result with
                    | Succeeded data =>
                        setHasDebugged true ;;
                        send (DEBUG_SUCCESS data)
                    | Failed error => send (DEBUG_ERROR error)
                    end)
                   (fun error =>
                      if isCancel error
                      then send (DEBUG_ERROR "Extra processing was canceled by the user.")
                      else send (DEBUG_ERROR (message error))))
                (modify (set_currentExtraProcessingAbortController None))
          end
  end.

Definition processExtraScreenshots (fuel : nat) : M unit :=
  mainWindow <- getMainWindow ;;
  match mainWindow with
  | None => ret tt
  | Some _ =>
      credits <- getCredits ;;
      if lt_one credits then send OUT_OF_CREDITS
      else
        send DEBUG_START ;;
        view <- getView ;;
        if negb (View_eqb view ViewSolutions) then ret tt
        else
          extraScreenshotQueue <- getExtraScreenshotQueue ;;
          match extraScreenshotQueue with
          | [] => send NO_SCREENSHOTS
          | _ :: _ =>
              try_catch
                (controller <- new_AbortController ;;
                 modify (set_currentExtraProcessingAbortController (Some controller)) ;;
                 suspend AtScreenshots ;;
                 screenshots <- load_screenshots extraScreenshotQueue ;;
                 result <- processExtraScreenshotsHelper fuel screenshots controller ;;
                 match result with                 (* if (!result.success) *)
                 | Failed error => send (DEBUG_ERROR error)
                 | Succeeded _ => ret tt
                 end ;;
                 match result with                 (* if (result.success) *)
                 | Succeeded _ =>
                     setView ViewDebug ;;
                     setHasDebugged true ;;
                     decrementCredits
                 | Failed _ => ret tt
                 end)
                (fun error =>
                   send (DEBUG_ERROR (or_else (message error) "Unknown error")))
          end
  end.

End Program.

(* ================================================================== *)
(** ** The rest of the main process, and the preload script *)
(* ================================================================== *)

Section Handlers.

Variable env : Env.

(* ------------------------------------------------------------------ *)
(** *** [ProcessingHelper.getAuthToken] *)

(** [AUTH_TOKEN] is what evaluating [window.__AUTH_TOKEN__] yields; the
    result is the token, or [null]. *)
Definition getAuthToken (AUTH_TOKEN : Completion JsVal) : M JsVal :=
  mainWindow <- getMainWindow ;;
  match mainWindow with
  | None => ret VNull
  | Some _ =>
      try_catch
        (waitForInitialization env ;;
         token <- lift AUTH_TOKEN ;;
         if negb (js_truthy token) then ret VNull else ret token)
        (fun error => ret VNull)
  end.

(* ------------------------------------------------------------------ *)
(** *** The other handlers of [ipcHandlers.ts] *)

(** The [set-initial-credits] handler; the assignment to
    [window.__CREDITS__] is evaluated like the one of [decrement-credits]. *)
Definition set_initial_credits (credits : JsNumber) : M unit :=
  mainWindow <- getMainWindow ;;
  match mainWindow with
  | None => ret tt
  | Some _ =>
      try_catch
        (modify (set_CREDITS (VNumber credits)) ;;
         send (CREDITS_UPDATED credits))
        (fun error => throw error)
  end.

(** [{ success: true, previews }] or [{ success: false, error }] *)
Inductive PreviewsResult : Type :=
| Previews (previews : list (string * string))
| PreviewsFailed (error : string).

(** [Promise.all(queue.map(async (path) => ({ path, preview: await
    deps.getImagePreview(path) })))] *)
Fixpoint load_previews (queue : list string) : M (list (string * string)) :=
  match queue with
  | [] => ret []
  | p :: rest =>
      pv <- lift (getImagePreview env p) ;;
      previews <- load_previews rest ;;
      ret ((p, pv) :: previews)
  end.

(** The [get-screenshots] handler; [deps.getView] and the two queues are
    the accessors above, and [deps.getImagePreview] is the oracle of the
    screenshot files. *)
Definition get_screenshots : M PreviewsResult :=
  try_catch
    (currentView <- getView ;;
     if View_eqb currentView ViewQueue then
       queue <- getScreenshotQueue ;;
       previews <- load_previews queue ;;
       ret (Previews previews)
     else
       queue <- getExtraScreenshotQueue ;;
       previews <- load_previews queue ;;
       ret (Previews previews))
    (fun error => ret (PreviewsFailed "Failed to get screenshots")).

(** The [process-screenshots] and [process-extra-screenshots] handlers;
    [processingHelper] tells whether [deps.processingHelper] is set. *)
Definition process_screenshots (processingHelper : bool) (fuel : nat) : M unit :=
  if processingHelper then processScreenshots env fuel else ret tt.

Definition process_extra_screenshots (processingHelper : bool) (fuel : nat)
  : M Json :=
  (if processingHelper then processExtraScreenshots env fuel else ret tt) ;;
  ret (JObject [("success", JBool true)]).

End Handlers.

(* ------------------------------------------------------------------ *)
(** *** The preload script: channels and subscriptions *)

(** The channel of each entry of [PROCESSING_EVENTS], and the channel of
    the message of the credit handlers. *)
Definition channel (e : Event) : string :=
  match e with
  | UNAUTHORIZED => "procesing-unauthorized"
  | NO_SCREENSHOTS => "processing-no-screenshots"
  | OUT_OF_CREDITS => "out-of-credits"
  | INITIAL_START => "initial-start"
  | PROBLEM_EXTRACTED _ => "problem-extracted"
  | SOLUTION_SUCCESS _ => "solution-success"
  | INITIAL_SOLUTION_ERROR _ => "solution-error"
  | RESET => "reset"
  | DEBUG_START => "debug-start"
  | DEBUG_SUCCESS _ => "debug-success"
  | DEBUG_ERROR _ => "debug-error"
  | CREDITS_UPDATED _ => "credits-updated"
  end.

(** What [webContents.send] passes along with the channel. *)
Inductive Argument : Type :=
| ArgJson (data : Json)
| ArgString (error : string)
| ArgNumber (credits : JsNumber).

Definition argument (e : Event) : option Argument :=
  match e with
  | PROBLEM_EXTRACTED data => Some (ArgJson data)
  | SOLUTION_SUCCESS data => Some (ArgJson data)
  | DEBUG_SUCCESS data => Some (ArgJson data)
  | INITIAL_SOLUTION_ERROR error => Some (ArgString error)
  | DEBUG_ERROR error => Some (ArgString error)
  | CREDITS_UPDATED credits => Some (ArgNumber credits)
  | _ => None
  end.

(** The subscription functions of [electronAPI]. *)
Inductive ApiListener : Type :=
| onScreenshotTaken
| onResetView
| onSolutionStart
| onDebugStart
| onSolutionError
| onDebugError
| onDebugSuccess
| onProcessingNoScreenshots
| onProblemExtracted
| onSolutionSuccess
| onUnauthorized
| onOutOfCredits
| onUpdateAvailable
| onUpdateDownloaded
| onCreditsUpdated.

(** The channel each of them gives to [ipcRenderer.on]. *)
Definition listens_on (f : ApiListener) : string :=
  match f with
  | onScreenshotTaken => "screenshot-taken"
  | onResetView => "reset-view"
  | onSolutionStart => "initial-start"
  | onDebugStart => "debug-start"
  | onSolutionError => "solution-error"
  | onDebugError => "debug-error"
  | onDebugSuccess => "debug-success"
  | onProcessingNoScreenshots => "processing-no-screenshots"
  | onProblemExtracted => "problem-extracted"
  | onSolutionSuccess => "solution-success"
  | onUnauthorized => "procesing-unauthorized"
  | onOutOfCredits => "out-of-credits"
  | onUpdateAvailable => "update-available"
  | onUpdateDownloaded => "update-downloaded"
  | onCreditsUpdated => "credits-updated"
  end.

(** The channel the function it returns gives to
    [ipcRenderer.removeListener]. *)
Definition removes_from (f : ApiListener) : string :=
  match f with
  | onScreenshotTaken => "screenshot-taken"
  | onResetView => "reset-view"
  | onSolutionStart => "initial-start"
  | onDebugStart => "debug-start"
  | onSolutionError => "solution-error"
  | onDebugError => "debug-error"
  | onDebugSuccess => "debug-success"
  | onProcessingNoScreenshots => "processing-no-screenshots"
  | onProblemExtracted => "problem-extracted"
  | onSolutionSuccess => "solution-success"
  | onUnauthorized => "procesing-unauthorized"
  | onOutOfCredits => "out-of-credits"
  | onUpdateAvailable => "update-available"
  | onUpdateDownloaded => "update-downloaded"
  | onCreditsUpdated => "credits-updated"
  end.

(** Whether its subscription is [(_, data) => callback(data)] rather than
    [() => callback()]. *)
Definition passes_argument (f : ApiListener) : bool :=
  match f with
  | onScreenshotTaken | onSolutionError | onDebugError | onDebugSuccess
  | onProblemExtracted | onSolutionSuccess | onUpdateAvailable
  | onUpdateDownloaded | onCreditsUpdated => true
  | _ => false
  end.

(** A listener of [ipcRenderer]: its channel, the subscription closure
    (every closure has an identity of its own), the callback that closure
    calls, and whether it passes the argument on. *)
Record Listener : Type := {
  on_channel : string;
  subscription : nat;
  callback : nat;
  with_argument : bool
}.

(** [ipcRenderer] as an event emitter: its listeners, oldest first, and
    the number of closures created so far. *)
Record IpcRenderer : Type := {
  listeners : list Listener;
  closures : nat
}.

Definition is_listener (ch : string) (s : nat) (l : Listener) : bool :=
  String.eqb (on_channel l) ch && Nat.eqb (subscription l) s.

(** [removeListener] removes one instance of the listener, the one that
    was added last. *)
Fixpoint remove_last (ch : string) (s : nat) (ls : list Listener) : list Listener :=
  match ls with
  | [] => []
  | l :: rest =>
      if existsb (is_listener ch s) rest then l :: remove_last ch s rest
      else if is_listener ch s l then rest
      else l :: rest
  end.

Definition ipcRenderer_on (l : Listener) (r : IpcRenderer) : IpcRenderer :=
  {| listeners := (listeners r ++ [l])%list; closures := closures r |}.

Definition ipcRenderer_removeListener (ch : string) (s : nat) (r : IpcRenderer)
  : IpcRenderer :=
  {| listeners := remove_last ch s (listeners r); closures := closures r |}.

(** [electronAPI.onX(callback)]: the function it returns, and the emitter
    with the new listener. *)
Definition subscribe (f : ApiListener) (cb : nat) (r : IpcRenderer)
  : (IpcRenderer -> IpcRenderer) * IpcRenderer :=
  let s := closures r in
  let r1 := {| listeners := listeners r; closures := S (closures r) |} in
  (ipcRenderer_removeListener (removes_from f) s,
   ipcRenderer_on {| on_channel := listens_on f; subscription := s;
                     callback := cb; with_argument := passes_argument f |} r1).

(** The calls a message on [ch] leads to, in order: the callback, and what
    it is called with. *)
Definition receive (ch : string) (arg : option Argument) (r : IpcRenderer)
  : list (nat * option Argument) :=
  map (fun l => (callback l, if with_argument l then arg else None))
      (filter (fun l => String.eqb (on_channel l) ch) (listeners r)).

(* ================================================================== *)
(** ** Observations on a run *)
(* ================================================================== *)

(** What a run that leads from [w] to [w'] sent to the renderer, and what
    it posted to the endpoint. *)
Definition emitted (w w' : World) : list Event :=
  skipn (List.length (events w)) (events w').

Definition posted (w w' : World) : list Request :=
  skipn (List.length (requests w)) (requests w').

Definition is_SOLUTION_SUCCESS (e : Event) : bool :=
  match e with SOLUTION_SUCCESS _ => true | _ => false end.

Definition is_INITIAL_SOLUTION_ERROR (e : Event) : bool :=
  match e with INITIAL_SOLUTION_ERROR _ => true | _ => false end.

Definition is_DEBUG_SUCCESS (e : Event) : bool :=
  match e with DEBUG_SUCCESS _ => true | _ => false end.

Definition is_DEBUG_ERROR (e : Event) : bool :=
  match e with DEBUG_ERROR _ => true | _ => false end.

Definition is_CREDITS_UPDATED (e : Event) : bool :=
  match e with CREDITS_UPDATED _ => true | _ => false end.

Definition count (p : Event -> bool) (l : list Event) : nat :=
  List.length (filter p l).

(** The main window exists and is not destroyed. *)
Definition live (w : World) : Prop :=
  mainWindow w = Some {| isDestroyed := false |}.

(** The state a run ends in. *)
Definition final {A : Type} (o : Outcome A) (default : World) : World :=
  match o with
  | Ret _ w => w
  | Throw _ w => w
  | OutOfFuel => default
  end.

Definition out_of_credits (w : World) : World :=
  set_events (events w ++ [OUT_OF_CREDITS]) w.

(* ------------------------------------------------------------------ *)
(** *** What a run that passed its guards leaves behind *)

(** A solve run that started either succeeded: one [SOLUTION_SUCCESS], no
    error event, the view is ["solutions"], the auxiliary queue is empty,
    the counter went down by one, two requests were posted and the run's
    controller is not aborted; or it failed: no [SOLUTION_SUCCESS], one or
    two error events, view, counter and auxiliary queue as before, and if
    the run's controller is aborted, [NO_SCREENSHOTS] was sent and the
    problem record is cleared. *)
Definition solve_summary (w : World) (c : JsNumber) (w' : World) : Prop :=
  let tr := emitted w w' in
  let ctrl := List.length (controllers w) in
  mainWindow w' = mainWindow w /\ screenshotQueue w' = screenshotQueue w /\
  ((count is_SOLUTION_SUCCESS tr = 1 /\ count is_INITIAL_SOLUTION_ERROR tr = 0 /\
    view w' = ViewSolutions /\ extraScreenshotQueue w' = [] /\
    CREDITS w' = VNumber (minus_one c) /\
    count is_CREDITS_UPDATED tr = (if gt_zero c then 1 else 0) /\
    aborted ctrl w' = false /\ List.length (posted w w') = 2)
   \/
   (count is_SOLUTION_SUCCESS tr = 0 /\
    (count is_INITIAL_SOLUTION_ERROR tr = 1 \/ count is_INITIAL_SOLUTION_ERROR tr = 2) /\
    view w' = view w /\ CREDITS w' = CREDITS w /\
    extraScreenshotQueue w' = extraScreenshotQueue w /\
    count is_CREDITS_UPDATED tr = 0 /\
    (aborted ctrl w' = true -> In NO_SCREENSHOTS tr /\ problemInfo w' = JNull))).

(** The same for a debug run started by [processExtraScreenshots]. *)
Definition debug_summary (w : World) (c : JsNumber) (w' : World) : Prop :=
  let tr := emitted w w' in
  let ctrl := List.length (controllers w) in
  mainWindow w' = mainWindow w /\ screenshotQueue w' = screenshotQueue w /\
  extraScreenshotQueue w' = extraScreenshotQueue w /\
  ((count is_DEBUG_SUCCESS tr = 1 /\ count is_DEBUG_ERROR tr = 0 /\
    view w' = ViewDebug /\ hasDebugged w' = true /\
    CREDITS w' = VNumber (minus_one c) /\
    count is_CREDITS_UPDATED tr = (if gt_zero c then 1 else 0) /\
    aborted ctrl w' = false /\ List.length (posted w w') = 2 /\
    existing_solution (problemInfo w) <> "")
   \/
   (count is_DEBUG_SUCCESS tr = 0 /\
    (count is_DEBUG_ERROR tr = 1 \/ count is_DEBUG_ERROR tr = 2) /\
    view w' = view w /\ CREDITS w' = CREDITS w /\
    count is_CREDITS_UPDATED tr = 0 /\
    (existing_solution (problemInfo w) = "" -> requests w' = requests w) /\
    (aborted ctrl w' = true -> In NO_SCREENSHOTS tr /\ problemInfo w' = JNull))).

(** And for a debug run started by [processScreenshots] in a view that is
    not ["queue"]: view and counter are as before whatever the result. *)
Definition debug_in_place_summary (w w' : World) : Prop :=
  let tr := emitted w w' in
  let ctrl := List.length (controllers w) in
  mainWindow w' = mainWindow w /\ screenshotQueue w' = screenshotQueue w /\
  extraScreenshotQueue w' = extraScreenshotQueue w /\
  view w' = view w /\ CREDITS w' = CREDITS w /\
  count is_CREDITS_UPDATED tr = 0 /\
  ((count is_DEBUG_SUCCESS tr = 2 /\ count is_DEBUG_ERROR tr = 0 /\
    hasDebugged w' = true /\ aborted ctrl w' = false /\
    List.length (posted w w') = 2)
   \/
   (count is_DEBUG_SUCCESS tr = 0 /\
    (count is_DEBUG_ERROR tr = 1 \/ count is_DEBUG_ERROR tr = 2) /\
    (existing_solution (problemInfo w) = "" -> requests w' = requests w) /\
    (aborted ctrl w' = true -> In NO_SCREENSHOTS tr /\ problemInfo w' = JNull))).

(* ------------------------------------------------------------------ *)
(** *** Runs that start, and the credit counter that cannot be read *)

(** A run that passed its guards. *)
Definition solve_starts (env : Env) (w : World) : Prop :=
  view w = ViewQueue /\ screenshotQueue w <> [] /\
  exists c, getCredits env w = Ret c w /\ lt_one c = false.

Definition debug_starts (env : Env) (w : World) : Prop :=
  view w = ViewSolutions /\ extraScreenshotQueue w <> [] /\
  exists c, getCredits env w = Ret c w /\ lt_one c = false.

(** The credit counter cannot be read: there is no main window, or waiting
    for the renderer or evaluating the counter fails, or what is stored is
    not of type number. *)
Definition credits_unreadable (env : Env) (w : World) : Prop :=
  mainWindow w = None \/
  (exists e w', bind (waitForInitialization env) (fun _ => read_CREDITS env) w
                = Throw e w') \/
  (forall x, CREDITS w <> VNumber x).

(* ------------------------------------------------------------------ *)
(** *** Errors of the gateway *)

(** The axios error of a request the server answered with a failure. *)
Definition http_failure (status : Z) (body : Json) (msg : string) : JsError :=
  {| message := msg; isCancel := false; response := Some (status, body) |}.

Definition mentions (part s : string) : bool :=
  match find_first part s with
  | Some _ => true
  | None => false
  end.

(** An error carries the status and the body when it holds them as its
    response, or when its message spells both out. *)
Definition carries_diagnostics (e : JsError) (status : Z) (body : Json) : Prop :=
  response e = Some (status, body) \/
  (mentions (string_of_Z status) (message e) = true /\
   mentions (JSON_stringify body) (message e) = true).

(** The request [generateResponse] posts. *)
Definition request_of (prompt : Prompt) (options : Options) : Request :=
  {| req_prompt := prompt;
     req_max_tokens := or_default (maxTokens options) MAX_TOKENS;
     req_temperature := or_default (temperature options) 70;
     req_signal := signal options |}.

(* ------------------------------------------------------------------ *)
(** *** The record of a run *)

(** What [load_screenshots] returns for [paths]: one screenshot per path,
    in order, with the preview and the content the oracles give. *)
Definition loaded (env : Env) (paths : list string) (shots : list Screenshot) : Prop :=
  Forall2 (fun p s => path s = p /\ getImagePreview env p = Normal (preview s)
                      /\ readFileSync env p = Normal (data s)) paths shots.

(** The events of the solve pipeline and of the debug pipeline. *)
Definition solve_event (e : Event) : bool :=
  match e with
  | INITIAL_START | PROBLEM_EXTRACTED _ | SOLUTION_SUCCESS _
  | INITIAL_SOLUTION_ERROR _ | NO_SCREENSHOTS | CREDITS_UPDATED _ => true
  | _ => false
  end.

Definition debug_event (e : Event) : bool :=
  match e with
  | DEBUG_START | DEBUG_SUCCESS _ | DEBUG_ERROR _
  | NO_SCREENSHOTS | CREDITS_UPDATED _ => true
  | _ => false
  end.

Definition is_OUT_OF_CREDITS (e : Event) : bool :=
  match e with OUT_OF_CREDITS => true | _ => false end.

Definition is_PROBLEM_EXTRACTED (e : Event) : bool :=
  match e with PROBLEM_EXTRACTED _ => true | _ => false end.

Definition solve_run_event (e : Event) : bool :=
  solve_event e || is_OUT_OF_CREDITS e.

Definition debug_run_event (e : Event) : bool :=
  debug_event e || is_OUT_OF_CREDITS e.

(** The request carries the signal of the controller [ctrl]. *)
Definition carries (ctrl : nat) (r : Request) : bool :=
  match req_signal r with
  | Some c => Nat.eqb c ctrl
  | None => false
  end.

(** The [credits-updated] message of a decrement that starts from [c]. *)
Definition credit_event (c : JsNumber) : list Event :=
  if gt_zero c then [CREDITS_UPDATED (minus_one c)] else [].

Definition extract_request (images : list string) (language : string)
           (max_tokens temperature : Z) (ctrl : nat) : Request :=
  {| req_prompt := ExtractPrompt images language;
     req_max_tokens := max_tokens; req_temperature := temperature;
     req_signal := Some ctrl |}.

(** [{ ...problemInfo, debug_solution: s, debug_data: debugResult }] *)
Definition with_debug (problemInfo debugResult : Json) (s : string) : Json :=
  JObject (obj_set "debug_data" debugResult
             (obj_set "debug_solution" (JString s) (own_fields problemInfo))).

(** More of what a solve run that passed its guards leaves behind: the
    first event, the kinds of events, the signal and the number of the
    requests, the controller fields, the flag and the problem record; and
    for a run that succeeded the exact events and requests. *)
Definition solve_record (env : Env) (w : World) (c : JsNumber) (w' : World) : Prop :=
  let tr := emitted w w' in
  let ctrl := List.length (controllers w) in
  let rq := posted w w' in
  (exists rest, tr = INITIAL_START :: rest) /\
  forallb solve_event tr = true /\
  forallb (carries ctrl) rq = true /\
  (List.length rq <= 2)%nat /\
  currentProcessingAbortController w'
    = (if aborted ctrl w' then None else Some ctrl) /\
  currentExtraProcessingAbortController w'
    = (if aborted ctrl w' then None else currentExtraProcessingAbortController w) /\
  hasDebugged w' = (if aborted ctrl w' then false else hasDebugged w) /\
  (aborted ctrl w' = false -> controllers w' = (controllers w ++ [false])%list) /\
  (aborted ctrl w' = false ->
   problemInfo w' = problemInfo w \/ In (PROBLEM_EXTRACTED (problemInfo w')) tr) /\
  (count is_SOLUTION_SUCCESS tr = 0%nat \/
   exists shots language language' s,
     loaded env (screenshotQueue w) shots /\
     tr = ([INITIAL_START; PROBLEM_EXTRACTED (problemInfo w');
            SOLUTION_SUCCESS (JObject [("solution", JString s);
                                       ("language", JString language')])]
           ++ credit_event c)%list /\
     rq = [ extract_request (map data shots) language MAX_TOKENS 70 ctrl;
            {| req_prompt := SolvePrompt (problemInfo w') language';
               req_max_tokens := MAX_TOKENS; req_temperature := 70;
               req_signal := Some ctrl |} ] /\
     truthy (problemInfo w') = true).

(** The same for a debug run started by [processExtraScreenshots]. *)
Definition debug_record (env : Env) (w : World) (c : JsNumber) (w' : World) : Prop :=
  let tr := emitted w w' in
  let ctrl := List.length (controllers w) in
  let rq := posted w w' in
  (exists rest, tr = DEBUG_START :: rest) /\
  forallb debug_event tr = true /\
  forallb (carries ctrl) rq = true /\
  (List.length rq <= 2)%nat /\
  currentExtraProcessingAbortController w'
    = (if aborted ctrl w' then None else Some ctrl) /\
  currentProcessingAbortController w'
    = (if aborted ctrl w' then None else currentProcessingAbortController w) /\
  (aborted ctrl w' = false -> controllers w' = (controllers w ++ [false])%list) /\
  ((count is_DEBUG_SUCCESS tr = 0%nat /\
    hasDebugged w' = (if aborted ctrl w' then false else hasDebugged w) /\
    problemInfo w' = (if aborted ctrl w' then JNull else problemInfo w))
   \/
   exists shots language s description,
     let debugResult := JObject [("debug_solution", JString s);
                                 ("language", JString language)] in
     loaded env (extraScreenshotQueue w) shots /\
     tr = ([DEBUG_START; DEBUG_SUCCESS debugResult] ++ credit_event c)%list /\
     rq = [ extract_request (map data shots) language 1000 20 ctrl;
            {| req_prompt := DebugPrompt (problemInfo w)
                               (existing_solution (problemInfo w)) description language;
               req_max_tokens := MAX_TOKENS; req_temperature := 70;
               req_signal := Some ctrl |} ] /\
     problemInfo w' = with_debug (problemInfo w) debugResult s).

(** And for a debug run started by [processScreenshots]. *)
Definition debug_in_place_record (env : Env) (w w' : World) : Prop :=
  let tr := emitted w w' in
  let ctrl := List.length (controllers w) in
  let rq := posted w w' in
  (exists rest, tr = DEBUG_START :: rest) /\
  forallb debug_event tr = true /\
  forallb (carries ctrl) rq = true /\
  (List.length rq <= 2)%nat /\
  currentExtraProcessingAbortController w' = None /\
  currentProcessingAbortController w'
    = (if aborted ctrl w' then None else currentProcessingAbortController w) /\
  (aborted ctrl w' = false -> controllers w' = (controllers w ++ [false])%list) /\
  ((count is_DEBUG_SUCCESS tr = 0%nat /\
    hasDebugged w' = (if aborted ctrl w' then false else hasDebugged w) /\
    problemInfo w' = (if aborted ctrl w' then JNull else problemInfo w))
   \/
   exists shots language s description,
     let debugResult := JObject [("debug_solution", JString s);
                                 ("language", JString language)] in
     loaded env (screenshotQueue w ++ extraScreenshotQueue w)%list shots /\
     tr = [DEBUG_START; DEBUG_SUCCESS debugResult; DEBUG_SUCCESS debugResult] /\
     rq = [ extract_request (map data shots) language 1000 20 ctrl;
            {| req_prompt := DebugPrompt (problemInfo w)
                               (existing_solution (problemInfo w)) description language;
               req_max_tokens := MAX_TOKENS; req_temperature := 70;
               req_signal := Some ctrl |} ] /\
     problemInfo w' = with_debug (problemInfo w) debugResult s).

(** A debug run by [processScreenshots] that passed its guards. *)
Definition debug_in_place_starts (env : Env) (w : World) : Prop :=
  view w <> ViewQueue /\ extraScreenshotQueue w <> [] /\
  exists c, getCredits env w = Ret c w /\ lt_one c = false.

(** What a solve run leaves behind when it fails before its first
    request. *)
Definition stopped_record (w w' : World) : Prop :=
  let tr := emitted w w' in
  posted w w' = [] /\
  count is_INITIAL_SOLUTION_ERROR tr = 1%nat /\
  count is_PROBLEM_EXTRACTED tr = 0%nat /\
  count is_SOLUTION_SUCCESS tr = 0%nat /\
  view w' = view w /\ CREDITS w' = CREDITS w.

Definition unconfigured_record (env : Env) (w w' : World) : Prop :=
  stopped_record w w' /\
  ((exists shots, loaded env (screenshotQueue w) shots) ->
   In (INITIAL_SOLUTION_ERROR not_configured) (emitted w w')).

(* ------------------------------------------------------------------ *)
(** *** The renderer, the handlers and the replies *)

(** The first [k] polls of the renderer are answered, and with a falsy
    value. *)
Definition falsy_before (env : Env) (k : nat) : Prop :=
  forall i, (i < k)%nat ->
            exists v, isInitialized env i = Normal v /\ js_truthy v = false.

(** There is a main window and the renderer answers the polls. *)
Definition ready (env : Env) (w : World) : Prop :=
  mainWindow w <> None /\ waitForInitialization env w = Ret tt w.



(** The queue the current view shows. *)
Definition shown_queue (w : World) : list string :=
  if View_eqb (view w) ViewQueue then screenshotQueue w else extraScreenshotQueue w.

(** Whether the character [c] occurs in [s]. *)
Fixpoint occurs (c : ascii) (s : string) : bool :=
  match s with
  | EmptyString => false
  | String x r => Ascii.eqb c x || occurs c r
  end.

Definition backtick : ascii := "096"%char.
Definition open_brace : ascii := "{"%char.
Definition close_brace : ascii := "}"%char.

(** No listener stems from a closure that is yet to be created. *)
Definition well_formed (r : IpcRenderer) : Prop :=
  Forall (fun l => (subscription l < closures r)%nat) (listeners r).

(* ================================================================== *)
(** ** Concrete situations *)
(* ================================================================== *)

Definition text_block (s : string) : ContentBlock :=
  {| block_type := "text"; text := s |}.

(** The reply ["```json\n{\"title\":\"Two Sum\"}\n```"]. *)
Definition fenced_two_sum : string :=
  "```json" ++ nl ++ "{" ++ dq ++ "title" ++ dq ++ ":" ++ dq ++ "Two Sum" ++ dq
    ++ "}" ++ nl ++ "```".

(** A configured client, an initialised renderer, readable screenshots, and
    the given replies and cancellations. *)
Definition surroundings (replies : nat -> AxiosReply)
           (cancel : AwaitPoint -> bool) : Env :=
  {| ANTHROPIC_API_KEY := Some "sk-ant-key";
     anthropic_key := None;
     isInitialized := fun _ => Normal (VBool true);
     creditsFault := None;
     LANGUAGE := Normal (VString "python");
     StringToNumber := fun _ => NaN;
     getImagePreview := fun _ => Normal "preview";
     readFileSync := fun _ => Normal "aGVsbG8=";
     reply := replies;
     cancels := cancel |}.

Definition good_replies (n : nat) : AxiosReply :=
  match n with
  | O => Fulfilled [text_block fenced_two_sum]
  | S _ => Fulfilled [text_block "def two_sum(nums, target): ..."]
  end.

Definition never (p : AwaitPoint) : bool := false.

(** Every request is answered and nobody cancels. *)
Definition calm : Env := surroundings good_replies never.


(** The second request is answered with status 500. *)
Definition overloaded : Env :=
  surroundings
    (fun n => match n with
              | O => Fulfilled [text_block fenced_two_sum]
              | S _ => RejectedWithResponse 500 (JString "overloaded")
                         "Request failed with status code 500"
              end)
    never.

(** The first request is answered with status 500. *)
Definition refusing : Env :=
  surroundings
    (fun _ => RejectedWithResponse 500 (JString "overloaded")
                "Request failed with status code 500")
    never.

(** One screenshot taken, three credits, nothing processed yet. *)
Definition fresh : World :=
  {| mainWindow := Some {| isDestroyed := false |};
     view := ViewQueue;
     problemInfo := JNull;
     hasDebugged := false;
     screenshotQueue := ["problem.png"];
     extraScreenshotQueue := [];
     currentProcessingAbortController := None;
     currentExtraProcessingAbortController := None;
     controllers := [];
     CREDITS := VNumber (Num 3);
     events := [];
     requests := [] |}.

(** A problem with a solution on display, and a screenshot of the error. *)
Definition solved : World :=
  {| mainWindow := Some {| isDestroyed := false |};
     view := ViewSolutions;
     problemInfo := JObject [("title", JString "Two Sum");
                             ("solution", JString "def two_sum(nums, target): ...")];
     hasDebugged := false;
     screenshotQueue := ["problem.png"];
     extraScreenshotQueue := ["error.png"];
     currentProcessingAbortController := None;
     currentExtraProcessingAbortController := None;
     controllers := [];
     CREDITS := VNumber (Num 3);
     events := [];
     requests := [] |}.

Definition without_window (w : World) : World :=
  {| mainWindow := None; view := view w; problemInfo := problemInfo w;
     hasDebugged := hasDebugged w; screenshotQueue := screenshotQueue w;
     extraScreenshotQueue := extraScreenshotQueue w;
     currentProcessingAbortController := currentProcessingAbortController w;
     currentExtraProcessingAbortController := currentExtraProcessingAbortController w;
     controllers := controllers w; CREDITS := CREDITS w;
     events := events w; requests := requests w |}.

(** No key is set: the first variable is missing and the second is empty. *)
Definition keyless : Env :=
  {| ANTHROPIC_API_KEY := None;
     anthropic_key := Some "";
     isInitialized := fun _ => Normal (VBool true);
     creditsFault := None;
     LANGUAGE := Normal (VString "python");
     StringToNumber := fun _ => NaN;
     getImagePreview := fun _ => Normal "preview";
     readFileSync := fun _ => Normal "aGVsbG8=";
     reply := good_replies;
     cancels := never |}.

(** The screenshot files cannot be read. *)
Definition unreadable : Env :=
  {| ANTHROPIC_API_KEY := Some "sk-ant-key";
     anthropic_key := None;
     isInitialized := fun _ => Normal (VBool true);
     creditsFault := None;
     LANGUAGE := Normal (VString "python");
     StringToNumber := fun _ => NaN;
     getImagePreview := fun _ => Normal "preview";
     readFileSync := fun _ => Abrupt (Error "ENOENT: no such file or directory");
     reply := good_replies;
     cancels := never |}.

(** The counter of the renderer is [NaN]. *)
Definition uncounted : World := set_CREDITS (VNumber NaN) fresh.

(** An emitter without listeners. *)
Definition quiet : IpcRenderer := {| listeners := []; closures := 0 |}.

(* ================================================================== *)
(** ** The statements of the specification that fail *)
(* ================================================================== *)


(** C6 as stated, first half: with no abort controller open,
    [cancelOngoingRequests] changes nothing. *)
Definition cancel_is_noop (w : World) : Prop :=
  currentProcessingAbortController w = None ->
  currentExtraProcessingAbortController w = None ->
  cancelOngoingRequests w = Ret tt w.


(** C9 as stated: the error thrown for any failed request carries the
    upstream status and body. *)
Definition gateway_errors_carry_diagnostics : Prop :=
  forall status body msg,
    carries_diagnostics (generateResponse_error (http_failure status body msg))
                        status body.

(** C10 as stated: whenever the counter cannot be read, a run sends
    [OUT_OF_CREDITS] and posts nothing. *)
Definition unreadable_credits_reported (env : Env) (fuel : nat) (w : World) : Prop :=
  credits_unreadable env w ->
  exists w', processScreenshots env fuel w = Ret tt w' /\
             In OUT_OF_CREDITS (emitted w w') /\ posted w w' = [].

(* ================================================================== *)
(** ** Basic facts *)
(* ================================================================== *)

(* ------------------------------------------------------------------ *)
(** *** The interpreter on small inputs *)

Example JSON_parse_object :
  JSON_parse ("{" ++ dq ++ "a" ++ dq ++ ": [1, -2.5e3, true, null, " ++ dq ++ "x\ny"
                ++ dq ++ "]} ")
  = Normal (JObject [("a", JArray [JNumber "1"; JNumber "-2.5e3"; JBool true; JNull;
                                   JString ("x" ++ nl ++ "y")])]).
Proof. reflexivity. Qed.

Example JSON_parse_last_key_wins :
  JSON_parse ("{" ++ dq ++ "a" ++ dq ++ ":1," ++ dq ++ "b" ++ dq ++ ":2,"
                ++ dq ++ "a" ++ dq ++ ":3}")
  = Normal (JObject [("a", JNumber "3"); ("b", JNumber "2")]).
Proof. reflexivity. Qed.

Example JSON_parse_rejects :
  JSON_parse "[1,]" = Abrupt SyntaxError /\
  JSON_parse "01" = Abrupt SyntaxError /\
  JSON_parse "{} {}" = Abrupt SyntaxError /\
  JSON_parse "" = Abrupt SyntaxError.
Proof. repeat split; reflexivity. Qed.

Example JSON_stringify_nested :
  JSON_stringify (JObject [("a", JArray [JNumber "1"; JString ("x" ++ nl ++ dq)]);
                           ("b", JNull)])
  = "{" ++ dq ++ "a" ++ dq ++ ":[1," ++ dq ++ "x\n\" ++ dq ++ dq ++ "],"
      ++ dq ++ "b" ++ dq ++ ":null}".
Proof. reflexivity. Qed.

Example json_candidate_fenced :
  json_candidate ("Here it is:" ++ nl ++ "```json" ++ nl ++ "{}" ++ nl ++ "```" ++ nl
                    ++ "and {more}")
  = "{}".
Proof. reflexivity. Qed.

Example json_candidate_braces :
  json_candidate "The answer is {1} or {2}, I think" = "{1} or {2}".
Proof. reflexivity. Qed.

Example json_candidate_plain : json_candidate "null" = "null".
Proof. reflexivity. Qed.

Example processImages_parse_null : processImages_parse "null" = Normal JNull.
Proof. reflexivity. Qed.

Example trim_both_ends : trim ("  a b " ++ nl) = "a b".
Proof. reflexivity. Qed.

Example existing_solution_blank :
  existing_solution (JObject [("solution", JString "   ")]) = "" /\
  existing_solution
    (JObject [("solution", JString "   ");
              ("solution_data", JObject [("solution", JString "x = 1")])]) = "x = 1" /\
  existing_solution (JObject [("solution", JString " x ")]) = " x " /\
  existing_solution (JString "solution") = "".
Proof. repeat split; reflexivity. Qed.

(* ------------------------------------------------------------------ *)
(** *** The fuel of [JSON_parse] is enough *)

Lemma skip_ws_length (cs : list ascii) :
  (List.length (skip_ws cs) <= List.length cs)%nat.
Proof.
  induction cs as [|c r IH]; cbn; [lia|].
  destruct (is_json_ws c); cbn; lia.
Qed.

Lemma starts_with_length (lit cs r : list ascii) :
  starts_with lit cs = Some r -> (List.length r <= List.length cs)%nat.
Proof.
  unfold starts_with. revert cs.
  induction lit as [|a l IH]; intros cs H.
  - injection H as ->. lia.
  - destruct cs as [|c cs]; [discriminate|].
    destruct (Ascii.eqb a c); [|discriminate].
    apply IH in H. cbn. lia.
Qed.

Lemma take_digits_length (cs ds r : list ascii) :
  take_digits cs = (ds, r) -> (List.length r <= List.length cs)%nat.
Proof.
  revert ds r. induction cs as [|c cs IH]; intros ds r H; cbn in H.
  - injection H as _ <-. cbn. lia.
  - destruct (is_digit c).
    + destruct (take_digits cs) as [ds' r'] eqn:E. injection H as _ <-.
      specialize (IH _ _ eq_refl). cbn. lia.
    + injection H as _ <-. lia.
Qed.

Lemma lex_string_length (n : nat) :
  forall cs acc s r,
    (List.length cs <= n)%nat ->
    lex_string cs acc = Some (s, r) -> (List.length r < List.length cs)%nat.
Proof.
  induction n as [|n IH]; intros cs acc s r Hn H.
  - destruct cs; [discriminate | cbn in Hn; lia].
  - destruct cs as [|c cs]; [discriminate|]. cbn in Hn. cbn [lex_string] in H.
    destruct (code c =? 34)%nat.
    { injection H as _ <-. cbn. lia. }
    destruct (code c =? 92)%nat.
    + destruct cs as [|e cs]; [discriminate|]. cbn in Hn.
      destruct (code e =? 117)%nat.
      * destruct cs as [|h1 [|h2 [|h3 [|h4 cs]]]]; try discriminate.
        destruct (hex_value h1), (hex_value h2), (hex_value h3), (hex_value h4);
          try discriminate.
        apply IH in H; cbn in *; lia.
      * destruct (escape_of e); [|discriminate].
        apply IH in H; cbn in *; lia.
    + destruct (code c <? 32)%nat; [discriminate|].
      apply IH in H; cbn in *; lia.
Qed.

Lemma lex_number_length (cs lx r : list ascii) :
  lex_number cs = Some (lx, r) -> (List.length r < List.length cs)%nat.
Proof.
  unfold lex_number. intros H.
  assert (forall (c : ascii) (r0 r1 : list ascii) ds,
             take_digits r0 = (ds, r1) ->
             (List.length r1 < List.length (c :: r0))%nat) as Htd.
  { intros c r0 r1 ds E. apply take_digits_length in E. cbn. lia. }
  destruct cs as [|c0 cs0]; [discriminate|].
  set (start := if (code c0 =? 45)%nat then ([c0], cs0) else ([], c0 :: cs0)) in H.
  assert (List.length (snd start) <= List.length (c0 :: cs0))%nat as Hstart.
  { subst start. destruct (code c0 =? 45)%nat; cbn; lia. }
  destruct start as [sign r0]. cbn [snd] in Hstart.
  destruct r0 as [|c r1]; [discriminate|].
  assert (exists ip r2, (List.length r2 < List.length (c :: r1))%nat /\
            (if (code c =? 48)%nat then Some ([c], r1)
             else if is_digit19 c
                  then let (ds, r2) := take_digits r1 in Some (c :: ds, r2)
                  else None) = Some (ip, r2) \/
          (if (code c =? 48)%nat then Some ([c], r1)
             else if is_digit19 c
                  then let (ds, r2) := take_digits r1 in Some (c :: ds, r2)
                  else None) = None) as Hint.
  { destruct (code c =? 48)%nat.
    - exists [c], r1. left. split; [cbn; lia | reflexivity].
    - destruct (is_digit19 c).
      + destruct (take_digits r1) as [ds r2] eqn:E.
        exists (c :: ds), r2. left. split; [eapply Htd; eauto | reflexivity].
      + exists [], []. right. reflexivity. }
  destruct Hint as [ip [r2 [[Hlen Hip]|Hip]]]; rewrite Hip in H; [|discriminate].
  clear Hip.
  (* fraction *)
  match type of H with
  | match ?X with _ => _ end = _ => destruct X as [[fp r3]|] eqn:Hfp; [|discriminate]
  end.
  assert (List.length r3 <= List.length r2)%nat as Hr3.
  { destruct r2 as [|c2 r2']; [injection Hfp as _ <-; lia|].
    destruct (code c2 =? 46)%nat.
    - destruct (take_digits r2') as [ds r4] eqn:E. destruct ds; [discriminate|].
      injection Hfp as _ <-. apply take_digits_length in E. cbn. lia.
    - injection Hfp as _ <-. lia. }
  match type of H with
  | match ?X with _ => _ end = _ => destruct X as [[ep r4]|] eqn:Hep; [|discriminate]
  end.
  injection H as _ <-.
  assert (List.length r4 <= List.length r3)%nat as Hr4.
  { destruct r3 as [|c3 r3']; [injection Hep as _ <-; lia|].
    destruct ((code c3 =? 101)%nat || (code c3 =? 69)%nat).
    - destruct r3' as [|s0 r5].
      + cbn in Hep. discriminate.
      + destruct ((code s0 =? 43)%nat || (code s0 =? 45)%nat).
        * destruct (take_digits r5) as [ds r6] eqn:E. destruct ds; [discriminate|].
          injection Hep as _ <-. apply take_digits_length in E. cbn. lia.
        * destruct (take_digits (s0 :: r5)) as [ds r6] eqn:E.
          destruct ds; [discriminate|].
          injection Hep as _ <-. apply take_digits_length in E. cbn in *. lia.
    - injection Hep as _ <-. lia. }
  lia.
Qed.

Ltac ws_length cs H :=
  let L := fresh "L" in
  pose proof (skip_ws_length cs) as L; rewrite H in L; cbn [List.length] in L.

Lemma parse_fuel (fuel : nat) :
  enough_value fuel /\ enough_elements fuel /\ enough_members fuel.
Proof.
  induction fuel as [|fuel [IHv [IHe IHm]]].
  { repeat split; intros *; discriminate. }
  split; [|split].
  - (* values *)
    intros cs v r H. cbn [parse_value] in H.
    destruct (skip_ws cs) as [|c r0] eqn:Hws; [discriminate|]. ws_length cs Hws.
    destruct (code c =? 123)%nat eqn:E1.
    { destruct (skip_ws r0) as [|c1 r1] eqn:Hws1; [discriminate|]. ws_length r0 Hws1.
      destruct (code c1 =? 125)%nat eqn:E2.
      - injection H as <- <-. split; [lia|].
        intros [|f'] Hb; [lia|]. cbn [parse_value]. rewrite Hws, E1, Hws1, E2.
        reflexivity.
      - apply IHm in H as [Hlen Hen]. cbn [List.length] in Hlen. split; [lia|].
        intros [|f'] Hb; [lia|]. cbn [parse_value]. rewrite Hws, E1, Hws1, E2.
        apply Hen. cbn [List.length]. lia. }
    destruct (code c =? 91)%nat eqn:E3.
    { destruct (skip_ws r0) as [|c1 r1] eqn:Hws1; [discriminate|]. ws_length r0 Hws1.
      destruct (code c1 =? 93)%nat eqn:E2.
      - injection H as <- <-. split; [lia|].
        intros [|f'] Hb; [lia|]. cbn [parse_value]. rewrite Hws, E1, E3, Hws1, E2.
        reflexivity.
      - apply IHe in H as [Hlen Hen]. cbn [List.length] in Hlen. split; [lia|].
        intros [|f'] Hb; [lia|]. cbn [parse_value]. rewrite Hws, E1, E3, Hws1, E2.
        apply Hen. cbn [List.length]. lia. }
    assert (forall fuel' : nat,
               (2 * (List.length cs - List.length r) <= S fuel')%nat ->
               (List.length r < List.length cs)%nat ->
               parse_value fuel' cs = parse_value (S fuel) cs) as Hscalar.
    { intros [|f'] Hb Hlen; [lia|]. cbn [parse_value]. rewrite Hws, E1, E3.
      reflexivity. }
    assert (List.length r < List.length cs)%nat as Hlen.
    { destruct (code c =? 34)%nat.
      { destruct (lex_string r0 []) as [[s r1]|] eqn:El; [|discriminate].
        injection H as _ <-.
        apply (lex_string_length (List.length r0)) in El; lia. }
      destruct (code c =? 116)%nat.
      { destruct (starts_with _ r0) as [r1|] eqn:El; [|discriminate].
        injection H as _ <-. apply starts_with_length in El. lia. }
      destruct (code c =? 102)%nat.
      { destruct (starts_with _ r0) as [r1|] eqn:El; [|discriminate].
        injection H as _ <-. apply starts_with_length in El. lia. }
      destruct (code c =? 110)%nat.
      { destruct (starts_with _ r0) as [r1|] eqn:El; [|discriminate].
        injection H as _ <-. apply starts_with_length in El. lia. }
      destruct (lex_number (c :: r0)) as [[lx r1]|] eqn:El; [|discriminate].
      injection H as _ <-. apply lex_number_length in El. cbn [List.length] in El. lia. }
    split; [exact Hlen|].
    intros fuel' Hb. rewrite (Hscalar fuel' Hb Hlen). cbn [parse_value].
    rewrite Hws, E1, E3. exact H.
  - (* elements *)
    intros cs acc v r H. cbn [parse_elements] in H.
    destruct (parse_value fuel cs) as [[v1 r1]|] eqn:Ev; [|discriminate].
    destruct (IHv _ _ _ Ev) as [Hlen1 Hen1].
    destruct (skip_ws r1) as [|c r2] eqn:Hws; [discriminate|]. ws_length r1 Hws.
    destruct (code c =? 44)%nat eqn:E1.
    + destruct (IHe _ _ _ _ H) as [Hlen2 Hen2]. split; [lia|].
      intros [|f'] Hb; [lia|]. cbn [parse_elements].
      rewrite (Hen1 f') by lia. rewrite Hws, E1. apply Hen2. lia.
    + destruct (code c =? 93)%nat eqn:E2; [|discriminate].
      injection H as <- <-. split; [lia|].
      intros [|f'] Hb; [lia|]. cbn [parse_elements].
      rewrite (Hen1 f') by lia. rewrite Hws, E1, E2. reflexivity.
  - (* members *)
    intros cs acc v r H. cbn [parse_members] in H.
    destruct (skip_ws cs) as [|q r0] eqn:Hws0; [discriminate|]. ws_length cs Hws0.
    destruct (code q =? 34)%nat eqn:Eq; [|discriminate].
    destruct (lex_string r0 []) as [[k r1]|] eqn:Ek; [|discriminate].
    pose proof (lex_string_length (List.length r0) _ _ _ _ (le_n _) Ek) as Hk.
    destruct (skip_ws r1) as [|colon r2] eqn:Hws1; [discriminate|]. ws_length r1 Hws1.
    destruct (code colon =? 58)%nat eqn:Ec; [|discriminate].
    destruct (parse_value fuel r2) as [[v1 r3]|] eqn:Ev; [|discriminate].
    destruct (IHv _ _ _ Ev) as [Hlen1 Hen1].
    destruct (skip_ws r3) as [|c r4] eqn:Hws; [discriminate|]. ws_length r3 Hws.
    destruct (code c =? 44)%nat eqn:E1.
    + destruct (IHm _ _ _ _ H) as [Hlen2 Hen2]. split; [lia|].
      intros [|f'] Hb; [lia|]. cbn [parse_members].
      rewrite Hws0, Eq, Ek, Hws1, Ec. rewrite (Hen1 f') by lia.
      rewrite Hws, E1. apply Hen2. lia.
    + destruct (code c =? 125)%nat eqn:E2; [|discriminate].
      injection H as <- <-. split; [lia|].
      intros [|f'] Hb; [lia|]. cbn [parse_members].
      rewrite Hws0, Eq, Ek, Hws1, Ec. rewrite (Hen1 f') by lia.
      rewrite Hws, E1, E2. reflexivity.
Qed.

(** No amount of fuel finds a value that [JSON_parse] misses. *)
Theorem JSON_parse_fuel (text : string) (fuel : nat) (v : Json) (r : list ascii) :
  parse_value fuel (list_ascii_of_string text) = Some (v, r) ->
  parse_value (2 * String.length text + 2) (list_ascii_of_string text) = Some (v, r).
Proof.
  intros H. destruct (parse_fuel fuel) as [Hv _].
  destruct (Hv _ _ _ H) as [Hlen Hen]. apply Hen.
  assert (List.length (list_ascii_of_string text) = String.length text) as Hl.
  { clear. induction text as [|c t IH]; cbn; congruence. }
  rewrite Hl in *. lia.
Qed.

(* ------------------------------------------------------------------ *)
(** *** Lists and abort flags *)

Lemma skipn_length_app {A : Type} (l x : list A) :
  skipn (List.length l) (l ++ x)%list = x.
Proof. induction l; cbn; auto. Qed.

Lemma nth_fresh (cs : list bool) :
  nth (List.length cs) (cs ++ [false])%list false = false.
Proof. rewrite app_nth2, Nat.sub_diag; auto. Qed.

Lemma nth_set_flag (i j : nat) (l : list bool) :
  nth i (set_flag j l) false
  = (Nat.eqb i j && Nat.ltb j (List.length l)) || nth i l false.
Proof.
  revert i j. induction l as [|b l IH]; intros i j.
  - destruct j; cbn; rewrite andb_false_r; reflexivity.
  - destruct j as [|j], i as [|i]; cbn; auto;
      try (destruct b; reflexivity); rewrite IH; reflexivity.
Qed.

Lemma ltb_length_app (cs : list bool) (b : bool) :
  Nat.ltb (List.length cs) (List.length (cs ++ [b])%list) = true.
Proof. rewrite length_app. cbn. apply Nat.ltb_lt. lia. Qed.

Lemma length_set_flag (j : nat) (l : list bool) :
  List.length (set_flag j l) = List.length l.
Proof. revert j. induction l as [|b l IH]; intros [|j]; cbn; auto. Qed.

Lemma nth_beyond (cs : list bool) : nth (List.length cs) cs false = false.
Proof. apply nth_overflow. lia. Qed.

Lemma count_In (p : Event -> bool) (e : Event) (l : list Event) :
  In e l -> p e = true -> (1 <= count p l)%nat.
Proof.
  unfold count. induction l as [|x l IH]; cbn; [tauto|].
  intros [->|H] Hp.
  - rewrite Hp. cbn. lia.
  - specialize (IH H Hp). destruct (p x); cbn; lia.
Qed.

Lemma count_zero_not_In (p : Event -> bool) (e : Event) (l : list Event) :
  count p l = 0%nat -> p e = true -> ~ In e l.
Proof. intros H0 Hp Hin. pose proof (count_In p e l Hin Hp). lia. Qed.

Lemma emitted_set_events (w : World) (l : list Event) :
  emitted w (set_events (events w ++ l) w) = l.
Proof. unfold emitted. cbn. apply skipn_length_app. Qed.

Section BasicRuns.

Variable env : Env.

(** Polling the renderer leaves the state as it is. *)
Lemma waitForInitialization_loop_run (remaining attempts : nat) (w : World) :
  waitForInitialization_loop env remaining attempts w = Ret tt w \/
  exists e, waitForInitialization_loop env remaining attempts w = Throw e w.
Proof.
  revert attempts. induction remaining as [|r IH]; intros attempts; cbn.
  - right. eexists. reflexivity.
  - unfold bind, lift. destruct (isInitialized env attempts) as [v|e]; cbn.
    + destruct (js_truthy v); [left; reflexivity | apply IH].
    + right. eexists. reflexivity.
Qed.

(** [getCredits] never throws and changes nothing; it returns the stored
    number, or 0. *)
Lemma getCredits_run (w : World) :
  exists c, getCredits env w = Ret c w /\
            (c = Num 0 \/ (creditsFault env = None /\ CREDITS w = VNumber c)).
Proof.
  unfold getCredits, getMainWindow, gets, bind, try_catch, waitForInitialization.
  destruct (mainWindow w); [|eauto].
  destruct (waitForInitialization_loop_run maxAttempts 0 w) as [H|[e H]]; rewrite H.
  - unfold read_CREDITS. destruct (creditsFault env); cbn; [eauto|].
    destruct (CREDITS w); cbn; eauto.
  - cbn. eauto.
Qed.

(** [getLanguage] never throws and changes nothing. *)
Lemma getLanguage_run (w : World) : exists l, getLanguage env w = Ret l w.
Proof.
  unfold getLanguage, getMainWindow, gets, bind, try_catch, waitForInitialization.
  destruct (mainWindow w); [|eauto].
  destruct (waitForInitialization_loop_run maxAttempts 0 w) as [H|[e H]]; rewrite H.
  - unfold lift. destruct (LANGUAGE env) as [[]|]; cbn; eauto.
  - cbn. eauto.
Qed.

(** Reading the screenshots changes nothing. *)
Lemma load_screenshots_run (paths : list string) (w : World) :
  (exists shots, load_screenshots env paths w = Ret shots w) \/
  (exists e, load_screenshots env paths w = Throw e w).
Proof.
  induction paths as [|p ps IH]; cbn.
  - left. eexists. reflexivity.
  - unfold bind, lift.
    destruct (getImagePreview env p); cbn; [|right; eauto].
    destruct (readFileSync env p); cbn; [|right; eauto].
    destruct IH as [[shots H]|[e H]]; rewrite H; cbn; eauto.
Qed.

End BasicRuns.

(** The interpretation of a reply always yields a value. *)
Lemma processImages_parse_total (s : string) :
  exists v, processImages_parse s = Normal v.
Proof.
  unfold processImages_parse, try_pure.
  destruct (JSON_parse (json_candidate s)); eauto.
Qed.

Lemma getCredits_unreadable (env : Env) (w : World) :
  credits_unreadable env w -> getCredits env w = Ret (Num 0) w.
Proof.
  intros H.
  unfold getCredits, getMainWindow, gets, bind, try_catch.
  destruct (mainWindow w) as [mw|] eqn:Hmw; [|reflexivity].
  destruct H as [H|[[e [w' H]]|H]]; [congruence| |].
  - unfold bind in H.
    destruct (waitForInitialization_loop_run env maxAttempts 0 w) as [Hw|[e' Hw]];
      unfold waitForInitialization in *; rewrite Hw in *; [|reflexivity].
    unfold read_CREDITS in *. destruct (creditsFault env); [reflexivity|].
    unfold gets in H. discriminate H.
  - destruct (waitForInitialization_loop_run env maxAttempts 0 w) as [Hw|[e' Hw]];
      unfold waitForInitialization; rewrite Hw; [|reflexivity].
    unfold read_CREDITS. destruct (creditsFault env); [reflexivity|].
    unfold gets. destruct (CREDITS w) eqn:Hc; try reflexivity.
    exfalso. exact (H x eq_refl).
Qed.

(* ================================================================== *)
(** ** Symbolic execution of a run *)
(* ================================================================== *)

(** Unfolds the program and the accessors of the state, and nothing of
    what the run depends on from outside. *)
Ltac norm :=
  lazy beta iota zeta delta
   [bind try_catch try_finally lift ret throw gets modify send suspend
    getMainWindow getView setView getProblemInfo setProblemInfo setHasDebugged
    getScreenshotQueue getExtraScreenshotQueue clearExtraScreenshotQueue
    new_AbortController abort signal_aborted aborted
    set_view set_problemInfo set_hasDebugged set_extraScreenshotQueue
    set_currentProcessingAbortController set_currentExtraProcessingAbortController
    set_controllers set_CREDITS set_events set_requests
    cancelOngoingRequests axios_post generateResponse processImages generateSolution
    debugSolution generateSolutionsHelper processScreenshotsHelper_body
    processScreenshotsHelper processExtraScreenshotsHelper_body
    processExtraScreenshotsHelper decrementCredits decrement_credits read_CREDITS
    just_signal or_default isConfigured while_retry
    processScreenshots processExtraScreenshots
    mainWindow view problemInfo hasDebugged screenshotQueue extraScreenshotQueue
    currentProcessingAbortController currentExtraProcessingAbortController controllers
    CREDITS events requests View_eqb gt_zero minus_one ToNumber
    maxTokens temperature signal req_signal req_prompt isCancel message response
    generateResponse_error Error CanceledError MAX_RETRIES Nat.leb orb andb negb
    isDestroyed].

Ltac simp_abort :=
  repeat first [ rewrite nth_set_flag | rewrite nth_fresh | rewrite nth_beyond
               | rewrite ltb_length_app | rewrite length_set_flag
               | rewrite Nat.eqb_refl
               | rewrite orb_true_r | rewrite orb_false_r | rewrite andb_true_r ];
  cbn [orb andb].

(** The term on which the evaluation of [t] is stuck. *)
Ltac blocker t :=
  lazymatch t with
  | match ?x with _ => _ end => blocker x
  | (match ?x with _ => _ end) _ => blocker x
  | (match ?x with _ => _ end) _ _ => blocker x
  | _ => t
  end.

Ltac bool_lia :=
  exfalso;
  repeat match goal with
         | H : lt_one (Num _) = _ |- _ => cbn in H
         | H : (_ <? _)%Z = false |- _ => apply Z.ltb_ge in H
         | H : (_ <? _)%Z = true |- _ => apply Z.ltb_lt in H
         end;
  lia.

Ltac step_atom a :=
  lazymatch a with
  | truthy JNull => change (truthy JNull) with false
  | property (JObject _) _ => let r := eval cbn in a in change a with r
  | getLanguage ?e ?w =>
      let l := fresh "language" in
      let H := fresh "H" in
      destruct (getLanguage_run e w) as [l H]; rewrite H; clear H
  | load_screenshots ?e ?p ?w =>
      let H := fresh "H" in
      destruct (load_screenshots_run e p w) as [[? H]|[? H]]; rewrite H; clear H
  | processImages_parse ?s =>
      let H := fresh "H" in
      destruct (processImages_parse_total s) as [? H]; rewrite H; clear H
  | nth _ _ _ => progress simp_abort
  | orb _ _ => progress simp_abort
  | _ => destruct a eqn:?; try congruence
  end.

Ltac observe :=
  unfold emitted, posted; norm;
  rewrite <- ?app_assoc; rewrite ?skipn_length_app; try simp_abort;
  cbn.

Ltac run_step :=
  norm;
  lazymatch goal with
  | |- exists w', ?run = _ /\ _ =>
      lazymatch run with
      | Ret _ _ => fail
      | Throw _ _ => fail
      | OutOfFuel => fail
      | _ => let a := blocker run in step_atom a
      end
  end.

Ltac close :=
  solve [ reflexivity | assumption | congruence | bool_lia
        | intros; discriminate | intros; auto 10
        | intros; congruence
        | let E := fresh "E" in intros E; rewrite E in *; cbn in *; discriminate ].

(** Settles the goal once the run has ended: [summary] is the description
    of the final state that was to be established. *)
Ltac finish summary :=
  eexists; split; [reflexivity|];
  unfold summary; observe;
  repeat match goal with
         | H : ?b = _ |- context [if ?b then _ else _] => rewrite H
         end;
  repeat match goal with |- _ /\ _ => split; [close|] end;
  first [ right; repeat split; close
        | left; repeat split; close ].

Ltac open_world w :=
  destruct w as [wmw wview wpi wdbg wq wxq wpc wxc wcs wcr wev wrq];
  cbn [mainWindow view screenshotQueue extraScreenshotQueue CREDITS problemInfo
       events requests controllers] in *;
  subst.

(* ================================================================== *)
(** ** The ways a run can go *)
(* ================================================================== *)

Section Runs.

Variable env : Env.

Lemma solve_started (fuel : nat) (w : World) (c : JsNumber)
      (s : string) (q : list string) :
  live w ->
  view w = ViewQueue ->
  screenshotQueue w = s :: q ->
  getCredits env w = Ret c w ->
  lt_one c = false ->
  creditsFault env = None ->
  CREDITS w = VNumber c ->
  exists w', processScreenshots env (S fuel) w = Ret tt w' /\ solve_summary w c w'.
Proof.
  unfold live. intros Hmw Hview Hq Hc Hlt Hfault Hcred.
  open_world w.
  norm. rewrite Hc. norm. rewrite Hlt.
  repeat run_step.
  all: finish solve_summary.
Qed.

Lemma debug_started (fuel : nat) (w : World) (c : JsNumber)
      (s : string) (q : list string) :
  live w ->
  view w = ViewSolutions ->
  extraScreenshotQueue w = s :: q ->
  getCredits env w = Ret c w ->
  lt_one c = false ->
  creditsFault env = None ->
  CREDITS w = VNumber c ->
  exists w', processExtraScreenshots env (S fuel) w = Ret tt w' /\ debug_summary w c w'.
Proof.
  unfold live. intros Hmw Hview Hq Hc Hlt Hfault Hcred.
  open_world w.
  norm. rewrite Hc. norm. rewrite Hlt.
  repeat run_step.
  all: finish debug_summary.
Qed.

Lemma debug_in_place_started (fuel : nat) (w : World) (c : JsNumber)
      (s : string) (q : list string) :
  live w ->
  view w <> ViewQueue ->
  extraScreenshotQueue w = s :: q ->
  getCredits env w = Ret c w ->
  lt_one c = false ->
  exists w', processScreenshots env (S fuel) w = Ret tt w' /\ debug_in_place_summary w w'.
Proof.
  unfold live. intros Hmw Hview Hq Hc Hlt.
  open_world w.
  norm. rewrite Hc. norm. rewrite Hlt.
  assert (View_eqb wview ViewQueue = false) as Hv
    by (destruct wview; [congruence | reflexivity | reflexivity]).
  change (match wview with ViewQueue => true | _ => false end)
    with (View_eqb wview ViewQueue).
  rewrite Hv.
  repeat run_step.
  all: finish debug_in_place_summary.
Qed.

End Runs.

Section Cases.

Variable env : Env.

Lemma lt_one_credits (w : World) (c : JsNumber) :
  lt_one c = false ->
  c = Num 0 \/ (creditsFault env = None /\ CREDITS w = VNumber c) ->
  creditsFault env = None /\ CREDITS w = VNumber c.
Proof. intros Hlt [->|H]; [discriminate | exact H]. Qed.

(** With a window and a credit reading below one, either entry point sends
    [OUT_OF_CREDITS] and does nothing else. *)
Lemma guard_credits (fuel : nat) (w : World) (c : JsNumber) (mw : Window) :
  mainWindow w = Some mw ->
  getCredits env w = Ret c w ->
  lt_one c = true ->
  processScreenshots env fuel w = Ret tt (out_of_credits w) /\
  processExtraScreenshots env fuel w = Ret tt (out_of_credits w).
Proof.
  intros Hmw Hc Hlt.
  unfold processScreenshots, processExtraScreenshots, bind, getMainWindow, gets.
  rewrite Hmw, Hc, Hlt. split; reflexivity.
Qed.

Lemma solve_cases (fuel : nat) (w : World) :
  live w -> view w = ViewQueue ->
  exists c w',
    getCredits env w = Ret c w /\
    processScreenshots env (S fuel) w = Ret tt w' /\
    ((lt_one c = true /\ w' = out_of_credits w)
     \/ (lt_one c = false /\ screenshotQueue w = [] /\
         w' = set_events (events w ++ [INITIAL_START; NO_SCREENSHOTS]) w)
     \/ (lt_one c = false /\ screenshotQueue w <> [] /\
         CREDITS w = VNumber c /\ solve_summary w c w')).
Proof.
  intros Hlive Hview.
  destruct (getCredits_run env w) as [c [Hc Hcases]].
  exists c.
  destruct (lt_one c) eqn:Hlt.
  - exists (out_of_credits w). split; [exact Hc|]. split; [|auto].
    apply (guard_credits _ _ _ _ Hlive Hc Hlt).
  - destruct (lt_one_credits w c Hlt Hcases) as [Hfault Hcred].
    destruct (screenshotQueue w) as [|s q] eqn:Hq.
    + exists (set_events (events w ++ [INITIAL_START; NO_SCREENSHOTS]) w).
      split; [exact Hc|]. split; [|right; left; auto].
      clear Hcases. unfold live in Hlive. open_world w.
      norm. rewrite Hc. norm. rewrite Hlt. rewrite <- app_assoc. reflexivity.
    + destruct (solve_started env fuel w c s q Hlive Hview Hq Hc Hlt Hfault Hcred)
        as [w' [Hrun Hsum]].
      exists w'. split; [exact Hc|]. split; [exact Hrun|].
      right; right. split; [reflexivity|]. split; [discriminate|]. auto.
Qed.

Lemma debug_cases (fuel : nat) (w : World) :
  live w ->
  exists c w',
    getCredits env w = Ret c w /\
    processExtraScreenshots env (S fuel) w = Ret tt w' /\
    ((lt_one c = true /\ w' = out_of_credits w)
     \/ (lt_one c = false /\ view w <> ViewSolutions /\
         w' = set_events (events w ++ [DEBUG_START]) w)
     \/ (lt_one c = false /\ view w = ViewSolutions /\
         extraScreenshotQueue w = [] /\
         w' = set_events (events w ++ [DEBUG_START; NO_SCREENSHOTS]) w)
     \/ (lt_one c = false /\ view w = ViewSolutions /\
         extraScreenshotQueue w <> [] /\
         CREDITS w = VNumber c /\ debug_summary w c w')).
Proof.
  intros Hlive.
  destruct (getCredits_run env w) as [c [Hc Hcases]].
  exists c.
  destruct (lt_one c) eqn:Hlt.
  - exists (out_of_credits w). split; [exact Hc|]. split; [|auto].
    apply (guard_credits _ _ _ _ Hlive Hc Hlt).
  - destruct (lt_one_credits w c Hlt Hcases) as [Hfault Hcred].
    clear Hcases.
    destruct (View_eqb (view w) ViewSolutions) eqn:Hv.
    + assert (view w = ViewSolutions) as Hview
        by (destruct (view w); congruence || discriminate).
      destruct (extraScreenshotQueue w) as [|s q] eqn:Hq.
      * exists (set_events (events w ++ [DEBUG_START; NO_SCREENSHOTS]) w).
        split; [exact Hc|]. split; [|right; right; left; auto].
        unfold live in Hlive. open_world w.
        norm. rewrite Hc. norm. rewrite Hlt. rewrite <- app_assoc. reflexivity.
      * destruct (debug_started env fuel w c s q Hlive Hview Hq Hc Hlt Hfault Hcred)
          as [w' [Hrun Hsum]].
        exists w'. split; [exact Hc|]. split; [exact Hrun|].
        right; right; right.
        split; [reflexivity|]. split; [exact Hview|]. split; [discriminate|]. auto.
    + assert (view w <> ViewSolutions) as Hview
        by (intros E; rewrite E in Hv; discriminate).
      exists (set_events (events w ++ [DEBUG_START]) w).
      split; [exact Hc|]. split; [|right; left; auto].
      unfold live in Hlive. open_world w.
      norm. rewrite Hc. norm. rewrite Hlt.
      change (match wview with ViewSolutions => true | _ => false end)
        with (View_eqb wview ViewSolutions).
      rewrite Hv. reflexivity.
Qed.

Lemma debug_in_place_cases (fuel : nat) (w : World) :
  live w -> view w <> ViewQueue ->
  exists c w',
    getCredits env w = Ret c w /\
    processScreenshots env (S fuel) w = Ret tt w' /\
    ((lt_one c = true /\ w' = out_of_credits w)
     \/ (lt_one c = false /\ extraScreenshotQueue w = [] /\
         w' = set_events (events w ++ [NO_SCREENSHOTS]) w)
     \/ (lt_one c = false /\ extraScreenshotQueue w <> [] /\
         debug_in_place_summary w w')).
Proof.
  intros Hlive Hview.
  destruct (getCredits_run env w) as [c [Hc Hcases]].
  exists c.
  destruct (lt_one c) eqn:Hlt.
  - exists (out_of_credits w). split; [exact Hc|]. split; [|auto].
    apply (guard_credits _ _ _ _ Hlive Hc Hlt).
  - clear Hcases.
    destruct (extraScreenshotQueue w) as [|s q] eqn:Hq.
    + exists (set_events (events w ++ [NO_SCREENSHOTS]) w).
      split; [exact Hc|]. split; [|right; left; auto].
      assert (View_eqb (view w) ViewQueue = false) as Hv
        by (destruct (view w); [congruence | reflexivity | reflexivity]).
      unfold live in Hlive. open_world w.
      norm. rewrite Hc. norm. rewrite Hlt.
      change (match wview with ViewQueue => true | _ => false end)
        with (View_eqb wview ViewQueue).
      rewrite Hv. reflexivity.
    + destruct (debug_in_place_started env fuel w c s q Hlive Hview Hq Hc Hlt)
        as [w' [Hrun Hsum]].
      exists w'. split; [exact Hc|]. split; [exact Hrun|].
      right; right. split; [reflexivity|]. split; [discriminate|]. auto.
Qed.

End Cases.

(** Either entry point returns, whatever happens inside: nothing is thrown
    to the caller and one iteration of each retry loop is enough. *)
Lemma runs_return (env : Env) (fuel : nat) (w : World) :
  live w ->
  (exists w', processScreenshots env (S fuel) w = Ret tt w') /\
  (exists w', processExtraScreenshots env (S fuel) w = Ret tt w').
Proof.
  intros Hlive. split.
  - destruct (View_eqb (view w) ViewQueue) eqn:Hv.
    + assert (view w = ViewQueue) as Hview
        by (destruct (view w); congruence || discriminate).
      destruct (solve_cases env fuel w Hlive Hview) as [c [w' [_ [Hrun _]]]].
      eauto.
    + assert (view w <> ViewQueue) as Hview
        by (intros E; rewrite E in Hv; discriminate).
      destruct (debug_in_place_cases env fuel w Hlive Hview) as [c [w' [_ [Hrun _]]]].
      eauto.
  - destruct (debug_cases env fuel w Hlive) as [c [w' [_ [Hrun _]]]]. eauto.
Qed.

(** A run that started and did not succeed sent one or two error events. *)
Lemma failing_run_reports (env : Env) (fuel : nat) (w w' : World) :
  live w ->
  (solve_starts env w ->
   processScreenshots env (S fuel) w = Ret tt w' ->
   count is_SOLUTION_SUCCESS (emitted w w') = 0%nat ->
   count is_INITIAL_SOLUTION_ERROR (emitted w w') = 1%nat \/
   count is_INITIAL_SOLUTION_ERROR (emitted w w') = 2%nat) /\
  (debug_starts env w ->
   processExtraScreenshots env (S fuel) w = Ret tt w' ->
   count is_DEBUG_SUCCESS (emitted w w') = 0%nat ->
   count is_DEBUG_ERROR (emitted w w') = 1%nat \/
   count is_DEBUG_ERROR (emitted w w') = 2%nat).
Proof.
  intros Hlive. split.
  - intros [Hview [Hq [c [Hc Hlt]]]] Hrun H0.
    destruct (solve_cases env fuel w Hlive Hview) as [c' [w'' [Hc' [Hrun' Hcases]]]].
    rewrite Hrun in Hrun'. injection Hrun' as <-.
    rewrite Hc in Hc'. injection Hc' as <-.
    destruct Hcases as [[Hlt' _]|[[_ [Hq' _]]|[_ [_ [_ Hsum]]]]];
      [congruence | contradiction |].
    destruct Hsum as [_ [_ [[H1 _]|[_ [He _]]]]]; [congruence | exact He].
  - intros [Hview [Hq [c [Hc Hlt]]]] Hrun H0.
    destruct (debug_cases env fuel w Hlive) as [c' [w'' [Hc' [Hrun' Hcases]]]].
    rewrite Hrun in Hrun'. injection Hrun' as <-.
    rewrite Hc in Hc'. injection Hc' as <-.
    destruct Hcases as [[Hlt' _]|[[_ [Hv _]]|[[_ [_ [Hq' _]]]|[_ [_ [_ [_ Hsum]]]]]]];
      [congruence | contradiction | contradiction |].
    destruct Hsum as [_ [_ [_ [[H1 _]|[_ [He _]]]]]]; [congruence | exact He].
Qed.

(** A debug run started by [processExtraScreenshots] that sent
    [DEBUG_SUCCESS] moved the view to ["debug"], set the flag and took one
    credit; a run of either pipeline that sent no success event left the
    credits alone. *)
Lemma debug_success (env : Env) (fuel : nat) (w w' : World) (d : Json) (n : Z) :
  live w ->
  CREDITS w = VNumber (Num n) ->
  processExtraScreenshots env (S fuel) w = Ret tt w' ->
  In (DEBUG_SUCCESS d) (emitted w w') ->
  view w' = ViewDebug /\ hasDebugged w' = true /\
  CREDITS w' = VNumber (Num (n - 1)) /\ (1 <= n)%Z.
Proof.
  intros Hlive Hcred Hrun Hin.
  destruct (debug_cases env fuel w Hlive) as [c [w'' [Hc [Hrun' Hcases]]]].
  rewrite Hrun in Hrun'. injection Hrun' as <-.
  destruct Hcases as [[_ ->]|[[_ [_ ->]]|[[_ [_ [_ ->]]]|[Hlt [_ [_ [Hc' Hsum]]]]]]].
  - unfold out_of_credits in Hin. rewrite emitted_set_events in Hin.
    cbn in Hin. intuition discriminate.
  - rewrite emitted_set_events in Hin. cbn in Hin. intuition discriminate.
  - rewrite emitted_set_events in Hin. cbn in Hin. intuition discriminate.
  - rewrite Hcred in Hc'. injection Hc' as <-.
    cbn in Hlt. apply Z.ltb_ge in Hlt.
    destruct Hsum as [_ [_ [_ [Hok|Hfail]]]].
    + destruct Hok as [_ [_ [Hv [Hd [Hcr _]]]]]. cbn in Hcr. auto.
    + destruct Hfail as [H0 _]. exfalso.
      exact (count_zero_not_In is_DEBUG_SUCCESS (DEBUG_SUCCESS d) _ H0 eq_refl Hin).
Qed.

Lemma failure_is_free (env : Env) (fuel : nat) (w w' : World) :
  live w ->
  (view w = ViewQueue ->
   processScreenshots env (S fuel) w = Ret tt w' ->
   count is_SOLUTION_SUCCESS (emitted w w') = 0%nat ->
   CREDITS w' = CREDITS w) /\
  (processExtraScreenshots env (S fuel) w = Ret tt w' ->
   count is_DEBUG_SUCCESS (emitted w w') = 0%nat ->
   CREDITS w' = CREDITS w).
Proof.
  intros Hlive. split.
  - intros Hview Hrun H0.
    destruct (solve_cases env fuel w Hlive Hview) as [c' [w'' [Hc' [Hrun' Hcases]]]].
    rewrite Hrun in Hrun'. injection Hrun' as <-.
    destruct Hcases as [[_ ->]|[[_ [_ ->]]|[_ [_ [_ Hsum]]]]]; try reflexivity.
    destruct Hsum as [_ [_ [[H1 _]|[_ [_ [_ [Hcr _]]]]]]]; [congruence | exact Hcr].
  - intros Hrun H0.
    destruct (debug_cases env fuel w Hlive) as [c' [w'' [Hc' [Hrun' Hcases]]]].
    rewrite Hrun in Hrun'. injection Hrun' as <-.
    destruct Hcases as [[_ ->]|[[_ [_ ->]]|[[_ [_ [_ ->]]]|[_ [_ [_ [_ Hsum]]]]]]];
      try reflexivity.
    destruct Hsum as [_ [_ [_ [[H1 _]|[_ [_ [_ [Hcr _]]]]]]]]; [congruence | exact Hcr].
Qed.

(** A debug run started by [processScreenshots] never changes the view or
    the credits, whether it succeeds or not. *)
Lemma debug_in_place_is_free (env : Env) (fuel : nat) (w w' : World) :
  live w ->
  view w <> ViewQueue ->
  processScreenshots env (S fuel) w = Ret tt w' ->
  view w' = view w /\ CREDITS w' = CREDITS w.
Proof.
  intros Hlive Hview Hrun.
  destruct (debug_in_place_cases env fuel w Hlive Hview) as [c [w'' [_ [Hrun' Hcases]]]].
  rewrite Hrun in Hrun'. injection Hrun' as <-.
  destruct Hcases as [[_ ->]|[[_ [_ ->]]|[_ [_ Hsum]]]]; try (split; reflexivity).
  destruct Hsum as [_ [_ [_ [Hv [Hc _]]]]]. auto.
Qed.

(* ================================================================== *)
(** ** The properties of the specification *)
(* ================================================================== *)

(* ------------------------------------------------------------------ *)
(** *** C1 *)




(* ------------------------------------------------------------------ *)
(** *** C2 *)

(** C2.  The code breaks the claim.  When the solution request of a solve
    run fails, [generateSolutionsHelper] sends [INITIAL_SOLUTION_ERROR] and
    [processScreenshots] sends it again; when a request of a debug run
    fails, [processExtraScreenshotsHelper] sends [DEBUG_ERROR] and
    [processExtraScreenshots] sends it again.  Both runs return normally. *)
Theorem failure_is_reported_twice :
  (exists w',
     processScreenshots overloaded 1 fresh = Ret tt w' /\
     emitted fresh w' =
       [INITIAL_START;
        PROBLEM_EXTRACTED (JObject [("title", JString "Two Sum")]);
        INITIAL_SOLUTION_ERROR ("API error (500): " ++ dq ++ "overloaded" ++ dq);
        INITIAL_SOLUTION_ERROR ("API error (500): " ++ dq ++ "overloaded" ++ dq)] /\
     count is_INITIAL_SOLUTION_ERROR (emitted fresh w') = 2%nat) /\
  (exists w',
     processExtraScreenshots refusing 1 solved = Ret tt w' /\
     emitted solved w' =
       [DEBUG_START;
        DEBUG_ERROR ("API error (500): " ++ dq ++ "overloaded" ++ dq);
        DEBUG_ERROR ("API error (500): " ++ dq ++ "overloaded" ++ dq)] /\
     count is_DEBUG_ERROR (emitted solved w') = 2%nat).
Proof.
  split; eexists; (split; [vm_compute; reflexivity|]); split; vm_compute; reflexivity.
Qed.

(* ------------------------------------------------------------------ *)
(** *** C3 *)



(* ------------------------------------------------------------------ *)
(** *** C4 *)

(** C4.  The code breaks the claim.  In the ["solutions"] view, with a
    solution at hand and an error screenshot taken, [processScreenshots]
    runs the debug pipeline to its end: [DEBUG_SUCCESS] is sent and the
    flag is set, but the view stays on ["solutions"] and the three credits
    stay three.  The same run started by [processExtraScreenshots] moves
    the view to ["debug"] and leaves two credits. *)
Theorem debug_in_place_is_not_charged :
  (exists w',
     processScreenshots calm 1 solved = Ret tt w' /\
     (1 <= count is_DEBUG_SUCCESS (emitted solved w'))%nat /\
     count is_DEBUG_ERROR (emitted solved w') = 0%nat /\
     hasDebugged w' = true /\
     view w' = ViewSolutions /\
     CREDITS w' = VNumber (Num 3)) /\
  (exists w',
     processExtraScreenshots calm 1 solved = Ret tt w' /\
     (1 <= count is_DEBUG_SUCCESS (emitted solved w'))%nat /\
     hasDebugged w' = true /\
     view w' = ViewDebug /\
     CREDITS w' = VNumber (Num 2)).
Proof.
  split; eexists; (split; [vm_compute; reflexivity|]);
    repeat split; vm_compute; try reflexivity; lia.
Qed.

(* ------------------------------------------------------------------ *)
(** *** C5 *)

(** C5.  With a main window and a stored credit count below one, either
    entry point sends [OUT_OF_CREDITS] and returns: nothing is posted and
    nothing of the state changes but the record of what was sent. *)
Theorem out_of_credits_stops (env : Env) (fuel : nat) (w : World)
        (mw : Window) (n : Z) :
  mainWindow w = Some mw ->
  CREDITS w = VNumber (Num n) ->
  (n < 1)%Z ->
  processScreenshots env fuel w = Ret tt (out_of_credits w) /\
  processExtraScreenshots env fuel w = Ret tt (out_of_credits w) /\
  emitted w (out_of_credits w) = [OUT_OF_CREDITS] /\
  posted w (out_of_credits w) = [].
Proof.
  intros Hmw Hcred Hn.
  destruct (getCredits_run env w) as [c [Hc Hcases]].
  assert (lt_one c = true) as Hlt.
  { destruct Hcases as [->|[_ H]]; [reflexivity|].
    rewrite Hcred in H. injection H as <-. cbn. apply Z.ltb_lt. exact Hn. }
  destruct (guard_credits env fuel w c mw Hmw Hc Hlt) as [H1 H2].
  repeat split; auto.
  - apply emitted_set_events.
  - unfold posted. cbn. apply skipn_all.
Qed.

Lemma out_of_credits_stops_witness :
  processScreenshots calm 1 (set_CREDITS (VNumber (Num 0)) fresh)
    = Ret tt (out_of_credits (set_CREDITS (VNumber (Num 0)) fresh)) /\
  processExtraScreenshots calm 1 (set_CREDITS (VNumber (Num 0)) fresh)
    = Ret tt (out_of_credits (set_CREDITS (VNumber (Num 0)) fresh)) /\
  emitted (set_CREDITS (VNumber (Num 0)) fresh)
          (out_of_credits (set_CREDITS (VNumber (Num 0)) fresh)) = [OUT_OF_CREDITS] /\
  posted (set_CREDITS (VNumber (Num 0)) fresh)
         (out_of_credits (set_CREDITS (VNumber (Num 0)) fresh)) = [].
Proof.
  apply (out_of_credits_stops calm 1 (set_CREDITS (VNumber (Num 0)) fresh)
           {| isDestroyed := false |} 0); [reflexivity | reflexivity | lia].
Defined.

(* ------------------------------------------------------------------ *)
(** *** C6 *)

(** C6 fails: the problem record is cleared although nothing is open. *)
Lemma cancel_is_not_noop : ~ cancel_is_noop solved.
Proof.
  intros H. specialize (H eq_refl eq_refl).
  vm_compute in H. discriminate H.
Qed.

(** C6, amended.  [cancelOngoingRequests] always clears the problem record
    and the flag, closes both controllers and leaves view, queues, credits
    and the posted requests alone.  With no controller open it sends
    nothing and aborts nothing; with one open it aborts it and, the window
    being live, sends [NO_SCREENSHOTS] once. *)
Theorem cancelOngoingRequests_effect (w : World) :
  exists w',
    cancelOngoingRequests w = Ret tt w' /\
    problemInfo w' = JNull /\ hasDebugged w' = false /\
    currentProcessingAbortController w' = None /\
    currentExtraProcessingAbortController w' = None /\
    mainWindow w' = mainWindow w /\ view w' = view w /\
    screenshotQueue w' = screenshotQueue w /\
    extraScreenshotQueue w' = extraScreenshotQueue w /\
    CREDITS w' = CREDITS w /\ requests w' = requests w /\
    (currentProcessingAbortController w = None ->
     currentExtraProcessingAbortController w = None ->
     events w' = events w /\ controllers w' = controllers w) /\
    (forall c,
       currentProcessingAbortController w = Some c \/
       currentExtraProcessingAbortController w = Some c ->
       ((c < List.length (controllers w))%nat -> aborted c w' = true) /\
       (live w -> emitted w w' = [NO_SCREENSHOTS])).
Proof.
  unfold live.
  destruct w as [wmw wview wpi wdbg wq wxq wpc wxc wcs wcr wev wrq].
  cbn [mainWindow currentProcessingAbortController
       currentExtraProcessingAbortController controllers events].
  destruct wmw as [[[|]]|], wpc as [c1|], wxc as [c2|]; eexists;
    (split; [norm; reflexivity|]);
    cbn [mainWindow view problemInfo hasDebugged screenshotQueue
         extraScreenshotQueue currentProcessingAbortController
         currentExtraProcessingAbortController controllers CREDITS events requests];
    repeat (split; [reflexivity|]).
  all: split; [intros; try discriminate; auto|].
  all: intros c [E|E]; try discriminate; injection E as ->.
  all: split;
    [ intros Hc; unfold aborted; cbn [controllers];
      rewrite ?nth_set_flag, ?length_set_flag, ?Nat.eqb_refl;
      apply Nat.ltb_lt in Hc; rewrite Hc; cbn;
      rewrite ?orb_true_r; reflexivity
    | intros Hl; try discriminate Hl; unfold emitted; cbn [events];
      apply skipn_length_app ].
Qed.

Lemma cancelOngoingRequests_effect_witness :
  exists w',
    cancelOngoingRequests solved = Ret tt w' /\
    problemInfo w' = JNull /\ events w' = events solved.
Proof.
  destruct (cancelOngoingRequests_effect solved)
    as [w' [Hrun [Hp [_ [_ [_ [_ [_ [_ [_ [_ [_ [Hnone _]]]]]]]]]]]]].
  exists w'. split; [exact Hrun|]. split; [exact Hp|].
  apply (Hnone eq_refl eq_refl).
Defined.

(* ------------------------------------------------------------------ *)
(** *** C7 *)




(* ------------------------------------------------------------------ *)
(** *** C8 *)


(* ------------------------------------------------------------------ *)
(** *** C9 *)

(** C9 fails for a rejected credential: the error says "Invalid API key"
    and nothing of what the server sent. *)
Lemma auth_error_drops_diagnostics : ~ gateway_errors_carry_diagnostics.
Proof.
  intros H.
  specialize (H 401%Z (JObject [("type", JString "authentication_error")])
                "Request failed with status code 401").
  destruct H as [H|[H _]]; vm_compute in H; discriminate H.
Qed.

(** C9, amended.  A request that is not cancelled is posted once, and its
    failure is thrown as follows: status 401 as the error "Invalid API
    key", status 429 as "Rate limit exceeded", any other status as an error
    whose message holds the status and the serialised body, and a failure
    without a response as the error axios raised, unchanged.  Only the
    third of these carries the status and the body. *)
Theorem gateway_error_taxonomy (env : Env) (prompt : Prompt) (options : Options)
        (pending : AwaitPoint) (w : World) (k : string) :
  apiKey env = Some k ->
  signal_aborted (signal options) w = false ->
  cancels env pending = false ->
  let w1 := set_requests (requests w ++ [request_of prompt options]) w in
  generateResponse env prompt options pending w =
    match reply env (List.length (requests w)) with
    | Fulfilled [] => Ret "" w1
    | Fulfilled (b :: bs) =>
        Ret (String.concat nl
               (map text (filter (fun item => String.eqb (block_type item) "text")
                                 (b :: bs)))) w1
    | RejectedWithResponse status body _ =>
        Throw (if (status =? 401)%Z then Error "Invalid API key"
               else if (status =? 429)%Z then Error "Rate limit exceeded"
               else Error ("API error (" ++ string_of_Z status ++ "): "
                             ++ JSON_stringify body)) w1
    | RejectedNoResponse msg =>
        Throw {| message := msg; isCancel := false; response := None |} w1
    end.
Proof.
  intros Hkey Hsig Hcancel w1. subst w1.
  unfold generateResponse, request_of. rewrite Hkey.
  unfold try_catch, axios_post, bind, gets, modify, suspend.
  cbn [req_signal].
  assert (forall rs, signal_aborted (signal options) (set_requests rs w) = false)
    as Hsig' by (intros rs; exact Hsig).
  rewrite Hsig', Hcancel. unfold ret. rewrite Hsig'.
  destruct (reply env (List.length (requests w))) as [[|b bs]|status body msg|msg];
    reflexivity.
Qed.

Lemma gateway_error_taxonomy_witness :
  generateResponse overloaded (SolvePrompt JNull "python")
                   {| maxTokens := None; temperature := None; signal := None |}
                   AtSolve (set_requests [request_of (ExtractPrompt [] "python")
                     {| maxTokens := None; temperature := None; signal := None |}] fresh)
  = Throw (Error ("API error (500): " ++ dq ++ "overloaded" ++ dq))
          (set_requests
             [request_of (ExtractPrompt [] "python")
                {| maxTokens := None; temperature := None; signal := None |};
              request_of (SolvePrompt JNull "python")
                {| maxTokens := None; temperature := None; signal := None |}] fresh).
Proof.
  apply (gateway_error_taxonomy overloaded (SolvePrompt JNull "python")
           {| maxTokens := None; temperature := None; signal := None |}
           AtSolve
           (set_requests [request_of (ExtractPrompt [] "python")
              {| maxTokens := None; temperature := None; signal := None |}] fresh)
           "sk-ant-key"); reflexivity.
Defined.

(* ------------------------------------------------------------------ *)
(** *** C10 *)

(** C10 fails without a main window: the run returns before it reads the
    counter and sends nothing. *)
Lemma unreadable_credits_not_reported :
  ~ unreadable_credits_reported calm 1 (without_window fresh).
Proof.
  intros H. destruct H as [w' [Hrun [Hin _]]].
  - left. reflexivity.
  - vm_compute in Hrun. injection Hrun as <-. vm_compute in Hin. exact Hin.
Qed.

(** C10, amended.  When the counter cannot be read, [getCredits] returns 0.
    A run that has a main window then sends [OUT_OF_CREDITS] and does
    nothing else; a run that has none returns at once, sending nothing.
    In both cases nothing is posted. *)
Theorem unreadable_credits (env : Env) (fuel : nat) (w : World) :
  credits_unreadable env w ->
  getCredits env w = Ret (Num 0) w /\
  (mainWindow w <> None ->
     processScreenshots env fuel w = Ret tt (out_of_credits w) /\
     processExtraScreenshots env fuel w = Ret tt (out_of_credits w)) /\
  (mainWindow w = None ->
     processScreenshots env fuel w = Ret tt w /\
     processExtraScreenshots env fuel w = Ret tt w) /\
  requests (out_of_credits w) = requests w.
Proof.
  intros H. pose proof (getCredits_unreadable env w H) as Hc.
  split; [exact Hc|]. split; [|split; [|reflexivity]].
  - intros Hmw. destruct (mainWindow w) as [mw|] eqn:E; [|congruence].
    apply (guard_credits env fuel w (Num 0) mw E Hc). reflexivity.
  - intros Hmw.
    unfold processScreenshots, processExtraScreenshots, bind, getMainWindow, gets.
    rewrite Hmw. split; reflexivity.
Qed.

Lemma unreadable_credits_witness :
  getCredits calm (set_CREDITS VUndefined fresh)
    = Ret (Num 0) (set_CREDITS VUndefined fresh) /\
  (mainWindow (set_CREDITS VUndefined fresh) <> None ->
     processScreenshots calm 1 (set_CREDITS VUndefined fresh)
       = Ret tt (out_of_credits (set_CREDITS VUndefined fresh)) /\
     processExtraScreenshots calm 1 (set_CREDITS VUndefined fresh)
       = Ret tt (out_of_credits (set_CREDITS VUndefined fresh))) /\
  (mainWindow (set_CREDITS VUndefined fresh) = None ->
     processScreenshots calm 1 (set_CREDITS VUndefined fresh)
       = Ret tt (set_CREDITS VUndefined fresh) /\
     processExtraScreenshots calm 1 (set_CREDITS VUndefined fresh)
       = Ret tt (set_CREDITS VUndefined fresh)) /\
  requests (out_of_credits (set_CREDITS VUndefined fresh))
    = requests (set_CREDITS VUndefined fresh).
Proof.
  apply (unreadable_credits calm 1 (set_CREDITS VUndefined fresh)).
  right; right. intros x. simpl. discriminate.
Defined.

(* ================================================================== *)
(** ** More facts about the parts *)
(* ================================================================== *)

(* ------------------------------------------------------------------ *)
(** *** Strings and the two regular expressions *)

Lemma string_app_assoc (a b c : string) : (a ++ b) ++ c = a ++ (b ++ c).
Proof. induction a as [|x a IH]; cbn; [reflexivity | rewrite IH; reflexivity]. Qed.

Lemma strip_prefix_app (p s : string) : strip_prefix p (p ++ s) = Some s.
Proof.
  induction p as [|a p IH]; cbn; [reflexivity|].
  rewrite Ascii.eqb_refl. exact IH.
Qed.

Lemma find_first_eq (p s : string) :
  find_first p s
  = match strip_prefix p s with
    | Some after => Some ("", after)
    | None =>
        match s with
        | EmptyString => None
        | String c s' =>
            match find_first p s' with
            | Some (before, after) => Some (String c before, after)
            | None => None
            end
        end
    end.
Proof. destruct s; reflexivity. Qed.

(** The leftmost occurrence of a pattern comes after a text that does not
    hold the pattern's first character. *)
Lemma find_first_after (p' pre rest : string) (a : ascii) :
  occurs a pre = false ->
  find_first (String a p') (pre ++ String a p' ++ rest) = Some (pre, rest).
Proof.
  intros H. induction pre as [|c pre IH].
  - cbn [append]. rewrite find_first_eq.
    change (String a (p' ++ rest)) with (String a p' ++ rest).
    rewrite strip_prefix_app. reflexivity.
  - cbn [occurs] in H. apply orb_false_iff in H as [Hc Hpre].
    rewrite find_first_eq. cbn [append strip_prefix]. rewrite Hc.
    cbn [append] in IH. rewrite (IH Hpre). reflexivity.
Qed.

Lemma find_first_open (pre rest : string) :
  occurs backtick pre = false ->
  find_first fence_open (pre ++ fence_open ++ rest) = Some (pre, rest).
Proof. exact (find_first_after ("``json" ++ nl) pre rest backtick). Qed.

(** A closing fence cannot begin inside a text and end in the closing
    fence that follows it. *)
Lemma fence_close_cannot_straddle (s t : string) :
  s <> "" ->
  strip_prefix fence_close s = None ->
  strip_prefix fence_close (s ++ fence_close ++ t) = None.
Proof.
  intros Hs H. unfold fence_close, nl in *. cbn [append strip_prefix] in *.
  destruct s as [|c1 s]; [congruence|]. cbn [append strip_prefix] in *.
  destruct (Ascii.eqb _ c1); [|reflexivity].
  destruct s as [|c2 s]; [reflexivity|]. cbn [append strip_prefix] in *.
  destruct (Ascii.eqb _ c2); [|reflexivity].
  destruct s as [|c3 s]; [reflexivity|]. cbn [append strip_prefix] in *.
  destruct (Ascii.eqb _ c3); [|reflexivity].
  destruct s as [|c4 s]; [reflexivity|]. cbn [append strip_prefix] in *.
  destruct (Ascii.eqb _ c4); [discriminate | reflexivity].
Qed.

Lemma find_first_close (inner post : string) :
  find_first fence_close inner = None ->
  find_first fence_close (inner ++ fence_close ++ post) = Some (inner, post).
Proof.
  induction inner as [|c inner IH]; intros H.
  - cbn [append]. rewrite find_first_eq, strip_prefix_app. reflexivity.
  - rewrite find_first_eq in H.
    destruct (strip_prefix fence_close (String c inner)) eqn:E; [discriminate|].
    destruct (find_first fence_close inner) as [[b a]|] eqn:F; [discriminate|].
    rewrite find_first_eq.
    rewrite (fence_close_cannot_straddle (String c inner) post)
      by (discriminate || exact E).
    cbn [append]. rewrite (IH eq_refl). reflexivity.
Qed.

Lemma mentions_false (p s : string) :
  mentions p s = false -> find_first p s = None.
Proof. unfold mentions. destruct (find_first p s); [discriminate | reflexivity]. Qed.

Lemma code_eqb (a c : ascii) : (code c =? code a)%nat = Ascii.eqb a c.
Proof.
  unfold code. destruct (Ascii.eqb a c) eqn:E.
  - apply Ascii.eqb_eq in E. subst. apply Nat.eqb_refl.
  - apply Nat.eqb_neq. intros H. apply Ascii.eqb_neq in E. apply E.
    rewrite <- (ascii_nat_embedding a), <- (ascii_nat_embedding c). congruence.
Qed.

Lemma from_first_brace_after (pre rest : string) :
  occurs open_brace pre = false ->
  from_first_brace (pre ++ String open_brace rest) = Some (String open_brace rest).
Proof.
  intros H. induction pre as [|c pre IH]; cbn [append from_first_brace].
  - reflexivity.
  - cbn [occurs] in H. apply orb_false_iff in H as [Hc Hpre].
    change 123%nat with (code open_brace). rewrite code_eqb, Hc. exact (IH Hpre).
Qed.

Lemma through_last_brace_none (post : string) :
  occurs close_brace post = false -> through_last_brace post = None.
Proof.
  induction post as [|c post IH]; intros H; cbn [through_last_brace].
  - reflexivity.
  - cbn [occurs] in H. apply orb_false_iff in H as [Hc Hpost].
    rewrite (IH Hpost). change 125%nat with (code close_brace).
    rewrite code_eqb, Hc. reflexivity.
Qed.

Lemma through_last_brace_before (a post : string) :
  occurs close_brace post = false ->
  through_last_brace (a ++ String close_brace post)
  = Some (a ++ String close_brace "").
Proof.
  intros H. induction a as [|c a IH]; cbn [append through_last_brace].
  - rewrite (through_last_brace_none post H). reflexivity.
  - rewrite IH. reflexivity.
Qed.

(* ------------------------------------------------------------------ *)
(** *** Objects *)






(* ------------------------------------------------------------------ *)
(** *** Lists of events *)

Lemma In_forallb_false {A : Type} (p : A -> bool) (x : A) (l : list A) :
  forallb p l = true -> p x = false -> ~ In x l.
Proof.
  intros Hall Hp Hin. rewrite forallb_forall in Hall.
  rewrite (Hall x Hin) in Hp. discriminate.
Qed.

Lemma forallb_weaken {A : Type} (p q : A -> bool) (l : list A) :
  (forall x, p x = true -> q x = true) ->
  forallb p l = true -> forallb q l = true.
Proof.
  intros Hpq. rewrite !forallb_forall. intros H x Hx. apply Hpq, H, Hx.
Qed.

Lemma live_preserved (w w' : World) :
  live w -> mainWindow w' = mainWindow w -> live w'.
Proof. unfold live. intros H E. rewrite E. exact H. Qed.

(* ------------------------------------------------------------------ *)
(** *** The client, the renderer and the handlers *)

Lemma generateResponse_error_is_no_cancel (error : JsError) :
  isCancel (generateResponse_error error) = false.
Proof.
  unfold generateResponse_error.
  destruct (isCancel error) eqn:E; [reflexivity|].
  destruct (response error) as [[status errorData]|]; [|exact E].
  destruct (status =? 401)%Z; [reflexivity|].
  destruct (status =? 429)%Z; reflexivity.
Qed.

Lemma not_configured_no_key (env : Env) :
  isConfigured env = false -> apiKey env = None.
Proof.
  unfold isConfigured, apiKey, loadApiKey.
  destruct (ANTHROPIC_API_KEY env) as [[|c k]|]; cbn;
    destruct (anthropic_key env) as [[|c' k']|]; cbn; congruence.
Qed.

(** [load_screenshots] returns the screenshots of the paths, or fails when
    one of them cannot be read. *)
Lemma load_screenshots_read (env : Env) (paths : list string) (w : World) :
  (exists shots, load_screenshots env paths w = Ret shots w /\ loaded env paths shots) \/
  (exists e, load_screenshots env paths w = Throw e w /\
             forall shots, ~ loaded env paths shots).
Proof.
  induction paths as [|p ps IH]; cbn.
  - left. exists []. split; [reflexivity | constructor].
  - unfold bind, lift.
    destruct (getImagePreview env p) as [pv|e] eqn:Ep; cbn.
    2:{ right. exists e. split; [reflexivity|]. intros shots H.
        inversion H as [|? ? ? ? [_ [Hp _]] _]; subst. congruence. }
    destruct (readFileSync env p) as [d|e] eqn:Ed; cbn.
    2:{ right. exists e. split; [reflexivity|]. intros shots H.
        inversion H as [|? ? ? ? [_ [_ Hd]] _]; subst. congruence. }
    destruct IH as [[shots [H Hl]]|[e [H Hl]]]; rewrite H; cbn.
    + left. eexists. split; [reflexivity|]. constructor; [|exact Hl]. cbn. auto.
    + right. exists e. split; [reflexivity|]. intros shots H'.
      inversion H' as [|? ? ? ? _ Hrest]; subst. exact (Hl _ Hrest).
Qed.

Lemma unreadable_path (env : Env) (paths : list string) (p : string) (e : JsError) :
  In p paths ->
  getImagePreview env p = Abrupt e \/ readFileSync env p = Abrupt e ->
  forall shots, ~ loaded env paths shots.
Proof.
  intros Hin Hfail shots Hl. unfold loaded in Hl.
  induction Hl as [|x s paths shots [_ [Hp Hd]] _ IH]; [contradiction|].
  destruct Hin as [->|Hin]; [|exact (IH Hin)].
  destruct Hfail; congruence.
Qed.

Section Renderer.

Variable env : Env.

Lemma waitForInitialization_loop_polls (remaining attempts : nat) (w : World) :
  falsy_before env attempts ->
  (exists k v, (attempts <= k < attempts + remaining)%nat /\ falsy_before env k /\
               isInitialized env k = Normal v /\ js_truthy v = true /\
               waitForInitialization_loop env remaining attempts w = Ret tt w)
  \/ (exists k e, (attempts <= k < attempts + remaining)%nat /\ falsy_before env k /\
                  isInitialized env k = Abrupt e /\
                  waitForInitialization_loop env remaining attempts w = Throw e w)
  \/ (falsy_before env (attempts + remaining) /\
      waitForInitialization_loop env remaining attempts w
        = Throw (Error "App failed to initialize after 5 seconds") w).
Proof.
  revert attempts. induction remaining as [|r IH]; intros attempts Hbefore.
  - right; right. rewrite Nat.add_0_r. split; [exact Hbefore | reflexivity].
  - cbn [waitForInitialization_loop]. unfold bind, lift.
    destruct (isInitialized env attempts) as [v|e] eqn:E; cbn.
    + destruct (js_truthy v) eqn:T.
      * left. exists attempts, v. repeat split; auto; lia.
      * assert (falsy_before env (S attempts)) as Hnext.
        { intros i Hi. destruct (Nat.eq_dec i attempts) as [->|Hne].
          - exists v. auto.
          - apply Hbefore. lia. }
        destruct (IH (S attempts) Hnext)
          as [[k [v' [Hk H]]]|[[k [e [Hk H]]]|[Hall H]]].
        -- left. exists k, v'. split; [lia | exact H].
        -- right; left. exists k, e. split; [lia | exact H].
        -- right; right.
           replace (attempts + S r)%nat with (S attempts + r)%nat by lia.
           split; assumption.
    + right; left. exists attempts, e. repeat split; auto; lia.
Qed.

(** Polling does not look at the state. *)
Lemma waitForInitialization_anywhere (w w' : World) :
  waitForInitialization env w = Ret tt w ->
  waitForInitialization env w' = Ret tt w'.
Proof.
  unfold waitForInitialization. generalize maxAttempts, 0%nat.
  intros r. induction r as [|r IH]; intros a; cbn.
  - discriminate.
  - unfold bind, lift. destruct (isInitialized env a) as [v|e]; cbn.
    + destruct (js_truthy v); [reflexivity | apply IH].
    + discriminate.
Qed.




Lemma load_previews_run (queue : list string) (w : World) :
  (exists previews,
     load_previews env queue w = Ret previews w /\
     map fst previews = queue /\
     Forall (fun p => getImagePreview env (fst p) = Normal (snd p)) previews)
  \/ (exists e p,
        load_previews env queue w = Throw e w /\
        In p queue /\ getImagePreview env p = Abrupt e).
Proof.
  induction queue as [|p rest IH]; cbn.
  - left. exists []. repeat split; constructor.
  - unfold bind, lift.
    destruct (getImagePreview env p) as [pv|e] eqn:Ep; cbn.
    2:{ right. exists e, p. auto. }
    destruct IH as [[previews [H [Hm Hf]]]|[e [p' [H [Hin He]]]]]; rewrite H; cbn.
    + left. exists ((p, pv) :: previews). split; [reflexivity|].
      split; [cbn; congruence|]. constructor; [exact Ep | exact Hf].
    + right. exists e, p'. auto.
Qed.

End Renderer.

(** [cancelOngoingRequests] while the controller of the solve pipeline is
    set. *)
Lemma cancel_open (w : World) (c : nat) :
  live w ->
  currentProcessingAbortController w = Some c ->
  exists w', cancelOngoingRequests w = Ret tt w' /\
             emitted w w' = [NO_SCREENSHOTS] /\
             problemInfo w' = JNull /\ hasDebugged w' = false /\
             currentProcessingAbortController w' = None /\
             ((c < List.length (controllers w))%nat -> aborted c w' = true).
Proof.
  unfold live. intros Hl Hc.
  destruct w as [wmw wview wpi wdbg wq wxq wpc wxc wcs wcr wev wrq].
  cbn in Hl, Hc. subst wmw wpc.
  destruct wxc as [c2|]; eexists; (split; [norm; reflexivity|]);
    unfold emitted, aborted; cbn [events problemInfo hasDebugged controllers
      currentProcessingAbortController List.length];
    (split; [apply skipn_length_app|]); repeat (split; [reflexivity|]);
    intros Hlt; rewrite ?nth_set_flag, ?length_set_flag, ?Nat.eqb_refl;
    apply Nat.ltb_lt in Hlt; rewrite Hlt; cbn; rewrite ?orb_true_r; reflexivity.
Qed.

(* ------------------------------------------------------------------ *)
(** *** The emitter of the renderer *)

Lemma listens_removes (f : ApiListener) : removes_from f = listens_on f.
Proof. destruct f; reflexivity. Qed.

Lemma existsb_fresh (ch : string) (s : nat) (ls : list Listener) :
  Forall (fun l => (subscription l < s)%nat) ls ->
  existsb (is_listener ch s) ls = false.
Proof.
  induction 1 as [|l ls Hl _ IH]; cbn; [reflexivity|].
  rewrite IH, orb_false_r. unfold is_listener.
  assert (Nat.eqb (subscription l) s = false) as E by (apply Nat.eqb_neq; lia).
  rewrite E. apply andb_false_r.
Qed.

Lemma remove_last_fresh (ch : string) (s : nat) (ls : list Listener) (l : Listener) :
  Forall (fun x => (subscription x < s)%nat) ls ->
  is_listener ch s l = true ->
  remove_last ch s (ls ++ [l])%list = ls.
Proof.
  intros Hfresh Hl. induction Hfresh as [|x ls Hx Hls IH]; cbn.
  - rewrite Hl. reflexivity.
  - rewrite existsb_app. cbn. rewrite Hl, orb_true_r. rewrite IH. reflexivity.
Qed.

(* ================================================================== *)
(** ** The record of a run *)
(* ================================================================== *)

Ltac step_atom_read a :=
  lazymatch a with
  | load_screenshots ?e ?p ?w =>
      let H := fresh "H" in
      let Hl := fresh "Hloaded" in
      destruct (load_screenshots_read e p w) as [[? [H Hl]]|[? [H Hl]]];
      rewrite H; clear H
  | _ => step_atom a
  end.

Ltac run_step_read :=
  norm;
  lazymatch goal with
  | |- exists w', ?run = _ /\ _ =>
      lazymatch run with
      | Ret _ _ => fail
      | Throw _ _ => fail
      | OutOfFuel => fail
      | _ => let a := blocker run in step_atom_read a
      end
  end.

Ltac observe_record :=
  unfold emitted, posted, extract_request, credit_event, with_debug; norm;
  rewrite <- ?app_assoc; rewrite ?skipn_length_app, ?skipn_all; try simp_abort;
  cbn.

Ltac close_record :=
  solve [ reflexivity | lia | rewrite ?Nat.eqb_refl; reflexivity
        | eexists; reflexivity | assumption | congruence
        | intros; discriminate
        | intros; first [left; reflexivity | right; cbn; auto 10] ].

Ltac use_images :=
  match goal with H : map data _ = _ |- _ => rewrite H end.

Ltac finish_record summary :=
  eexists; split; [reflexivity|];
  unfold summary; observe_record;
  repeat match goal with
         | H : ?b = _ |- context [if ?b then _ else _] => rewrite H
         end;
  repeat match goal with |- _ /\ _ => split; [close_record|] end;
  first [ left; solve [ reflexivity | repeat split; reflexivity ]
        | right; do 4 eexists; split; [eassumption|];
          split; [reflexivity|];
          split; [ use_images; reflexivity | first [assumption | reflexivity] ] ].

Ltac absurd_load :=
  match goal with
  | H : forall _, ~ loaded _ _ _, H' : loaded _ _ _ |- _ => exfalso; exact (H _ H')
  end.

Ltac close_unconfigured :=
  solve [ reflexivity
        | let shots := fresh "shots" in
          let Hs := fresh "Hs" in
          intros [shots Hs];
          first [ solve [cbn; auto 10]
                | exfalso;
                  match goal with
                  | H : forall _, ~ loaded _ _ _ |- _ => exact (H _ Hs)
                  end ] ].

Section Records.

Variable env : Env.

Lemma solve_recorded (fuel : nat) (w : World) (c : JsNumber)
      (s : string) (q : list string) :
  live w ->
  view w = ViewQueue ->
  screenshotQueue w = s :: q ->
  getCredits env w = Ret c w ->
  lt_one c = false ->
  creditsFault env = None ->
  CREDITS w = VNumber c ->
  exists w', processScreenshots env (S fuel) w = Ret tt w' /\ solve_record env w c w'.
Proof.
  unfold live. intros Hmw Hview Hq Hc Hlt Hfault Hcred.
  open_world w.
  norm. rewrite Hc. norm. rewrite Hlt.
  repeat run_step_read.
  all: finish_record solve_record.
Qed.

Lemma debug_recorded (fuel : nat) (w : World) (c : JsNumber)
      (s : string) (q : list string) :
  live w ->
  view w = ViewSolutions ->
  extraScreenshotQueue w = s :: q ->
  getCredits env w = Ret c w ->
  lt_one c = false ->
  creditsFault env = None ->
  CREDITS w = VNumber c ->
  exists w', processExtraScreenshots env (S fuel) w = Ret tt w'
             /\ debug_record env w c w'.
Proof.
  unfold live. intros Hmw Hview Hq Hc Hlt Hfault Hcred.
  open_world w.
  norm. rewrite Hc. norm. rewrite Hlt.
  repeat run_step_read.
  all: finish_record debug_record.
Qed.

Lemma debug_in_place_recorded (fuel : nat) (w : World) (c : JsNumber)
      (s : string) (q : list string) :
  live w ->
  view w <> ViewQueue ->
  extraScreenshotQueue w = s :: q ->
  getCredits env w = Ret c w ->
  lt_one c = false ->
  exists w', processScreenshots env (S fuel) w = Ret tt w'
             /\ debug_in_place_record env w w'.
Proof.
  unfold live. intros Hmw Hview Hq Hc Hlt.
  open_world w.
  norm. rewrite Hc. norm. rewrite Hlt.
  assert (View_eqb wview ViewQueue = false) as Hv
    by (destruct wview; [congruence | reflexivity | reflexivity]).
  change (match wview with ViewQueue => true | _ => false end)
    with (View_eqb wview ViewQueue).
  rewrite Hv.
  repeat run_step_read.
  all: finish_record debug_in_place_record.
Qed.

Lemma solve_unconfigured (fuel : nat) (w : World) (c : JsNumber)
      (s : string) (q : list string) :
  live w ->
  view w = ViewQueue ->
  screenshotQueue w = s :: q ->
  getCredits env w = Ret c w ->
  lt_one c = false ->
  apiKey env = None ->
  exists w', processScreenshots env (S fuel) w = Ret tt w'
             /\ unconfigured_record env w w'.
Proof.
  unfold live. intros Hmw Hview Hq Hc Hlt Hkey.
  open_world w.
  norm. rewrite Hc. norm. rewrite Hlt.
  repeat run_step_read.
  all: eexists; (split; [reflexivity|]);
    unfold unconfigured_record, stopped_record; observe_record;
    repeat split; close_unconfigured.
Qed.

Lemma solve_unreadable (fuel : nat) (w : World) (c : JsNumber)
      (s : string) (q : list string) :
  live w ->
  view w = ViewQueue ->
  screenshotQueue w = s :: q ->
  getCredits env w = Ret c w ->
  lt_one c = false ->
  (forall shots, ~ loaded env (s :: q) shots) ->
  exists w', processScreenshots env (S fuel) w = Ret tt w' /\ stopped_record w w'.
Proof.
  unfold live. intros Hmw Hview Hq Hc Hlt Hno.
  open_world w.
  norm. rewrite Hc. norm. rewrite Hlt.
  repeat (run_step_read; try absurd_load).
  all: eexists; (split; [reflexivity|]);
    unfold stopped_record; observe_record; repeat split; reflexivity.
Qed.

End Records.

Section Recorded.

Variable env : Env.

Lemma started_credits (w : World) (c : JsNumber) :
  getCredits env w = Ret c w -> lt_one c = false ->
  creditsFault env = None /\ CREDITS w = VNumber c.
Proof.
  intros Hc Hlt. destruct (getCredits_run env w) as [c' [Hc' Hcases]].
  rewrite Hc in Hc'. injection Hc' as <-.
  exact (lt_one_credits env w c Hlt Hcases).
Qed.

Lemma solve_run_recorded (fuel : nat) (w w' : World) :
  live w -> solve_starts env w ->
  processScreenshots env (S fuel) w = Ret tt w' ->
  exists c, getCredits env w = Ret c w /\ lt_one c = false /\
            CREDITS w = VNumber c /\
            solve_summary w c w' /\ solve_record env w c w'.
Proof.
  intros Hlive [Hview [Hq [c [Hc Hlt]]]] Hrun.
  destruct (started_credits w c Hc Hlt) as [Hfault Hcred].
  destruct (screenshotQueue w) as [|s q] eqn:Eq; [congruence|].
  destruct (solve_started env fuel w c s q Hlive Hview Eq Hc Hlt Hfault Hcred)
    as [w1 [H1 Hsum]].
  destruct (solve_recorded env fuel w c s q Hlive Hview Eq Hc Hlt Hfault Hcred)
    as [w2 [H2 Hrec]].
  rewrite Hrun in H1, H2. injection H1 as <-. injection H2 as <-.
  exists c. auto.
Qed.

Lemma debug_run_recorded (fuel : nat) (w w' : World) :
  live w -> debug_starts env w ->
  processExtraScreenshots env (S fuel) w = Ret tt w' ->
  exists c, getCredits env w = Ret c w /\ lt_one c = false /\
            CREDITS w = VNumber c /\
            debug_summary w c w' /\ debug_record env w c w'.
Proof.
  intros Hlive [Hview [Hq [c [Hc Hlt]]]] Hrun.
  destruct (started_credits w c Hc Hlt) as [Hfault Hcred].
  destruct (extraScreenshotQueue w) as [|s q] eqn:Eq; [congruence|].
  destruct (debug_started env fuel w c s q Hlive Hview Eq Hc Hlt Hfault Hcred)
    as [w1 [H1 Hsum]].
  destruct (debug_recorded env fuel w c s q Hlive Hview Eq Hc Hlt Hfault Hcred)
    as [w2 [H2 Hrec]].
  rewrite Hrun in H1, H2. injection H1 as <-. injection H2 as <-.
  exists c. auto.
Qed.

Lemma debug_in_place_run_recorded (fuel : nat) (w w' : World) :
  live w -> debug_in_place_starts env w ->
  processScreenshots env (S fuel) w = Ret tt w' ->
  debug_in_place_summary w w' /\ debug_in_place_record env w w'.
Proof.
  intros Hlive [Hview [Hq [c [Hc Hlt]]]] Hrun.
  destruct (extraScreenshotQueue w) as [|s q] eqn:Eq; [congruence|].
  destruct (debug_in_place_started env fuel w c s q Hlive Hview Eq Hc Hlt)
    as [w1 [H1 Hsum]].
  destruct (debug_in_place_recorded env fuel w c s q Hlive Hview Eq Hc Hlt)
    as [w2 [H2 Hrec]].
  rewrite Hrun in H1, H2. injection H1 as <-. injection H2 as <-.
  auto.
Qed.

(** What either entry point sends and posts, whatever the state it is
    called in. *)
Lemma processScreenshots_bounds (fuel : nat) (w w' : World) :
  live w ->
  processScreenshots env (S fuel) w = Ret tt w' ->
  forallb (if View_eqb (view w) ViewQueue then solve_run_event else debug_run_event)
          (emitted w w') = true /\
  forallb (carries (List.length (controllers w))) (posted w w') = true /\
  (List.length (posted w w') <= 2)%nat.
Proof.
  intros Hlive Hrun.
  destruct (View_eqb (view w) ViewQueue) eqn:Hv.
  - assert (view w = ViewQueue) as Hview
      by (destruct (view w); congruence || discriminate).
    destruct (solve_cases env fuel w Hlive Hview) as [c [w'' [Hc [Hrun' Hcases]]]].
    rewrite Hrun in Hrun'. injection Hrun' as <-.
    destruct Hcases as [[_ ->]|[[_ [_ ->]]|[Hlt [Hq [Hcred Hsum]]]]].
    + unfold out_of_credits, posted. rewrite emitted_set_events. cbn.
      rewrite skipn_all. cbn. auto.
    + unfold posted. rewrite emitted_set_events. cbn.
      rewrite skipn_all. cbn. auto.
    + assert (solve_starts env w) as Hstarts by (repeat split; eauto).
      destruct (solve_run_recorded fuel w w' Hlive Hstarts Hrun)
        as [c' [_ [_ [_ [_ Hrec]]]]].
      destruct Hrec as [_ [He [Hr [Hn _]]]].
      split; [|auto].
      revert He. apply forallb_weaken. intros e E.
      unfold solve_run_event. rewrite E. reflexivity.
  - assert (view w <> ViewQueue) as Hview
      by (intros E; rewrite E in Hv; discriminate).
    destruct (debug_in_place_cases env fuel w Hlive Hview)
      as [c [w'' [Hc [Hrun' Hcases]]]].
    rewrite Hrun in Hrun'. injection Hrun' as <-.
    destruct Hcases as [[_ ->]|[[_ [_ ->]]|[Hlt [Hq Hsum]]]].
    + unfold out_of_credits, posted. rewrite emitted_set_events. cbn.
      rewrite skipn_all. cbn. auto.
    + unfold posted. rewrite emitted_set_events. cbn.
      rewrite skipn_all. cbn. auto.
    + assert (debug_in_place_starts env w) as Hstarts by (repeat split; eauto).
      destruct (debug_in_place_run_recorded fuel w w' Hlive Hstarts Hrun)
        as [_ Hrec].
      destruct Hrec as [_ [He [Hr [Hn _]]]].
      split; [|auto].
      revert He. apply forallb_weaken. intros e E.
      unfold debug_run_event. rewrite E. reflexivity.
Qed.

Lemma processExtraScreenshots_bounds (fuel : nat) (w w' : World) :
  live w ->
  processExtraScreenshots env (S fuel) w = Ret tt w' ->
  forallb debug_run_event (emitted w w') = true /\
  forallb (carries (List.length (controllers w))) (posted w w') = true /\
  (List.length (posted w w') <= 2)%nat.
Proof.
  intros Hlive Hrun.
  destruct (debug_cases env fuel w Hlive) as [c [w'' [Hc [Hrun' Hcases]]]].
  rewrite Hrun in Hrun'. injection Hrun' as <-.
  destruct Hcases
    as [[_ ->]|[[_ [_ ->]]|[[_ [_ [_ ->]]]|[Hlt [Hv [Hq [Hcred Hsum]]]]]]].
  - unfold out_of_credits, posted. rewrite emitted_set_events. cbn.
    rewrite skipn_all. cbn. auto.
  - unfold posted. rewrite emitted_set_events. cbn.
    rewrite skipn_all. cbn. auto.
  - unfold posted. rewrite emitted_set_events. cbn.
    rewrite skipn_all. cbn. auto.
  - assert (debug_starts env w) as Hstarts by (repeat split; eauto).
    destruct (debug_run_recorded fuel w w' Hlive Hstarts Hrun)
      as [c' [_ [_ [_ [_ Hrec]]]]].
    destruct Hrec as [_ [He [Hr [Hn _]]]].
    split; [|auto].
    revert He. apply forallb_weaken. intros e E.
    unfold debug_run_event. rewrite E. reflexivity.
Qed.

Lemma nan_stored (w : World) :
  getCredits env w = Ret NaN w -> CREDITS w = VNumber NaN.
Proof.
  intros Hc. destruct (getCredits_run env w) as [c [Hc' Hcases]].
  rewrite Hc in Hc'. injection Hc' as <-.
  destruct Hcases as [E|[_ E]]; [discriminate | exact E].
Qed.

End Recorded.

(* ================================================================== *)
(** ** Further properties of the code *)
(* ================================================================== *)

(* ------------------------------------------------------------------ *)
(** *** The client *)

(** X1.  A fenced block wins over everything around it.  When the reply
    holds an opening fence after a text without backtick, and the text up
    to the next closing fence is not empty, [processImages] parses that
    text and nothing else, whatever precedes and follows the block; when
    it cannot be parsed, or when the block is empty, the degraded record
    is returned. *)
Theorem fenced_block_is_parsed (pre inner post : string) :
  occurs backtick pre = false ->
  mentions fence_close inner = false ->
  let responseText := pre ++ fence_open ++ inner ++ fence_close ++ post in
  (inner <> "" ->
   json_candidate responseText = inner /\
   processImages_parse responseText
     = match JSON_parse inner with
       | Normal problem => Normal problem
       | Abrupt _ => Normal (degraded_problem responseText)
       end) /\
  (inner = "" ->
   processImages_parse responseText = Normal (degraded_problem responseText)).
Proof.
  intros Hpre Hinner responseText.
  assert (match_fenced responseText
          = Some {| whole := fence_open ++ inner ++ fence_close;
                    group1 := Some inner |}) as Hm.
  { unfold match_fenced, responseText.
    rewrite (find_first_open pre _ Hpre).
    rewrite (find_first_close inner post (mentions_false _ _ Hinner)).
    reflexivity. }
  split.
  - intros Hne.
    assert (json_candidate responseText = inner) as Hc.
    { unfold json_candidate. rewrite Hm. cbn.
      destruct inner; [congruence | reflexivity]. }
    split; [exact Hc|].
    unfold processImages_parse, try_pure. rewrite Hc.
    destruct (JSON_parse inner); reflexivity.
  - intros ->.
    unfold processImages_parse, try_pure, json_candidate. rewrite Hm.
    cbn [match_or group1 whole or_else].
    reflexivity.
Qed.

Lemma fenced_block_is_parsed_witness :
  json_candidate ("Here is the problem: {draft}" ++ fence_open ++ "{}" ++ fence_close
                    ++ " I hope {this} helps.") = "{}".
Proof.
  destruct (fenced_block_is_parsed "Here is the problem: {draft}" "{}"
              " I hope {this} helps." eq_refl eq_refl) as [H _].
  apply H. discriminate.
Defined.

(** X2.  Without a fence, the candidate is the text from the first opening
    brace to the last closing brace: what precedes an object and what
    follows it is dropped, and [processImages] parses the object, or
    returns the degraded record when it cannot be parsed. *)
Theorem text_around_an_object_is_dropped (pre body post : string) :
  let object := String open_brace (body ++ String close_brace "") in
  let responseText := pre ++ object ++ post in
  occurs open_brace pre = false ->
  occurs close_brace post = false ->
  mentions fence_open responseText = false ->
  json_candidate responseText = object /\
  processImages_parse responseText
    = match JSON_parse object with
      | Normal problem => Normal problem
      | Abrupt _ => Normal (degraded_problem responseText)
      end.
Proof.
  intros object responseText Hpre Hpost Hfence.
  assert (json_candidate responseText = object) as Hc.
  { unfold json_candidate, match_fenced, match_braces.
    rewrite (mentions_false _ _ Hfence). cbn [match_or].
    unfold responseText, object. cbn [append].
    rewrite (from_first_brace_after pre _ Hpre).
    assert (String open_brace ((body ++ String close_brace "") ++ post)
            = String open_brace body ++ String close_brace post) as E.
    { cbn [append]. f_equal. rewrite string_app_assoc. reflexivity. }
    rewrite E, (through_last_brace_before _ post Hpost). reflexivity. }
  split; [exact Hc|].
  unfold processImages_parse, try_pure. rewrite Hc.
  destruct (JSON_parse object); reflexivity.
Qed.

Lemma text_around_an_object_is_dropped_witness :
  json_candidate "Either {1} or {2}, I think" = "{1} or {2}" /\
  processImages_parse "Either {1} or {2}, I think"
    = Normal (degraded_problem "Either {1} or {2}, I think").
Proof.
  exact (text_around_an_object_is_dropped "Either " "1} or {2" ", I think"
           eq_refl eq_refl eq_refl).
Defined.

(** X3.  [generateResponse] never throws an error that [axios.isCancel]
    recognises: the cancellation of a request reaches the caller as a
    plain error.  With a key set and the signal already aborted, this
    error is "Request was cancelled". *)
Theorem gateway_never_throws_a_cancel (env : Env) (prompt : Prompt)
        (options : Options) (pending : AwaitPoint) (w : World) :
  (forall e w', generateResponse env prompt options pending w = Throw e w' ->
                isCancel e = false) /\
  (forall k, apiKey env = Some k ->
             signal_aborted (signal options) w = true ->
             exists w', generateResponse env prompt options pending w
                        = Throw (Error "Request was cancelled") w' /\
                        events w' = events w).
Proof.
  split.
  - intros e w'. unfold generateResponse.
    destruct (apiKey env) as [k|].
    + unfold try_catch.
      match goal with
      | |- match ?body w with _ => _ end = _ -> _ =>
          destruct (body w) as [a w1|e0 w1|]
      end; try discriminate.
      unfold throw. intros H. injection H as <- _.
      apply generateResponse_error_is_no_cancel.
    + unfold throw. intros H. injection H as <- _. reflexivity.
  - intros k Hk Hab. unfold generateResponse. rewrite Hk.
    unfold try_catch, axios_post, bind, gets, modify. cbn [req_signal].
    assert (forall rs, signal_aborted (signal options) (set_requests rs w) = true)
      as Hab' by (intros rs; exact Hab).
    rewrite Hab'. eexists. split; reflexivity.
Qed.

(* ------------------------------------------------------------------ *)
(** *** The renderer's globals *)

(** X4.  [waitForInitialization] polls the renderer at most 50 times.  It
    returns at the first poll that is answered with a truthy value, throws
    what the first failing poll throws, and throws "App failed to
    initialize after 5 seconds" when 50 polls were answered with a falsy
    value; it leaves the state as it is. *)
Theorem waitForInitialization_polls (env : Env) (w : World) :
  (exists k v, (k < 50)%nat /\ falsy_before env k /\
               isInitialized env k = Normal v /\ js_truthy v = true /\
               waitForInitialization env w = Ret tt w)
  \/ (exists k e, (k < 50)%nat /\ falsy_before env k /\
                  isInitialized env k = Abrupt e /\
                  waitForInitialization env w = Throw e w)
  \/ (falsy_before env 50 /\
      waitForInitialization env w
        = Throw (Error "App failed to initialize after 5 seconds") w).
Proof.
  unfold waitForInitialization, maxAttempts.
  assert (falsy_before env 0) as H0 by (intros i Hi; lia).
  destruct (waitForInitialization_loop_polls env 50 0 w H0)
    as [[k [v [Hk H]]]|[[k [e [Hk H]]]|H]].
  - left. exists k, v. split; [lia | exact H].
  - right; left. exists k, e. split; [lia | exact H].
  - right; right. exact H.
Qed.

(** X5.  [getLanguage] and [getAuthToken] never throw and leave the state
    as it is.  [getLanguage] returns the string the renderer holds, be it
    empty, and "python" in every other case; [getAuthToken] returns the
    value the renderer holds when it is truthy, and [null] in every other
    case. *)
Theorem renderer_globals_default (env : Env) (w : World)
        (AUTH_TOKEN : Completion JsVal) :
  (exists language,
     getLanguage env w = Ret language w /\
     (language = "python" \/
      (ready env w /\ LANGUAGE env = Normal (VString language))) /\
     (ready env w -> forall s, LANGUAGE env = Normal (VString s) -> language = s)) /\
  (exists token,
     getAuthToken env AUTH_TOKEN w = Ret token w /\
     (token = VNull \/
      (ready env w /\ AUTH_TOKEN = Normal token /\ js_truthy token = true)) /\
     (ready env w -> forall t, AUTH_TOKEN = Normal t -> js_truthy t = true ->
                     token = t)).
Proof.
  unfold ready. split.
  - unfold getLanguage, getMainWindow, gets, bind, try_catch.
    destruct (mainWindow w) as [mw|].
    2:{ eexists. split; [reflexivity|]. split; [auto|]. intros [H _]. congruence. }
    unfold waitForInitialization.
    destruct (waitForInitialization_loop_run env maxAttempts 0 w) as [H|[e H]];
      rewrite H.
    2:{ eexists. split; [reflexivity|]. split; [auto|]. intros [_ H']. discriminate. }
    unfold lift. destruct (LANGUAGE env) as [v|e]; cbn.
    2:{ eexists. split; [reflexivity|]. split; [auto|]. intros _ s Hs. discriminate. }
    destruct v; (eexists; split; [reflexivity|]);
      (split; [|intros _ s' Hs; congruence]); auto.
    right. repeat split; auto. discriminate.
  - unfold getAuthToken, getMainWindow, gets, bind, try_catch.
    destruct (mainWindow w) as [mw|].
    2:{ eexists. split; [reflexivity|]. split; [auto|]. intros [H _]. congruence. }
    unfold waitForInitialization.
    destruct (waitForInitialization_loop_run env maxAttempts 0 w) as [H|[e H]];
      rewrite H.
    2:{ eexists. split; [reflexivity|]. split; [auto|]. intros [_ H']. discriminate. }
    unfold lift. destruct AUTH_TOKEN as [t|e]; cbn.
    2:{ eexists. split; [reflexivity|]. split; [auto|]. intros _ t Ht. discriminate. }
    destruct (js_truthy t) eqn:T; cbn;
      (eexists; split; [reflexivity|]);
      (split; [|intros _ t' Ht Ht'; congruence]); auto.
    right. repeat split; auto. discriminate.
Qed.

(* ------------------------------------------------------------------ *)
(** *** The solve pipeline *)





(** X8.  The solve pipeline never closes its controller.  After a solve
    run that started and was not cancelled, the controller is still set,
    so that [cancelOngoingRequests] aborts it, sends [NO_SCREENSHOTS] and
    clears the problem record although no request is pending. *)
Theorem finished_solve_leaves_token_open (env : Env) (fuel : nat) (w w' : World) :
  live w ->
  solve_starts env w ->
  processScreenshots env (S fuel) w = Ret tt w' ->
  aborted (List.length (controllers w)) w' = false ->
  currentProcessingAbortController w' = Some (List.length (controllers w)) /\
  exists w'',
    cancelOngoingRequests w' = Ret tt w'' /\
    emitted w' w'' = [NO_SCREENSHOTS] /\
    aborted (List.length (controllers w)) w'' = true /\
    problemInfo w'' = JNull.
Proof.
  intros Hlive Hstarts Hrun Hna.
  destruct (solve_run_recorded env fuel w w' Hlive Hstarts Hrun)
    as [c [_ [_ [_ [Hsum Hrec]]]]].
  destruct Hsum as [Hmw _].
  destruct Hrec as [_ [_ [_ [_ [Hpc [_ [_ [Hcs _]]]]]]]].
  rewrite Hna in Hpc. split; [exact Hpc|].
  assert (live w') as Hlive' by (apply (live_preserved w); assumption).
  destruct (cancel_open w' _ Hlive' Hpc) as [w'' [Hc [He [Hp [_ [_ Hab]]]]]].
  exists w''. repeat split; auto.
  apply Hab. rewrite (Hcs Hna), length_app. cbn. lia.
Qed.

Lemma finished_solve_leaves_token_open_witness :
  currentProcessingAbortController (final (processScreenshots calm 1 fresh) fresh)
    = Some 0%nat /\
  exists w'',
    cancelOngoingRequests (final (processScreenshots calm 1 fresh) fresh)
      = Ret tt w'' /\
    emitted (final (processScreenshots calm 1 fresh) fresh) w'' = [NO_SCREENSHOTS] /\
    aborted 0 w'' = true /\
    problemInfo w'' = JNull.
Proof.
  apply (finished_solve_leaves_token_open calm 0 fresh
           (final (processScreenshots calm 1 fresh) fresh)).
  - reflexivity.
  - split; [reflexivity|]. split; [discriminate|].
    exists (Num 3). split; reflexivity.
  - vm_compute. reflexivity.
  - vm_compute. reflexivity.
Defined.

(** X9.  Without an API key a solve run that started posts nothing and
    sends exactly one [INITIAL_SOLUTION_ERROR], no [PROBLEM_EXTRACTED] and
    no [SOLUTION_SUCCESS]; view and credits are as before.  When the
    screenshots can be read, the error is the configuration message. *)
Theorem missing_key_is_reported_once (env : Env) (fuel : nat) (w w' : World) :
  live w ->
  solve_starts env w ->
  isConfigured env = false ->
  processScreenshots env (S fuel) w = Ret tt w' ->
  posted w w' = [] /\
  count is_INITIAL_SOLUTION_ERROR (emitted w w') = 1%nat /\
  count is_PROBLEM_EXTRACTED (emitted w w') = 0%nat /\
  count is_SOLUTION_SUCCESS (emitted w w') = 0%nat /\
  view w' = view w /\ CREDITS w' = CREDITS w /\
  ((exists shots, loaded env (screenshotQueue w) shots) ->
   In (INITIAL_SOLUTION_ERROR not_configured) (emitted w w')).
Proof.
  intros Hlive [Hview [Hq [c [Hc Hlt]]]] Hkey Hrun.
  destruct (screenshotQueue w) as [|s q] eqn:Eq; [congruence|].
  destruct (solve_unconfigured env fuel w c s q Hlive Hview Eq Hc Hlt
              (not_configured_no_key env Hkey)) as [w1 [H1 Hrec]].
  rewrite Hrun in H1. injection H1 as <-.
  destruct Hrec as [[H1 [H2 [H3 [H4 [H5 H6]]]]] H7].
  rewrite Eq in H7. auto 10.
Qed.

Lemma missing_key_is_reported_once_witness :
  posted fresh (final (processScreenshots keyless 1 fresh) fresh) = [] /\
  count is_INITIAL_SOLUTION_ERROR
    (emitted fresh (final (processScreenshots keyless 1 fresh) fresh)) = 1%nat.
Proof.
  destruct (missing_key_is_reported_once keyless 0 fresh
              (final (processScreenshots keyless 1 fresh) fresh))
    as [H1 [H2 _]].
  - reflexivity.
  - split; [reflexivity|]. split; [discriminate|].
    exists (Num 3). split; reflexivity.
  - reflexivity.
  - vm_compute. reflexivity.
  - auto.
Defined.

(** X10.  When a screenshot of the queue cannot be read, a solve run that
    started posts nothing and sends exactly one [INITIAL_SOLUTION_ERROR],
    no [PROBLEM_EXTRACTED] and no [SOLUTION_SUCCESS]; view and credits are
    as before. *)
Theorem unreadable_screenshot_is_reported_once (env : Env) (fuel : nat)
        (w w' : World) (p : string) (e : JsError) :
  live w ->
  solve_starts env w ->
  In p (screenshotQueue w) ->
  getImagePreview env p = Abrupt e \/ readFileSync env p = Abrupt e ->
  processScreenshots env (S fuel) w = Ret tt w' ->
  posted w w' = [] /\
  count is_INITIAL_SOLUTION_ERROR (emitted w w') = 1%nat /\
  count is_PROBLEM_EXTRACTED (emitted w w') = 0%nat /\
  count is_SOLUTION_SUCCESS (emitted w w') = 0%nat /\
  view w' = view w /\ CREDITS w' = CREDITS w.
Proof.
  intros Hlive [Hview [Hq [c [Hc Hlt]]]] Hin Hfail Hrun.
  pose proof (unreadable_path env _ p e Hin Hfail) as Hno.
  destruct (screenshotQueue w) as [|s q] eqn:Eq; [congruence|].
  destruct (solve_unreadable env fuel w c s q Hlive Hview Eq Hc Hlt Hno)
    as [w1 [H1 Hrec]].
  rewrite Hrun in H1. injection H1 as <-. exact Hrec.
Qed.

Lemma unreadable_screenshot_is_reported_once_witness :
  posted fresh (final (processScreenshots unreadable 1 fresh) fresh) = [] /\
  count is_INITIAL_SOLUTION_ERROR
    (emitted fresh (final (processScreenshots unreadable 1 fresh) fresh)) = 1%nat.
Proof.
  destruct (unreadable_screenshot_is_reported_once unreadable 0 fresh
              (final (processScreenshots unreadable 1 fresh) fresh)
              "problem.png" (Error "ENOENT: no such file or directory"))
    as [H1 [H2 _]].
  - reflexivity.
  - split; [reflexivity|]. split; [discriminate|].
    exists (Num 3). split; reflexivity.
  - left. reflexivity.
  - right. reflexivity.
  - vm_compute. reflexivity.
  - auto.
Defined.

(* ------------------------------------------------------------------ *)
(** *** The debug pipeline *)





(** X13.  After a run of [processExtraScreenshots] that succeeded the view
    is the debug view, so that a second run is refused: it sends
    [DEBUG_START] (or [OUT_OF_CREDITS] when the last credit was spent) and
    returns, posting nothing and leaving the problem record and the view as
    they are. *)
Theorem second_debug_is_refused (env : Env) (fuel fuel' : nat) (w w1 : World)
        (d : Json) :
  live w ->
  processExtraScreenshots env (S fuel) w = Ret tt w1 ->
  In (DEBUG_SUCCESS d) (emitted w w1) ->
  view w1 = ViewDebug /\
  exists w2,
    processExtraScreenshots env (S fuel') w1 = Ret tt w2 /\
    (emitted w1 w2 = [DEBUG_START] \/ emitted w1 w2 = [OUT_OF_CREDITS]) /\
    requests w2 = requests w1 /\
    problemInfo w2 = problemInfo w1 /\
    view w2 = ViewDebug.
Proof.
  intros Hlive Hrun Hin.
  destruct (debug_cases env fuel w Hlive) as [c [w'' [Hc [Hrun' Hcases]]]].
  rewrite Hrun in Hrun'. injection Hrun' as <-.
  destruct Hcases
    as [[_ ->]|[[_ [_ ->]]|[[_ [_ [_ ->]]]|[Hlt [Hv [Hq [Hcred Hsum]]]]]]].
  - unfold out_of_credits in Hin. rewrite emitted_set_events in Hin.
    cbn in Hin. intuition discriminate.
  - rewrite emitted_set_events in Hin. cbn in Hin. intuition discriminate.
  - rewrite emitted_set_events in Hin. cbn in Hin. intuition discriminate.
  - destruct Hsum as [Hmw [_ [_ [Hok|Hf]]]].
    2:{ exfalso. destruct Hf as [H0 _].
        exact (count_zero_not_In is_DEBUG_SUCCESS (DEBUG_SUCCESS d) _ H0 eq_refl Hin). }
    destruct Hok as [_ [_ [Hv1 _]]].
    split; [exact Hv1|].
    assert (live w1) as Hlive1 by (apply (live_preserved w); assumption).
    destruct (debug_cases env fuel' w1 Hlive1) as [c2 [w2 [Hc2 [Hrun2 Hcases2]]]].
    exists w2. split; [exact Hrun2|].
    destruct Hcases2
      as [[_ ->]|[[_ [_ ->]]|[[_ [Hv2 _]]|[_ [Hv2 _]]]]]; try congruence.
    + unfold out_of_credits. rewrite emitted_set_events. cbn. auto.
    + rewrite emitted_set_events. cbn. auto.
Qed.

Lemma second_debug_is_refused_witness :
  view (final (processExtraScreenshots calm 1 solved) solved) = ViewDebug /\
  exists w2,
    processExtraScreenshots calm 1 (final (processExtraScreenshots calm 1 solved) solved)
      = Ret tt w2 /\
    requests w2 = requests (final (processExtraScreenshots calm 1 solved) solved).
Proof.
  destruct (second_debug_is_refused calm 0 0 solved
              (final (processExtraScreenshots calm 1 solved) solved)
              (JObject [("debug_solution", JString "def two_sum(nums, target): ...");
                        ("language", JString "python")]))
    as [Hv [w2 [Hrun [_ [Hreq _]]]]].
  - reflexivity.
  - vm_compute. reflexivity.
  - vm_compute. right. left. reflexivity.
  - split; [exact Hv|]. exists w2. auto.
Defined.

(** X14.  The two entry points treat the debug controller differently.
    From a state in which a debug run starts, [processScreenshots] always
    ends with the debug controller cleared, while [processExtraScreenshots]
    clears it only when the run was cancelled: otherwise the controller of
    the finished run stays set. *)
Theorem debug_token_lifecycle (env : Env) (fuel : nat) (w w1 w2 : World) :
  live w ->
  debug_starts env w ->
  processScreenshots env (S fuel) w = Ret tt w1 ->
  processExtraScreenshots env (S fuel) w = Ret tt w2 ->
  currentExtraProcessingAbortController w1 = None /\
  currentExtraProcessingAbortController w2
    = (if aborted (List.length (controllers w)) w2 then None
       else Some (List.length (controllers w))).
Proof.
  intros Hlive Hstarts Hrun1 Hrun2.
  assert (debug_in_place_starts env w) as Hstarts'.
  { destruct Hstarts as [Hv [Hq Hc]]. split; [|split; assumption].
    rewrite Hv. discriminate. }
  destruct (debug_in_place_run_recorded env fuel w w1 Hlive Hstarts' Hrun1)
    as [_ Hrec1].
  destruct (debug_run_recorded env fuel w w2 Hlive Hstarts Hrun2)
    as [c [_ [_ [_ [_ Hrec2]]]]].
  destruct Hrec1 as [_ [_ [_ [_ [H1 _]]]]].
  destruct Hrec2 as [_ [_ [_ [_ [H2 _]]]]].
  auto.
Qed.

Lemma debug_token_lifecycle_witness :
  currentExtraProcessingAbortController (final (processScreenshots calm 1 solved) solved)
    = None /\
  currentExtraProcessingAbortController
    (final (processExtraScreenshots calm 1 solved) solved) = Some 0%nat.
Proof.
  destruct (debug_token_lifecycle calm 0 solved
              (final (processScreenshots calm 1 solved) solved)
              (final (processExtraScreenshots calm 1 solved) solved))
    as [H1 H2].
  - reflexivity.
  - split; [reflexivity|]. split; [discriminate|].
    exists (Num 3). split; reflexivity.
  - vm_compute. reflexivity.
  - vm_compute. reflexivity.
  - split; [exact H1|]. rewrite H2. reflexivity.
Defined.

(* ------------------------------------------------------------------ *)
(** *** Both pipelines *)

(** X15.  With a live window, a run of [processScreenshots] sends only the
    events of its pipeline (the solve events in the queue view, the debug
    events in every other view) or [OUT_OF_CREDITS], and a run of
    [processExtraScreenshots] only debug events or [OUT_OF_CREDITS]:
    neither ever sends [UNAUTHORIZED] or [RESET]. *)
Theorem runs_send_their_own_events (env : Env) (fuel : nat) (w w1 w2 : World) :
  live w ->
  processScreenshots env (S fuel) w = Ret tt w1 ->
  processExtraScreenshots env (S fuel) w = Ret tt w2 ->
  forallb (if View_eqb (view w) ViewQueue then solve_run_event else debug_run_event)
          (emitted w w1) = true /\
  forallb debug_run_event (emitted w w2) = true /\
  ~ In UNAUTHORIZED (emitted w w1) /\ ~ In UNAUTHORIZED (emitted w w2) /\
  ~ In RESET (emitted w w1) /\ ~ In RESET (emitted w w2).
Proof.
  intros Hlive Hrun1 Hrun2.
  destruct (processScreenshots_bounds env fuel w w1 Hlive Hrun1) as [H1 _].
  destruct (processExtraScreenshots_bounds env fuel w w2 Hlive Hrun2) as [H2 _].
  split; [exact H1|]. split; [exact H2|].
  repeat split.
  - apply (In_forallb_false _ _ _ H1). destruct (View_eqb _ _); reflexivity.
  - apply (In_forallb_false _ _ _ H2). reflexivity.
  - apply (In_forallb_false _ _ _ H1). destruct (View_eqb _ _); reflexivity.
  - apply (In_forallb_false _ _ _ H2). reflexivity.
Qed.

Lemma runs_send_their_own_events_witness :
  forallb solve_run_event
    (emitted fresh (final (processScreenshots overloaded 1 fresh) fresh)) = true /\
  forallb debug_run_event
    (emitted fresh (final (processExtraScreenshots overloaded 1 fresh) fresh)) = true.
Proof.
  destruct (runs_send_their_own_events overloaded 0 fresh
              (final (processScreenshots overloaded 1 fresh) fresh)
              (final (processExtraScreenshots overloaded 1 fresh) fresh))
    as [H1 [H2 _]].
  - reflexivity.
  - vm_compute. reflexivity.
  - vm_compute. reflexivity.
  - split; [exact H1 | exact H2].
Defined.

(** X16.  With a live window, a run of either entry point posts at most two
    requests, and every request it posts carries the signal of the
    controller the run created. *)
Theorem runs_post_at_most_two_requests (env : Env) (fuel : nat) (w w1 w2 : World) :
  live w ->
  processScreenshots env (S fuel) w = Ret tt w1 ->
  processExtraScreenshots env (S fuel) w = Ret tt w2 ->
  (List.length (posted w w1) <= 2)%nat /\
  (List.length (posted w w2) <= 2)%nat /\
  (forall r, In r (posted w w1) \/ In r (posted w w2) ->
             req_signal r = Some (List.length (controllers w))).
Proof.
  intros Hlive Hrun1 Hrun2.
  destruct (processScreenshots_bounds env fuel w w1 Hlive Hrun1) as [_ [H1 N1]].
  destruct (processExtraScreenshots_bounds env fuel w w2 Hlive Hrun2)
    as [_ [H2 N2]].
  repeat split; auto.
  rewrite forallb_forall in H1, H2.
  intros r [Hr|Hr]; [apply H1 in Hr | apply H2 in Hr];
    unfold carries in Hr; destruct (req_signal r) as [c|]; try discriminate;
    apply Nat.eqb_eq in Hr; congruence.
Qed.

Lemma runs_post_at_most_two_requests_witness :
  (List.length (posted solved (final (processScreenshots calm 1 solved) solved))
   <= 2)%nat /\
  (List.length (posted solved (final (processExtraScreenshots calm 1 solved) solved))
   <= 2)%nat.
Proof.
  destruct (runs_post_at_most_two_requests calm 0 solved
              (final (processScreenshots calm 1 solved) solved)
              (final (processExtraScreenshots calm 1 solved) solved))
    as [H1 [H2 _]].
  - reflexivity.
  - vm_compute. reflexivity.
  - vm_compute. reflexivity.
  - split; [exact H1 | exact H2].
Defined.

(** X17.  A counter that holds [NaN] is never out of credits and is never
    charged.  When [getCredits] returns [NaN], neither entry point sends
    [OUT_OF_CREDITS], and whatever the run does, the counter is [NaN]
    afterwards and no [credits-updated] is sent. *)
Theorem nan_credits_are_never_charged (env : Env) (fuel : nat) (w w1 w2 : World) :
  live w ->
  getCredits env w = Ret NaN w ->
  processScreenshots env (S fuel) w = Ret tt w1 ->
  processExtraScreenshots env (S fuel) w = Ret tt w2 ->
  ~ In OUT_OF_CREDITS (emitted w w1) /\ ~ In OUT_OF_CREDITS (emitted w w2) /\
  CREDITS w1 = VNumber NaN /\ CREDITS w2 = VNumber NaN /\
  count is_CREDITS_UPDATED (emitted w w1) = 0%nat /\
  count is_CREDITS_UPDATED (emitted w w2) = 0%nat.
Proof.
  intros Hlive Hnan Hrun1 Hrun2.
  pose proof (nan_stored env w Hnan) as Hcred.
  assert (~ In OUT_OF_CREDITS (emitted w w1) /\ CREDITS w1 = VNumber NaN /\
          count is_CREDITS_UPDATED (emitted w w1) = 0%nat) as H1.
  { destruct (View_eqb (view w) ViewQueue) eqn:Hv.
    - assert (view w = ViewQueue) as Hview
        by (destruct (view w); congruence || discriminate).
      destruct (solve_cases env fuel w Hlive Hview) as [c [w'' [Hc [Hrun' Hcases]]]].
      rewrite Hrun1 in Hrun'. injection Hrun' as <-.
      rewrite Hnan in Hc. injection Hc as <-.
      destruct Hcases as [[Hlt _]|[[_ [_ ->]]|[Hlt [Hq [_ Hsum]]]]];
        [discriminate Hlt | |].
      + rewrite emitted_set_events. cbn. intuition discriminate.
      + assert (solve_starts env w) as Hstarts by (repeat split; eauto).
        destruct (solve_run_recorded env fuel w w1 Hlive Hstarts Hrun1)
          as [c' [_ [_ [_ [_ Hrec]]]]].
        destruct Hrec as [_ [He _]].
        split; [apply (In_forallb_false _ _ _ He); reflexivity|].
        destruct Hsum as [_ [_ [Hs|Hf]]].
        * destruct Hs as [_ [_ [_ [_ [Hcr [Hup _]]]]]]. auto.
        * destruct Hf as [_ [_ [_ [Hcr [_ [Hup _]]]]]]. rewrite Hcr. auto.
    - assert (view w <> ViewQueue) as Hview
        by (intros E; rewrite E in Hv; discriminate).
      destruct (debug_in_place_cases env fuel w Hlive Hview)
        as [c [w'' [Hc [Hrun' Hcases]]]].
      rewrite Hrun1 in Hrun'. injection Hrun' as <-.
      rewrite Hnan in Hc. injection Hc as <-.
      destruct Hcases as [[Hlt _]|[[_ [_ ->]]|[Hlt [Hq Hsum]]]];
        [discriminate Hlt | |].
      + rewrite emitted_set_events. cbn. intuition discriminate.
      + assert (debug_in_place_starts env w) as Hstarts by (repeat split; eauto).
        destruct (debug_in_place_run_recorded env fuel w w1 Hlive Hstarts Hrun1)
          as [_ Hrec].
        destruct Hrec as [_ [He _]].
        split; [apply (In_forallb_false _ _ _ He); reflexivity|].
        destruct Hsum as [_ [_ [_ [_ [Hcr [Hup _]]]]]]. rewrite Hcr. auto. }
  assert (~ In OUT_OF_CREDITS (emitted w w2) /\ CREDITS w2 = VNumber NaN /\
          count is_CREDITS_UPDATED (emitted w w2) = 0%nat) as H2.
  { destruct (debug_cases env fuel w Hlive) as [c [w'' [Hc [Hrun' Hcases]]]].
    rewrite Hrun2 in Hrun'. injection Hrun' as <-.
    rewrite Hnan in Hc. injection Hc as <-.
    destruct Hcases
      as [[Hlt _]|[[_ [_ ->]]|[[_ [_ [_ ->]]]|[Hlt [Hv [Hq [_ Hsum]]]]]]];
      [discriminate Hlt | | |].
    - rewrite emitted_set_events. cbn. intuition discriminate.
    - rewrite emitted_set_events. cbn. intuition discriminate.
    - assert (debug_starts env w) as Hstarts by (repeat split; eauto).
      destruct (debug_run_recorded env fuel w w2 Hlive Hstarts Hrun2)
        as [c' [_ [_ [_ [_ Hrec]]]]].
      destruct Hrec as [_ [He _]].
      split; [apply (In_forallb_false _ _ _ He); reflexivity|].
      destruct Hsum as [_ [_ [_ [Hs|Hf]]]].
      + destruct Hs as [_ [_ [_ [_ [Hcr [Hup _]]]]]]. auto.
      + destruct Hf as [_ [_ [_ [Hcr [Hup _]]]]]. rewrite Hcr. auto. }
  tauto.
Qed.

Lemma nan_credits_are_never_charged_witness :
  In (SOLUTION_SUCCESS (JObject [("solution", JString "def two_sum(nums, target): ...");
                                 ("language", JString "python")]))
     (emitted uncounted (final (processScreenshots calm 1 uncounted) uncounted)) /\
  CREDITS (final (processScreenshots calm 1 uncounted) uncounted) = VNumber NaN /\
  count is_CREDITS_UPDATED
    (emitted uncounted (final (processScreenshots calm 1 uncounted) uncounted))
    = 0%nat.
Proof.
  destruct (nan_credits_are_never_charged calm 0 uncounted
              (final (processScreenshots calm 1 uncounted) uncounted)
              (final (processExtraScreenshots calm 1 uncounted) uncounted))
    as [_ [_ [H1 [_ [H2 _]]]]].
  - reflexivity.
  - reflexivity.
  - vm_compute. reflexivity.
  - vm_compute. reflexivity.
  - split; [vm_compute; right; right; left; reflexivity|].
    split; [exact H1 | exact H2].
Defined.

(** X18.  Cancelling twice changes nothing more: [cancelOngoingRequests]
    always returns, and a second call right after it returns the same
    state, sending no event. *)
Theorem cancelling_twice_changes_nothing_more (w : World) :
  exists w1,
    cancelOngoingRequests w = Ret tt w1 /\
    cancelOngoingRequests w1 = Ret tt w1.
Proof.
  destruct w as [wmw wview wpi wdbg wq wxq wpc wxc wcs wcr wev wrq].
  destruct wmw as [[[|]]|], wpc as [c1|], wxc as [c2|];
    eexists; split; norm; reflexivity.
Qed.

(* ------------------------------------------------------------------ *)
(** *** The handlers *)

(** X19.  What [set-initial-credits] stores is what [getCredits] reads:
    with a window whose renderer is initialised and a readable counter,
    the handler followed by [getCredits] returns the number that was set,
    [NaN] included, having stored it and sent one [credits-updated] with
    it. *)
Theorem set_initial_credits_is_read_back (env : Env) (w : World)
        (credits : JsNumber) :
  ready env w ->
  creditsFault env = None ->
  bind (set_initial_credits credits) (fun _ => getCredits env) w
    = Ret credits
          (set_events (events w ++ [CREDITS_UPDATED credits])%list
                      (set_CREDITS (VNumber credits) w)).
Proof.
  intros [Hmw Hready] Hfault.
  destruct (mainWindow w) as [mw|] eqn:E; [|congruence].
  set (w1 := set_events (events w ++ [CREDITS_UPDATED credits])%list
                        (set_CREDITS (VNumber credits) w)).
  assert (set_initial_credits credits w = Ret tt w1) as H1.
  { unfold set_initial_credits, bind, getMainWindow, gets, try_catch, modify, send.
    rewrite E. reflexivity. }
  unfold bind at 1. rewrite H1.
  unfold getCredits, bind, getMainWindow, gets, try_catch.
  change (mainWindow w1) with (mainWindow w). rewrite E.
  rewrite (waitForInitialization_anywhere env w w1 Hready).
  unfold read_CREDITS. rewrite Hfault. reflexivity.
Qed.

Lemma set_initial_credits_is_read_back_witness :
  bind (set_initial_credits (Num 5)) (fun _ => getCredits calm) fresh
    = Ret (Num 5)
          (set_events [CREDITS_UPDATED (Num 5)] (set_CREDITS (VNumber (Num 5)) fresh)).
Proof.
  apply (set_initial_credits_is_read_back calm fresh (Num 5)).
  - split; [discriminate | reflexivity].
  - reflexivity.
Defined.



(** X21.  [get-screenshots] never throws and leaves the state as it is.
    It answers with one preview per path of the queue on display (the main
    queue in the queue view, the extra queue in every other view), in the
    order of the queue, and with "Failed to get screenshots" as soon as the
    preview of one of these paths cannot be made. *)
Theorem get_screenshots_lists_the_shown_queue (env : Env) (w : World) :
  (exists previews,
     get_screenshots env w = Ret (Previews previews) w /\
     map fst previews = shown_queue w /\
     Forall (fun p => getImagePreview env (fst p) = Normal (snd p)) previews)
  \/ (get_screenshots env w = Ret (PreviewsFailed "Failed to get screenshots") w /\
      exists path e, In path (shown_queue w) /\ getImagePreview env path = Abrupt e).
Proof.
  unfold get_screenshots, shown_queue, try_catch, bind, getView,
    getScreenshotQueue, getExtraScreenshotQueue, gets.
  destruct (View_eqb (view w) ViewQueue).
  - destruct (load_previews_run env (screenshotQueue w) w)
      as [[previews [H [Hm Hf]]]|[e [path [H [Hin He]]]]]; rewrite H.
    + left. exists previews. auto.
    + right. split; [reflexivity|]. exists path, e. auto.
  - destruct (load_previews_run env (extraScreenshotQueue w) w)
      as [[previews [H [Hm Hf]]]|[e [path [H [Hin He]]]]]; rewrite H.
    + left. exists previews. auto.
    + right. split; [reflexivity|]. exists path, e. auto.
Qed.

(** X22.  [process-extra-screenshots] answers [{success: true}] whatever
    the run did: with a live window the handler never throws, and its
    state is the one [processExtraScreenshots] leaves, or the initial one
    when there is no processing helper; [process-screenshots] returns as
    well. *)
Theorem process_extra_screenshots_answers_success (env : Env) (fuel : nat)
        (w : World) (processingHelper : bool) :
  live w ->
  exists w',
    process_extra_screenshots env processingHelper (S fuel) w
      = Ret (JObject [("success", JBool true)]) w' /\
    (if processingHelper
     then processExtraScreenshots env (S fuel) w = Ret tt w'
     else w' = w) /\
    exists w'',
      process_screenshots env processingHelper (S fuel) w = Ret tt w''.
Proof.
  intros Hlive.
  destruct (runs_return env fuel w Hlive) as [[w1 H1] [w2 H2]].
  unfold process_extra_screenshots, process_screenshots, bind.
  destruct processingHelper.
  - exists w2. rewrite H2. repeat split; eauto.
  - exists w. repeat split; eauto.
Qed.

Lemma process_extra_screenshots_answers_success_witness :
  exists w',
    process_extra_screenshots refusing true 1 solved
      = Ret (JObject [("success", JBool true)]) w' /\
    count is_DEBUG_ERROR (emitted solved w') = 2%nat.
Proof.
  destruct (process_extra_screenshots_answers_success refusing 0 solved true)
    as [w' [H [Hrun _]]].
  - reflexivity.
  - exists w'. split; [exact H|].
    assert (w' = final (processExtraScreenshots refusing 1 solved) solved) as ->
      by (rewrite Hrun; reflexivity).
    vm_compute. reflexivity.
Defined.

(* ------------------------------------------------------------------ *)
(** *** The preload script *)

(** X23.  Every event of [PROCESSING_EVENTS] but [RESET], and
    [credits-updated], is sent on a channel that exactly one listener of
    the API subscribes to, and a callback subscribed through it is called
    with the argument that was sent.  No listener of the API subscribes to
    the channel of [RESET]. *)
Theorem sent_events_reach_one_subscription (e : Event) :
  (e = RESET /\ forall f, listens_on f <> channel e) \/
  (exists f,
     listens_on f = channel e /\
     (forall g, listens_on g = channel e -> g = f) /\
     forall cb r,
       receive (channel e) (argument e) (snd (subscribe f cb r))
       = (receive (channel e) (argument e) r ++ [(cb, argument e)])%list).
Proof.
  assert (forall f cb r,
             listens_on f = channel e ->
             (if passes_argument f then argument e else None) = argument e ->
             receive (channel e) (argument e) (snd (subscribe f cb r))
             = (receive (channel e) (argument e) r ++ [(cb, argument e)])%list)
    as Hreceive.
  { intros f cb r Hch Harg. unfold receive, subscribe, ipcRenderer_on. cbn.
    rewrite filter_app, map_app. cbn. rewrite Hch, String.eqb_refl. cbn.
    rewrite Harg. reflexivity. }
  assert (forall f,
             listens_on f = channel e ->
             (if passes_argument f then argument e else None) = argument e ->
             (forall g, listens_on g = channel e -> g = f) ->
             exists f,
               listens_on f = channel e /\
               (forall g, listens_on g = channel e -> g = f) /\
               forall cb r,
                 receive (channel e) (argument e) (snd (subscribe f cb r))
                 = (receive (channel e) (argument e) r ++ [(cb, argument e)])%list)
    as Hone.
  { intros f Hch Harg Huniq. exists f. split; [exact Hch|].
    split; [exact Huniq|]. intros cb r. apply Hreceive; assumption. }
  destruct e;
    [ right; apply (Hone onUnauthorized)
    | right; apply (Hone onProcessingNoScreenshots)
    | right; apply (Hone onOutOfCredits)
    | right; apply (Hone onSolutionStart)
    | right; apply (Hone onProblemExtracted)
    | right; apply (Hone onSolutionSuccess)
    | right; apply (Hone onSolutionError)
    | left; split; [reflexivity | intros f; destruct f; discriminate]
    | right; apply (Hone onDebugStart)
    | right; apply (Hone onDebugSuccess)
    | right; apply (Hone onDebugError)
    | right; apply (Hone onCreditsUpdated) ];
    try reflexivity;
    intros g; destruct g; cbn; intros H; try discriminate; reflexivity.
Qed.

(** X24.  The function a listener of the API returns undoes the
    subscription.  After subscribing, the callback is called last on the
    listener's channel, with the argument or without it as the listener
    passes it, and no other channel is affected; after calling the
    returned function the listeners are those from before. *)
Theorem unsubscribe_undoes_subscribe (f : ApiListener) (cb : nat) (r : IpcRenderer) :
  well_formed r ->
  well_formed (snd (subscribe f cb r)) /\
  listeners (fst (subscribe f cb r) (snd (subscribe f cb r))) = listeners r /\
  (forall arg,
     receive (listens_on f) arg (snd (subscribe f cb r))
     = (receive (listens_on f) arg r
          ++ [(cb, if passes_argument f then arg else None)])%list) /\
  (forall ch arg, ch <> listens_on f ->
                  receive ch arg (snd (subscribe f cb r)) = receive ch arg r) /\
  (forall ch arg,
     receive ch arg (fst (subscribe f cb r) (snd (subscribe f cb r)))
     = receive ch arg r).
Proof.
  intros Hwf.
  set (unsubscribe := fst (subscribe f cb r)).
  set (r1 := snd (subscribe f cb r)).
  assert (listeners (unsubscribe r1) = listeners r) as Hback.
  { unfold unsubscribe, r1, subscribe, ipcRenderer_removeListener, ipcRenderer_on.
    cbn [fst snd listeners closures].
    apply remove_last_fresh; [exact Hwf|].
    unfold is_listener. cbn [on_channel subscription].
    rewrite (String.eqb_sym (listens_on f)),
      (proj2 (String.eqb_eq _ _) (listens_removes f)).
    rewrite Nat.eqb_refl. reflexivity. }
  split; [|split; [exact Hback|split; [|split]]].
  - unfold well_formed, r1, subscribe, ipcRenderer_on. cbn.
    apply Forall_app. split.
    + eapply Forall_impl; [|exact Hwf]. cbn. intros; lia.
    + constructor; [cbn; lia | constructor].
  - intros arg. unfold receive, r1, subscribe, ipcRenderer_on. cbn.
    rewrite filter_app, map_app. cbn. rewrite String.eqb_refl. reflexivity.
  - intros ch arg Hne. unfold receive, r1, subscribe, ipcRenderer_on. cbn.
    rewrite filter_app, map_app. cbn.
    assert (String.eqb (listens_on f) ch = false) as E
      by (apply String.eqb_neq; congruence).
    rewrite E. cbn. apply app_nil_r.
  - intros ch arg. unfold receive. rewrite Hback. reflexivity.
Qed.

Lemma unsubscribe_undoes_subscribe_witness :
  receive "solution-success" (Some (ArgString "x"))
          (snd (subscribe onSolutionSuccess 7 quiet))
    = [(7%nat, Some (ArgString "x"))] /\
  listeners (fst (subscribe onSolutionSuccess 7 quiet)
                 (snd (subscribe onSolutionSuccess 7 quiet))) = [].
Proof.
  destruct (unsubscribe_undoes_subscribe onSolutionSuccess 7 quiet)
    as [_ [Hback [Hlast _]]].
  - constructor.
  - split; [exact (Hlast (Some (ArgString "x"))) | exact Hback].
Defined.
